(** * yourdns-server: resolution and issuance engine

    A shallow embedding of [index.js] (record, proxy-rule and certificate
    stores, [getRecords], [getProxyDNS], [findByOwner], [generateCert],
    [init]), of the DNS [handle] callback of the server entry point, of the
    class [Validator] and of the routes of [api.js], followed by the
    properties of the written specification.

    Conventions.  The three PostgreSQL tables are lists of rows in heap
    order; a [DELETE] filters, an [INSERT] into [records] or [certs]
    appends, and one into [proxy_rules], whose scan order decides a lookup,
    lands where its [place] argument says.  JavaScript exceptions
    and rejected promises are the [Throw] outcome of [Result].  Characters
    are 8-bit [ascii]; letter case is folded on the ASCII letters only. *)

From Stdlib Require Import Ascii String ZArith Lia Bool QArith Qabs Qround
  DecimalString.
From stdpp Require Import base list sorting gmap strings.

Local Open Scope string_scope.
Local Open Scope Z_scope.

(** ** Outcomes of fallible calls *)

Inductive Exn : Type :=
  | TypeError (msg : string)
  | SyntaxError (msg : string)
  | DatabaseError (msg : string)
  | NetworkError (msg : string).

Inductive Result (A : Type) : Type :=
  | Ok (a : A)
  | Throw (e : Exn).
Arguments Ok {A} a.
Arguments Throw {A} e.

Definition is_ok {A} (r : Result A) : bool :=
  match r with Ok _ => true | Throw _ => false end.

(** ** Text helpers *)

Module Text.

Definition chars (s : string) : list ascii := list_ascii_of_string s.

Definition dot : ascii := "."%char.

(** [LOWER] of SQL and the case folding of flag [i], on ASCII letters. *)
Definition lower_ascii (c : ascii) : ascii :=
  let n := nat_of_ascii c in
  if (Nat.leb 65 n && Nat.leb n 90)%bool then ascii_of_nat (n + 32) else c.

Definition lower (s : list ascii) : list ascii := map lower_ascii s.

Definition LOWER (s : string) : string :=
  string_of_list_ascii (lower (chars s)).

(** Splitting at a separator, as [String.prototype.split] does: the
    empty text has one (empty) field. *)
Fixpoint split_on (sep : ascii) (s : list ascii) : list (list ascii) :=
  match s with
  | [] => [[]]
  | c :: s' =>
      if Ascii.eqb c sep then [] :: split_on sep s'
      else match split_on sep s' with
           | l :: ls => (c :: l) :: ls
           | [] => [[c]]
           end
  end.

Definition labels (s : list ascii) : list (list ascii) := split_on dot s.

(** [replace(name, '*', '%')] *)
Definition star_to_percent (s : list ascii) : list ascii :=
  map (fun c => if Ascii.eqb c "*" then "%"%char else c) s.

Fixpoint list_eqb (a b : list ascii) : bool :=
  match a, b with
  | [], [] => true
  | x :: a', y :: b' => Ascii.eqb x y && list_eqb a' b'
  | _, _ => false
  end.

Fixpoint count_char (c : ascii) (s : list ascii) : nat :=
  match s with
  | [] => 0%nat
  | x :: s' => ((if Ascii.eqb x c then 1 else 0) + count_char c s')%nat
  end.

End Text.

(** ** SQL helpers: [LIKE], [string_to_array], [array_length] *)

Module Sql.
Import Text.

(** A pattern may not end in a dangling escape character. *)
Fixpoint like_wf (p : list ascii) : bool :=
  match p with
  | [] => true
  | c :: p' =>
      if Ascii.eqb c "\" then
        match p' with
        | [] => false
        | _ :: p'' => like_wf p''
        end
      else like_wf p'
  end.

(** [like_match p t]: text [t] matches pattern [p]; [%] stands for any
    run of characters, [_] for one character, and the backslash makes the
    next pattern character literal. *)
Fixpoint like_match (p t : list ascii) {struct p} : bool :=
  match p with
  | [] => match t with [] => true | _ => false end
  | c :: p' =>
      if Ascii.eqb c "%" then
        (fix skip (t : list ascii) : bool :=
           like_match p' t ||
           match t with
           | [] => false
           | _ :: t' => skip t'
           end) t
      else if Ascii.eqb c "_" then
        match t with
        | [] => false
        | _ :: t' => like_match p' t'
        end
      else if Ascii.eqb c "\" then
        match p', t with
        | e :: p'', x :: t' => Ascii.eqb e x && like_match p'' t'
        | _, _ => false
        end
      else
        match t with
        | [] => false
        | x :: t' => Ascii.eqb c x && like_match p' t'
        end
  end.

(** [t LIKE p].  PostgreSQL rejects a pattern that ends in the escape
    character ("LIKE pattern must not end with escape character"). *)
Definition LIKE (t p : list ascii) : Result bool :=
  if like_wf p then Ok (like_match p t)
  else Throw (DatabaseError "LIKE pattern must not end with escape character").

(** [string_to_array(s, '.')]: the empty text gives the empty array. *)
Definition string_to_array (s : list ascii) : list (list ascii) :=
  match s with
  | [] => []
  | _ => split_on dot s
  end.

(** [array_length(a, 1)]: NULL, here [None], for the empty array. *)
Definition array_length (a : list (list ascii)) : option nat :=
  match a with
  | [] => None
  | _ => Some (length a)
  end.

(** [x = y] in a [WHERE] clause: a comparison with NULL does not hold. *)
Definition sql_eq (x y : option nat) : bool :=
  match x, y with
  | Some a, Some b => Nat.eqb a b
  | _, _ => false
  end.

End Sql.

(** ** Monads: [Result], and [IO S] for calls that also change a state [S]

    A call that throws keeps the state it had reached, as a rejected promise
    keeps the statements already executed. *)

#[global] Instance Result_ret : MRet Result := fun _ a => Ok a.
#[global] Instance Result_bind : MBind Result := fun _ _ f m =>
  match m with
  | Ok a => f a
  | Throw e => Throw e
  end.

Definition IO (S A : Type) : Type := S -> Result A * S.

#[global] Instance IO_ret {S} : MRet (IO S) := fun _ a s => (Ok a, s).
#[global] Instance IO_bind {S} : MBind (IO S) := fun _ _ f m s =>
  match m s with
  | (Ok a, s') => f a s'
  | (Throw e, s') => (Throw e, s')
  end.

Definition throw {S A} (e : Exn) : IO S A := fun s => (Throw e, s).
Definition lift {S A} (r : Result A) : IO S A := fun s => (r, s).

(** ** The tables *)

Module Store.
Import Text Sql.

(** Row of [records]. *)
Record DnsRecord : Type := mkRecord {
  rec_id : string;
  rec_name : string;
  rec_type : string;
  rec_ttl : Z;
  rec_value : string;
  rec_timestamp : Z
}.

(** Row of [proxy_rules]. *)
Record ProxyRule : Type := mkRule {
  rule_id : string;
  rule : string;
  addr : string
}.

(** A certificate as node-forge holds it before encoding. *)
Inductive Extension : Type :=
  | basicConstraints (cA : bool)
  | keyUsage (keyCertSign digitalSignature cRLSign : bool)
  | subjectAltName (altNames : list (Z * string)).

Record Certificate : Type := mkCertificate {
  publicKey : string;
  serialNumber : string;
  notBefore : Z;
  notAfter : Z;
  subject : list (string * string);
  issuer : list (string * string);
  extensions : list Extension;
  signedWith : option string
}.

(** Row of [certs]; [cert_key] is the encoded private key, [cert_cert]
    stands for the encoded certificate. *)
Record CertPair : Type := mkCertPair {
  cert_id : string;
  cert_domain : string;
  cert_key : string;
  cert_cert : Certificate;
  cert_timestamp : Z;
  cert_until : Z
}.

Record DB : Type := mkDB {
  records : list DnsRecord;
  proxy_rules : list ProxyRule;
  certs : list CertPair
}.

Definition set_records (rs : list DnsRecord) (db : DB) : DB :=
  mkDB rs (proxy_rules db) (certs db).
Definition set_certs (cs : list CertPair) (db : DB) : DB :=
  mkDB (records db) (proxy_rules db) cs.

Definition recordTypes : list string := ["A"; "AAAA"; "CNAME"; "TXT"].

(** [SELECT ... WHERE cond]: the rows on which [cond] holds, in table
    order; an error raised by [cond] on any row fails the query. *)
Fixpoint select_where {A} (cond : A -> Result bool) (rows : list A)
  : Result (list A) :=
  match rows with
  | [] => Ok []
  | r :: rows' =>
      b ← cond r;
      rest ← select_where cond rows';
      mret (if b : bool then r :: rest else rest)
  end.

(** [ORDER BY timestamp ASC] *)
Definition timestamp_le (a b : DnsRecord) : Prop :=
  rec_timestamp a <= rec_timestamp b.
#[global] Instance timestamp_le_dec : RelDecision timestamp_le.
Proof. intros a b. unfold timestamp_le. apply Z_le_dec. Defined.
#[global] Instance timestamp_le_trans : Transitive timestamp_le.
Proof. intros a b c. unfold timestamp_le. lia. Qed.
#[global] Instance timestamp_le_total : Total timestamp_le.
Proof. intros a b. unfold timestamp_le. lia. Qed.

Definition order_by_timestamp (rows : list DnsRecord) : list DnsRecord :=
  merge_sort timestamp_le rows.

Definition unique_violation : Exn :=
  DatabaseError "duplicate key value violates unique constraint".

(** A parameter of a column [INTEGER] must fit 32 bits. *)
Definition int4_in (n : Z) : Result Z :=
  if (-2147483648 <=? n) && (n <=? 2147483647) then Ok n
  else Throw (DatabaseError "value out of range for type integer").

(** A value stored into a column [varchar(20)]: a longer text is refused,
    unless what exceeds is all spaces, which is cut off. *)
Definition varchar20 (s : string) : Result string :=
  if Nat.leb (String.length s) 20 then Ok s
  else if forallb (Ascii.eqb " ") (skipn 20 (chars s))
  then Ok (string_of_list_ascii (firstn 20 (chars s)))
  else Throw (DatabaseError "value too long for type character varying(20)").

(** [pushRecord]: the id comes from [randomUUID()], the timestamp from
    [Date.now()]; the name is stored as [LOWER($2)]. *)
Definition pushRecord (uuid : string) (now : Z)
    (name type : string) (ttl : Z) (value : string) : IO DB DnsRecord :=
  fun db =>
    match int4_in ttl with
    | Throw e => (Throw e, db)
    | Ok ttl =>
        match varchar20 type with
        | Throw e => (Throw e, db)
        | Ok type =>
            let row := mkRecord uuid (LOWER name) type ttl value now in
            if existsb (fun r => String.eqb (rec_id r) uuid) (records db)
            then (Throw unique_violation, db)
            else (Ok row, set_records (records db ++ [row]) db)
        end
    end.

(** The [WHERE] clause of [getRecords], on one row. *)
Definition getRecords_where (name : string) (r : DnsRecord) : Result bool :=
  m ← LIKE (lower (chars name)) (star_to_percent (chars (rec_name r)));
  mret (m && sql_eq (array_length (string_to_array (chars (rec_name r))))
                    (array_length (string_to_array (chars name)))).

Definition getRecords (name : string) (db : DB) : Result (list DnsRecord) :=
  rows ← select_where (getRecords_where name) (records db);
  mret (order_by_timestamp rows).

(** The [WHERE] clause of [findByOwner], on one row. *)
Definition findByOwner_where (owner : string) (r : DnsRecord) : Result bool :=
  m ← LIKE (chars (rec_name r)) (chars "-.%");
  mret (m && String.eqb (rec_type r) "TXT" && String.eqb (rec_value r) owner).

Definition findByOwner (owner : string) (db : DB) : Result (list DnsRecord) :=
  rows ← select_where (findByOwner_where owner) (records db);
  mret (order_by_timestamp rows).

Definition getAllProxyRules (db : DB) : list ProxyRule := proxy_rules db.

(** [getCert]: [rows?.[0]] of the pairs stored for the domain. *)
Definition getCert (domain : string) : IO DB (option CertPair) :=
  fun db =>
    (Ok (head (List.filter (fun c => String.eqb (cert_domain c) domain)
                           (certs db))), db).

Definition deleteCert (domain : string) : IO DB unit :=
  fun db =>
    (Ok tt, set_certs (List.filter
               (fun c => negb (String.eqb (cert_domain c) domain)) (certs db)) db).

Definition removeCertByID (id : string) : IO DB unit :=
  fun db =>
    (Ok tt, set_certs (List.filter
               (fun c => negb (String.eqb (cert_id c) id)) (certs db)) db).

(** [INSERT INTO certs ... RETURNING *]; [id] is the primary key. *)
Definition insertCert (row : CertPair) : IO DB CertPair :=
  fun db =>
    if existsb (fun c => String.eqb (cert_id c) (cert_id row)) (certs db)
    then (Throw unique_violation, db)
    else (Ok row, set_certs (certs db ++ [row]) db).

End Store.

(** ** Regular expressions

    [getProxyDNS] compiles each stored rule with [new RegExp(rule, "i")]
    and tests the domain with [String.prototype.match].  The engine is an
    interface; [Fragment] below is an executable instance for a small
    pattern language. *)

Class RegExpEngine : Type := {
  RegExp : Type;
  (** [new RegExp(source, flags)]; throws on a malformed source. *)
  new_RegExp : string -> string -> Result RegExp;
  (** [text.match(re)] is not [null]. *)
  String_match : string -> RegExp -> bool
}.

Module Fragment.
Import Text.

Inductive Atom : Type := Lit (c : ascii) | AnyChar.
Inductive Quant : Type := One | ZeroOrMore | OneOrMore | ZeroOrOne.
Inductive Item : Type :=
  | AssertStart
  | AssertEnd
  | Match (a : Atom) (q : Quant).

Record Regex : Type := mkRegex { items : list Item; ignoreCase : bool }.

Inductive ParseState : Type :=
  | Fresh        (* nothing a quantifier could apply to *)
  | AfterAtom    (* the last item is an unquantified atom *)
  | AfterQuant   (* the last item has its quantifier *)
  | AfterLazy    (* ... and its laziness mark *)
  | Escaped.     (* a backslash was read *)

Inductive Parsed : Type :=
  | Parsed_ok (its : list Item)
  | Parsed_error (msg : string)
  | Parsed_unsupported.

Definition is_alnum (c : ascii) : bool :=
  let n := nat_of_ascii c in
  (Nat.leb 48 n && Nat.leb n 57) || (Nat.leb 65 n && Nat.leb n 90)
  || (Nat.leb 97 n && Nat.leb n 122).

Definition outside_fragment (c : ascii) : bool :=
  existsb (Ascii.eqb c) ["("; ")"; "["; "]"; "{"; "}"; "|"]%char.

Definition quantify (q : Quant) (acc : list Item) : list Item :=
  match acc with
  | Match a One :: acc' => Match a q :: acc'
  | _ => acc
  end.

Definition quant_of (c : ascii) : option Quant :=
  if Ascii.eqb c "*" then Some ZeroOrMore
  else if Ascii.eqb c "+" then Some OneOrMore
  else if Ascii.eqb c "?" then Some ZeroOrOne
  else None.

(** One pass over the source; [acc] holds the items read so far, last
    one first. *)
Fixpoint parse (p : list ascii) (acc : list Item) (st : ParseState) : Parsed :=
  match p with
  | [] =>
      match st with
      | Escaped => Parsed_error "\ at end of pattern"
      | _ => Parsed_ok (rev acc)
      end
  | c :: p' =>
      match st with
      | Escaped =>
          if is_alnum c then Parsed_unsupported
          else parse p' (Match (Lit c) One :: acc) AfterAtom
      | _ =>
          if Ascii.eqb c "\" then parse p' acc Escaped
          else if outside_fragment c then Parsed_unsupported
          else if Ascii.eqb c "^" then parse p' (AssertStart :: acc) Fresh
          else if Ascii.eqb c "$" then parse p' (AssertEnd :: acc) Fresh
          else if Ascii.eqb c "." then parse p' (Match AnyChar One :: acc) AfterAtom
          else match quant_of c with
               | Some q =>
                   match st with
                   | AfterAtom => parse p' (quantify q acc) AfterQuant
                   | AfterQuant =>
                       if Ascii.eqb c "?" then parse p' acc AfterLazy
                       else Parsed_error "Nothing to repeat"
                   | _ => Parsed_error "Nothing to repeat"
                   end
               | None => parse p' (Match (Lit c) One :: acc) AfterAtom
               end
      end
  end.

Definition is_line_terminator (c : ascii) : bool :=
  Ascii.eqb c "010" || Ascii.eqb c "013".

Definition atom_ok (ic : bool) (a : Atom) (x : ascii) : bool :=
  match a with
  | Lit c =>
      if ic then Ascii.eqb (lower_ascii c) (lower_ascii x) else Ascii.eqb c x
  | AnyChar => negb (is_line_terminator x)
  end.

(** [match_here ic its at_start s]: the items match a prefix of [s];
    [at_start] tells whether [s] is the whole input. *)
Fixpoint match_here (ic : bool) (its : list Item) (at_start : bool)
    (s : list ascii) {struct its} : bool :=
  match its with
  | [] => true
  | AssertStart :: r => at_start && match_here ic r at_start s
  | AssertEnd :: r =>
      match s with
      | [] => match_here ic r at_start s
      | _ => false
      end
  | Match a q :: r =>
      let star :=
        fix star (s : list ascii) (at_start : bool) {struct s} : bool :=
          match_here ic r at_start s ||
          match s with
          | [] => false
          | x :: s' => atom_ok ic a x && star s' false
          end in
      let once (k : list ascii -> bool -> bool) :=
        match s with
        | [] => false
        | x :: s' => atom_ok ic a x && k s' false
        end in
      match q with
      | One => once (fun s' b => match_here ic r b s')
      | ZeroOrOne => once (fun s' b => match_here ic r b s') || match_here ic r at_start s
      | ZeroOrMore => star s at_start
      | OneOrMore => once star
      end
  end.

(** An unanchored search: some suffix of the input matches. *)
Fixpoint search (ic : bool) (its : list Item) (at_start : bool)
    (s : list ascii) : bool :=
  match_here ic its at_start s ||
  match s with
  | [] => false
  | _ :: s' => search ic its false s'
  end.

Definition compile (source flags : string) : Parsed :=
  if String.eqb flags "" || String.eqb flags "i"
  then parse (chars source) [] Fresh
  else Parsed_unsupported.

Definition new_RegExp (source flags : string) : Result Regex :=
  match compile source flags with
  | Parsed_ok its => Ok (mkRegex its (String.eqb flags "i"))
  | Parsed_error msg => Throw (SyntaxError msg)
  | Parsed_unsupported => Throw (SyntaxError "pattern outside the modelled fragment")
  end.

Definition String_match (text : string) (re : Regex) : bool :=
  search (ignoreCase re) (items re) true (chars text).

(** The instance: literals, [.], [^], [$], escaped punctuation and the
    quantifiers [*], [+], [?] (greedy or lazy).  Groups, alternation,
    classes and counted repetition are not part of it: this instance
    refuses a source that uses them, where a full engine would compile
    it. *)
#[global] Instance engine : RegExpEngine := {
  RegExp := Regex;
  new_RegExp := new_RegExp;
  String_match := String_match
}.

End Fragment.

(** ** Resolution: [getProxyDNS] and the DNS [handle] callback *)

Module Resolution.
Import Text Store.

Section Lookup.
Context {engine : RegExpEngine}.

(** The [for] loop of [getProxyDNS]; [None] is JavaScript's [null]. *)
Fixpoint scan_rules (rules : list ProxyRule) (domain : string)
  : Result (option string) :=
  match rules with
  | [] => Ok None
  | r :: rules' =>
      re ← new_RegExp (rule r) "i";
      if String_match domain re then Ok (Some (addr r))
      else scan_rules rules' domain
  end.

Definition getProxyDNS (domain : string) (db : DB) : Result (option string) :=
  scan_rules (getAllProxyRules db) domain.
End Lookup.

(** *** DNS messages *)

Inductive JsValue : Type :=
  | JsUndefined
  | JsNumber (n : Z)
  | JsString (s : string).

(** A plain JavaScript object: its own properties by key. *)
Abbreviation JsObject := (gmap string JsValue).

(** [Object.assign(target, source)]: the source's keys win. *)
Definition Object_assign (target source : JsObject) : JsObject :=
  source ∪ target.

Record Question : Type := mkQuestion { q_name : string; q_type : Z; q_class : Z }.

Record Packet : Type := mkPacket {
  header_id : Z;
  questions : list Question;
  answers : list JsObject
}.

Definition set_answers (a : list JsObject) (p : Packet) : Packet :=
  mkPacket (header_id p) (questions p) a.

(** What the callback takes from the dns2 package and from the process
    environment. *)
Class Dns2 : Type := {
  Packet_TYPE : string -> JsValue;
  Packet_CLASS_IN : JsValue;
  createResponseFromRequest : Packet -> Packet;
  (** [UDPClient({ dns })(name)] *)
  UDPClient : string -> string -> Result Packet;
  DEFAULT_SERVER : string
}.

(** What a run of the callback does, in order. *)
Inductive Event : Type :=
  | SelectProxyRules
  | SelectRecords (name : string)
  | Resolve (dns name : string)
  | Send (res : Packet).

Definition emit (e : Event) : IO (list Event) unit :=
  fun t => (Ok tt, (t ++ [e])%list).

Section Handle.
Context {engine : RegExpEngine} {dns2 : Dns2}.

(** The object pushed for one record. *)
Definition answer (record : DnsRecord) : JsObject :=
  Object_assign
    {[ "mame" := JsString (rec_name record);
       "type" := Packet_TYPE (rec_type record);
       "class" := Packet_CLASS_IN;
       "ttl" := JsNumber (rec_ttl record) ]}
    (if String.eqb (rec_type record) "CNAME"
     then {[ "domain" := JsString (rec_value record) ]}
     else if String.eqb (rec_type record) "TXT"
     then {[ "data" := JsString (rec_value record) ]}
     else {[ "address" := JsString (rec_value record) ]}).

Definition forward (dns name : string) (res : Packet) : IO (list Event) unit :=
  emit (Resolve dns name);;
  r ← lift (UDPClient dns name);
  emit (Send (set_answers (answers r) res)).

Definition handle (db : DB) (req : Packet) : IO (list Event) unit :=
  let res := createResponseFromRequest req in
  match questions req with
  | [] => throw (TypeError "Cannot destructure property 'name' of 'question'")
  | question :: _ =>
      let name := q_name question in
      emit SelectProxyRules;;
      toAsk ← lift (getProxyDNS name db);
      match toAsk with
      | Some toAsk => forward toAsk name res
      | None =>
          emit (SelectRecords name);;
          records ← lift (getRecords name db);
          if Nat.ltb 0 (length records)
          then emit (Send (set_answers (answers res ++ map answer records)%list res))
          else forward DEFAULT_SERVER name res
      end
  end.
End Handle.

End Resolution.

(** ** Issuance: [generateCert] and [init] *)

Module Issuance.
Import Text Store.

Definition VALID_MS : Z := 365 * 24 * 3600 * 1000.
Definition VALID_MS_CA : Z := 25 * VALID_MS.
Definition CA_NAME : string := "yourdns".

(** The private-key codec of node-forge: [privateKeyToDer k] is the
    stored encoding of [k], [privateKeyFromDer] reads one back. *)
Class Forge : Type := {
  privateKeyToDer : string -> string;
  privateKeyFromDer : string -> Result string;
  der_roundtrip : forall k, privateKeyFromDer (privateKeyToDer k) = Ok k
}.

(** What one call of [generateCert] draws from its environment:
    [randomUUID()], [pki.rsa.generateKeyPair(2048)] and [new Date()]. *)
Record Drawn : Type := mkDrawn {
  uuid : string;
  keys_publicKey : string;
  keys_privateKey : string;
  now : Z
}.

(** [id.replaceAll("-", "")] *)
Definition without_dashes (id : string) : string :=
  string_of_list_ascii
    (List.filter (fun c => negb (Ascii.eqb c "-")) (chars id)).

Definition rootAttrs : list (string * string) := [("commonName", CA_NAME)].

Section Generate.
Context {forge : Forge}.

Definition generateCert (w : Drawn) (domain : string) (ca : bool)
  : IO DB CertPair :=
  old ← getCert domain;
  let id := uuid w in
  let until := now w + (if ca then VALID_MS_CA else VALID_MS) in
  let unsigned subj exts :=
    mkCertificate (keys_publicKey w) (without_dashes id) (now w) until
                  subj rootAttrs exts in
  cert ← (if ca then
            mret (unsigned rootAttrs
                    [basicConstraints true; keyUsage true true true]
                    (Some (keys_privateKey w)))
          else
            caCert ← getCert ".";
            match caCert with
            | None =>
                throw (TypeError "Cannot read properties of undefined (reading 'key')")
            | Some caCert =>
                privateKey ← lift (privateKeyFromDer (cert_key caCert));
                mret (unsigned [("commonName", domain)]
                        [subjectAltName [(2, domain)]]
                        (Some privateKey))
            end);
  let keyBin := privateKeyToDer (keys_privateKey w) in
  match old with
  | Some old => removeCertByID (cert_id old)
  | None => mret tt
  end;;
  insertCert (mkCertPair id (if ca then "." else domain) keyBin cert
                         (now w) until).

(** [init]: the tables are created when absent, then the root pair is
    generated unless a pair is stored for ["."]. *)
Definition init (w : Drawn) : IO DB unit :=
  root ← getCert ".";
  match root with
  | None => generateCert w "." true;; mret tt
  | Some _ => mret tt
  end.
End Generate.

(** An instance whose encoding is the key text itself. *)
#[global] Instance plain_forge : Forge := {
  privateKeyToDer := fun k => k;
  privateKeyFromDer := fun d => Ok d;
  der_roundtrip := fun k => eq_refl
}.

End Issuance.

(** ** Vocabulary of the properties *)

Module Wording.
Import Text Sql Store Resolution Issuance.

(** [holds c]: a [WHERE] condition evaluated to true. *)
Definition holds (c : Result bool) : bool :=
  match c with
  | Ok true => true
  | _ => false
  end.

(** *** Wildcard names, label by label *)

Definition is_star (l : list ascii) : bool := list_eqb l ["*"%char].

Definition like_special (c : ascii) : bool :=
  existsb (Ascii.eqb c) ["*"; "%"; "_"; "\"]%char.

Definition plain_label (l : list ascii) : bool :=
  forallb (fun c => negb (like_special c)) l.

(** A name whose labels are each [*] or free of [*], [%], [_] and the
    backslash. *)
Definition labelled_pattern (P : string) : bool :=
  forallb (fun l => is_star l || plain_label l) (labels (chars P)).

(** Equal label counts, and each label of the pattern that is not [*]
    equals the label of the query at the same place, letter case apart. *)
Fixpoint labels_match (ps qs : list (list ascii)) : bool :=
  match ps, qs with
  | [], [] => true
  | p :: ps', q :: qs' =>
      (is_star p || list_eqb (lower p) (lower q)) && labels_match ps' qs'
  | _, _ => false
  end.

Definition matches_labelwise (P Q : string) : bool :=
  labels_match (labels (chars P)) (labels (chars Q)).

Definition dot_free (l : list ascii) : bool :=
  forallb (fun c => negb (Ascii.eqb c dot)) l.

(** A label of a name the label-wise reading covers: without dot, and
    either the star or free of pattern characters. *)
Definition good_label (l : list ascii) : Prop :=
  dot_free l = true /\ (is_star l = true \/ plain_label l = true).

(** The star takes any label, another label only itself. *)
Definition label_ok (p q : list ascii) : Prop := is_star p = true \/ p = q.

(** The inverse of [labels]. *)
Fixpoint join_dots (ls : list (list ascii)) : list ascii :=
  match ls with
  | [] => []
  | l :: ls' =>
      match ls' with
      | [] => l
      | _ => l ++ dot :: join_dots ls'
      end
  end.

(** *** Proxy rules *)

Section Rules.
Context {engine : RegExpEngine}.

(** The test of the loop of [getProxyDNS] on one rule. *)
Definition rule_test (domain : string) (r : ProxyRule) : Result bool :=
  re ← new_RegExp (rule r) "i";
  mret (String_match domain re).
End Rules.

(** *** What a forwarded query leaves in the trace *)

Section Forwarding.
Context {dns2 : Dns2}.

Definition forwarded (dns name : string) (res : Packet)
  : Result unit * list Event :=
  match UDPClient dns name with
  | Ok r => (Ok tt, [Resolve dns name; Send (set_answers (answers r) res)])
  | Throw e => (Throw e, [Resolve dns name])
  end.
End Forwarding.

(** *** Certificate pairs *)

Definition pairs_for (domain : string) (db : DB) : list CertPair :=
  List.filter (fun c => String.eqb (cert_domain c) domain) (certs db).

Definition without_id (id : string) (cs : list CertPair) : list CertPair :=
  List.filter (fun c => negb (String.eqb (cert_id c) id)) cs.

Definition fresh_id (id : string) (cs : list CertPair) : bool :=
  negb (existsb (fun c => String.eqb (cert_id c) id) cs).

(** The pairs left once the pair found for [domain] is removed. *)
Definition kept (domain : string) (db : DB) : list CertPair :=
  match head (pairs_for domain db) with
  | Some old => without_id (cert_id old) (certs db)
  | None => certs db
  end.

Definition self_signed_ca (p : CertPair) (private : string) : Prop :=
  subject (cert_cert p) = rootAttrs /\
  issuer (cert_cert p) = rootAttrs /\
  In (basicConstraints true) (extensions (cert_cert p)) /\
  signedWith (cert_cert p) = Some private.

Fixpoint starts_with (prefix s : string) : bool :=
  match prefix, s with
  | EmptyString, _ => true
  | String a prefix', String b s' => Ascii.eqb a b && starts_with prefix' s'
  | _, _ => false
  end.

(** The primary key of [certs]: no two rows share an id. *)
Definition primary_key (db : DB) : Prop := NoDup (map cert_id (certs db)).

Section Pairs.
Context {forge : Forge}.

(** The root pair [generateCert] builds from what it draws. *)
Definition ca_pair (w : Drawn) : CertPair :=
  mkCertPair (uuid w) "." (privateKeyToDer (keys_privateKey w))
    (mkCertificate (keys_publicKey w) (without_dashes (uuid w))
       (now w) (now w + VALID_MS_CA) rootAttrs rootAttrs
       [basicConstraints true; keyUsage true true true]
       (Some (keys_privateKey w)))
    (now w) (now w + VALID_MS_CA).

(** The leaf pair it builds for [domain], signed with [signer]. *)
Definition leaf_pair (w : Drawn) (domain signer : string) : CertPair :=
  mkCertPair (uuid w) domain (privateKeyToDer (keys_privateKey w))
    (mkCertificate (keys_publicKey w) (without_dashes (uuid w))
       (now w) (now w + VALID_MS) [("commonName", domain)] rootAttrs
       [subjectAltName [(2, domain)]]
       (Some signer))
    (now w) (now w + VALID_MS).

(** The pair a call is about to store, or the error met while signing. *)
Definition built_pair (w : Drawn) (domain : string) (ca : bool) (db : DB)
  : Result CertPair :=
  if ca then Ok (ca_pair w)
  else match head (pairs_for "." db) with
       | None => Throw (TypeError "Cannot read properties of undefined (reading 'key')")
       | Some root =>
           match privateKeyFromDer (cert_key root) with
           | Ok k => Ok (leaf_pair w domain k)
           | Throw e => Throw e
           end
       end.
End Pairs.

End Wording.

(** ** Sample data *)

Module Samples.
Import Text Store Resolution Issuance.

(** The type codes of RFC 1035 and RFC 3596 for the four record types. *)
#[global] Instance dns2 : Dns2 := {
  Packet_TYPE := fun t =>
    if String.eqb t "A" then JsNumber 1
    else if String.eqb t "CNAME" then JsNumber 5
    else if String.eqb t "TXT" then JsNumber 16
    else if String.eqb t "AAAA" then JsNumber 28
    else JsUndefined;
  Packet_CLASS_IN := JsNumber 1;
  createResponseFromRequest := fun req => set_answers [] req;
  UDPClient := fun dns name =>
    Ok (mkPacket 0 [mkQuestion name 1 1]
          [{[ "name" := JsString name; "address" := JsString dns ]}]);
  DEFAULT_SERVER := "1.1.1.1"
}.

Definition query (name : string) : Packet := mkPacket 7 [mkQuestion name 1 1] [].

Definition rec_a : DnsRecord :=
  mkRecord "7b1e0000-0000-4000-8000-00000000000a"
    "a.example.com" "A" 60 "10.0.0.1" 1700000000005.
Definition rec_wild : DnsRecord :=
  mkRecord "7b1e0000-0000-4000-8000-00000000000b"
    "*.example.com" "CNAME" 300 "target.example.net" 1700000000003.
Definition rec_partial : DnsRecord :=
  mkRecord "7b1e0000-0000-4000-8000-00000000000c"
    "a*.com" "A" 60 "10.0.0.2" 1700000000007.
Definition rec_underscore : DnsRecord :=
  mkRecord "7b1e0000-0000-4000-8000-00000000000d"
    "_dmarc.example.com" "TXT" 60 "v=DMARC1" 1700000000008.
Definition rec_delegated : DnsRecord :=
  mkRecord "7b1e0000-0000-4000-8000-00000000000f"
    "host.delegated.test" "A" 60 "10.0.0.9" 1700000000010.
Definition rec_owner : DnsRecord :=
  mkRecord "7b1e0000-0000-4000-8000-00000000000e"
    "-.example.com" "TXT" 60 "alice" 1700000000009.

Definition rule_delegated : ProxyRule :=
  mkRule "7b1e0000-0000-4000-8000-00000000001a" "^.*\.delegated\.test$" "9.9.9.9".
Definition rule_broken : ProxyRule :=
  mkRule "7b1e0000-0000-4000-8000-00000000001b" "*" "9.9.9.9".
Definition rule_any_a : ProxyRule :=
  mkRule "7b1e0000-0000-4000-8000-00000000001c" "a" "8.8.8.8".

Definition db_empty : DB := mkDB [] [] [].
Definition db_records : DB := mkDB [rec_a; rec_wild] [rule_delegated] [].
Definition db_both : DB := mkDB [rec_delegated] [rule_delegated] [].
Definition db_partial : DB := mkDB [rec_partial] [] [].
Definition db_underscore : DB := mkDB [rec_underscore] [] [].
Definition db_broken_rule : DB := mkDB [] [rule_broken; rule_any_a] [].

Definition draw1 : Drawn :=
  mkDrawn "3f0c6a52-0000-4000-8000-000000000001" "pub1" "priv1" 1700000000000.
Definition draw2 : Drawn :=
  mkDrawn "3f0c6a52-0000-4000-8000-000000000002" "pub2" "priv2" 1700000001000.
Definition draw3 : Drawn :=
  mkDrawn "3f0c6a52-0000-4000-8000-000000000003" "pub3" "priv3" 1700000002000.

(** The store after [init] on an empty database. *)
Definition db_rooted : DB := snd (init draw1 db_empty).

(** ... and after a first leaf for [example.com]. *)
Definition db_leaf : DB := snd (generateCert draw2 "example.com" false db_rooted).

End Samples.

(** ** The other queries of the store *)

Module Crud.
Import Text Sql Store.

(** *** A parameter of type [uuid]

    PostgreSQL reads thirty-two hexadecimal digits in either case, with an
    optional hyphen after any group of four and optional braces around, and
    prints the value in lower case with hyphens after the digits 8, 12, 16
    and 20.  Stored ids are in that printed form. *)

Definition is_hex (c : ascii) : bool :=
  let n := nat_of_ascii c in
  (Nat.leb 48 n && Nat.leb n 57) || (Nat.leb 65 n && Nat.leb n 70)
  || (Nat.leb 97 n && Nat.leb n 102).

(** [uuid_bytes todo i src]: reads [todo] bytes, the next one being byte
    [i]; gives the digits in lower case and the rest of the text. *)
Fixpoint uuid_bytes (todo i : nat) (src : list ascii)
  : option (list ascii * list ascii) :=
  match todo with
  | O => Some ([], src)
  | S todo' =>
      match src with
      | a :: b :: rest =>
          if is_hex a && is_hex b then
            let rest' :=
              match rest with
              | c :: r =>
                  if Ascii.eqb c "-" && Nat.odd i && Nat.ltb i 15 then r else rest
              | [] => rest
              end in
            match uuid_bytes todo' (S i) rest' with
            | Some (ds, tl) => Some (lower_ascii a :: lower_ascii b :: ds, tl)
            | None => None
            end
          else None
      | _ => None
      end
  end.

Definition uuid_out (ds : list ascii) : string :=
  string_of_list_ascii
    (firstn 8 ds ++ "-"%char :: firstn 4 (skipn 8 ds)
     ++ "-"%char :: firstn 4 (skipn 12 ds)
     ++ "-"%char :: firstn 4 (skipn 16 ds)
     ++ "-"%char :: skipn 20 ds).

Definition invalid_uuid : Exn :=
  DatabaseError "invalid input syntax for type uuid".

Definition uuid_in (s : string) : Result string :=
  let src := chars s in
  let braces := match src with c :: _ => Ascii.eqb c "{" | [] => false end in
  match uuid_bytes 16 0 (if braces then skipn 1 src else src) with
  | None => Throw invalid_uuid
  | Some (ds, tl) =>
      if list_eqb tl (if braces then ["}"%char] else []) then Ok (uuid_out ds)
      else Throw invalid_uuid
  end.

(** *** Records *)

(** [getRecordByID]: [rows?.[0]]. *)
Definition getRecordByID (id : string) (db : DB) : Result (option DnsRecord) :=
  u ← uuid_in id;
  mret (head (List.filter (fun r => String.eqb (rec_id r) u) (records db))).

Definition deleteRecordByID (id : string) : IO DB unit :=
  fun db =>
    match uuid_in id with
    | Throw e => (Throw e, db)
    | Ok u =>
        (Ok tt, set_records
                  (List.filter (fun r => negb (String.eqb (rec_id r) u)) (records db))
                  db)
    end.

(** [deleteRecordByName]: [WHERE name = $1], the parameter as it is given. *)
Definition deleteRecordByName (name : string) : IO DB unit :=
  fun db =>
    (Ok tt, set_records
              (List.filter (fun r => negb (String.eqb (rec_name r) name)) (records db))
              db).

(** [updateRecord]: the parameters are read first, the rows with the id
    are rewritten then their new versions returned; [rows?.[0]]. *)
Definition updateRecord (id name type : string) (ttl : Z) (value : string)
  : IO DB (option DnsRecord) :=
  fun db =>
    match uuid_in id with
    | Throw e => (Throw e, db)
    | Ok u =>
        match int4_in ttl with
        | Throw e => (Throw e, db)
        | Ok ttl =>
            if existsb (fun r => String.eqb (rec_id r) u) (records db) then
              match varchar20 type with
              | Throw e => (Throw e, db)
              | Ok type =>
                  let rows :=
                    map (fun r =>
                           if String.eqb (rec_id r) u
                           then mkRecord (rec_id r) (LOWER name) type ttl value
                                         (rec_timestamp r)
                           else r)
                        (records db) in
                  (Ok (head (List.filter (fun r => String.eqb (rec_id r) u) rows)),
                   set_records rows db)
              end
            else (Ok None, db)
        end
    end.

(** The [WHERE] clause of [getRecordsByBase], on one row:
    [name = LOWER($1) OR name LIKE '%.' || LOWER($1)]. *)
Definition getRecordsByBase_where (base : string) (r : DnsRecord) : Result bool :=
  if String.eqb (rec_name r) (LOWER base) then Ok true
  else LIKE (chars (rec_name r)) ("%"%char :: dot :: lower (chars base)).

Definition getRecordsByBase (base : string) (db : DB) : Result (list DnsRecord) :=
  rows ← select_where (getRecordsByBase_where base) (records db);
  mret (order_by_timestamp rows).

(** *** Proxy rules *)

(** [pushProxyRule]: the id comes from [randomUUID()].  Neither the
    [INSERT] nor the scan of [getAllProxyRules], which has no [ORDER BY],
    fixes where later scans meet the new row: [place] is the number of
    stored rows they meet before it (all of them, if there are fewer).  The
    rows already stored keep their order. *)
Definition pushProxyRule (uuid ruleRegex addr : string) (place : nat)
  : IO DB ProxyRule :=
  fun db =>
    let row := mkRule uuid ruleRegex addr in
    if existsb (fun r => String.eqb (rule_id r) uuid) (proxy_rules db)
    then (Throw unique_violation, db)
    else (Ok row,
          mkDB (records db)
               (firstn place (proxy_rules db) ++ row :: skipn place (proxy_rules db))
               (certs db)).

(** [updateProxyRule]: as [updateRecord]; where a later scan meets the
    rewritten row is not fixed by the query, and no property below depends
    on it. *)
Definition updateProxyRule (id ruleRegex addr : string) : IO DB (option ProxyRule) :=
  fun db =>
    match uuid_in id with
    | Throw e => (Throw e, db)
    | Ok u =>
        let rows :=
          map (fun r =>
                 if String.eqb (rule_id r) u then mkRule (rule_id r) ruleRegex addr
                 else r)
              (proxy_rules db) in
        (Ok (head (List.filter (fun r => String.eqb (rule_id r) u) rows)),
         mkDB (records db) rows (certs db))
    end.

Definition deleteProxyRule (id : string) : IO DB unit :=
  fun db =>
    match uuid_in id with
    | Throw e => (Throw e, db)
    | Ok u =>
        (Ok tt, mkDB (records db)
                  (List.filter (fun r => negb (String.eqb (rule_id r) u)) (proxy_rules db))
                  (certs db))
    end.

(** *** Certificate pairs *)

(** The [WHERE] clause of [getCertsByBase], on one row:
    [(domain = $1 OR domain LIKE '%.' || $1) AND domain != '-.' || $1]. *)
Definition getCertsByBase_where (base : string) (c : CertPair) : Result bool :=
  m ← (if String.eqb (cert_domain c) base then Ok true
       else LIKE (chars (cert_domain c)) ("%"%char :: dot :: chars base));
  mret (m && negb (String.eqb (cert_domain c) ("-." ++ base))).

Definition getCertsByBase (base : string) (db : DB) : Result (list CertPair) :=
  select_where (getCertsByBase_where base) (certs db).

End Crud.

(** ** Vocabulary of the further properties *)

Module Vocabulary.
Import Text Sql Store Resolution.

(** A text in which [LIKE] reads every character as itself. *)
Definition like_literal (l : list ascii) : bool :=
  forallb (fun c => negb (Ascii.eqb c "%" || Ascii.eqb c "_" || Ascii.eqb c "\")) l.

Definition no_backslash (l : list ascii) : bool :=
  forallb (fun c => negb (Ascii.eqb c "\")) l.

Definition is_send (e : Event) : bool :=
  match e with Send _ => true | _ => false end.

Definition is_resolve (e : Event) : bool :=
  match e with Resolve _ _ => true | _ => false end.

Definition is_select_records (e : Event) : bool :=
  match e with SelectRecords _ => true | _ => false end.

Definition has_extension_ca (c : Certificate) : bool :=
  existsb (fun e => match e with basicConstraints true => true | _ => false end)
          (extensions c).

End Vocabulary.

(** ** Further sample data *)

Module MoreSamples.
Import Text Store Crud Issuance Samples.


Definition rec_mail : DnsRecord :=
  mkRecord "3f0c6a52-0000-4000-8000-000000000004"
    "mail.example.com" "A" 60 "10.0.0.7" 1700000003000.
Definition db_mail : DB := mkDB [rec_a; rec_wild; rec_mail] [rule_delegated] [].
Definition db_owned : DB := mkDB [rec_a; rec_wild; rec_owner] [] [].
Definition rec_a_updated : DnsRecord :=
  mkRecord "7b1e0000-0000-4000-8000-00000000000a"
    "b.example.com" "AAAA" 120 "::1" 1700000000005.


(** A record for a name that the second rule of [db_broken_rule] matches. *)
Definition rec_a_com : DnsRecord :=
  mkRecord "7b1e0000-0000-4000-8000-00000000000f"
    "a.com" "A" 60 "10.0.0.9" 1700000000011.
Definition db_broken_local : DB := mkDB [rec_a_com] [rule_broken; rule_any_a] [].

(** A draw whose id is the id of the stored root. *)
Definition draw_clash : Drawn :=
  mkDrawn "3f0c6a52-0000-4000-8000-000000000001" "pub4" "priv4" 1700000003000.
End MoreSamples.

(** ** JavaScript values and the class [Validator] *)

Module Validation.
Import Text Store.

(** *** Numbers *)

(** A number: a rational, as every finite double is, or one of the three
    special values. *)
Inductive Number : Type :=
  | Finite (q : Q)
  | PosInfinity
  | NegInfinity
  | NaN.

Definition of_Z (z : Z) : Number := Finite (inject_Z z).
Definition of_nat (n : nat) : Number := of_Z (Z.of_nat n).

(** [a === b] on numbers. *)
Definition num_eq (a b : Number) : bool :=
  match a, b with
  | Finite p, Finite q => Qeq_bool p q
  | PosInfinity, PosInfinity => true
  | NegInfinity, NegInfinity => true
  | _, _ => false
  end.

(** [a < b]; [b > a] is the same test. *)
Definition num_lt (a b : Number) : bool :=
  match a, b with
  | NaN, _ => false
  | _, NaN => false
  | Finite p, Finite q => negb (Qle_bool q p)
  | _, NegInfinity => false
  | NegInfinity, _ => true
  | PosInfinity, _ => false
  | Finite _, PosInfinity => true
  end.

Definition Math_floor (a : Number) : Number :=
  match a with
  | Finite q => Finite (inject_Z (Qfloor q))
  | _ => a
  end.

(** *** Values *)

(** What [JSON.parse] gives; of two properties of one key the first in
    the list counts. *)
#[warnings="-register-all"]
Inductive Json : Type :=
  | JNull
  | JBool (b : bool)
  | JNumber (n : Number)
  | JString (s : string)
  | JArray (items : list Json)
  | JObject (props : list (string * Json)).

(** A value met while a path is followed: the above, [undefined], and the
    objects and functions of the runtime, known by name only. *)
#[warnings="-register-all"]
Inductive Value : Type :=
  | VUndefined
  | VNull
  | VBool (b : bool)
  | VNumber (n : Number)
  | VString (s : string)
  | VArray (items : list Value)
  | VObject (props : list (string * Value))
  | VBuiltin (name : string).

Fixpoint of_json (j : Json) : Value :=
  match j with
  | JNull => VNull
  | JBool b => VBool b
  | JNumber n => VNumber n
  | JString s => VString s
  | JArray items => VArray (List.map of_json items)
  | JObject props => VObject (List.map (fun kv => (fst kv, of_json (snd kv))) props)
  end.

(** [req.body]: a parsed value, or [undefined]. *)
Definition of_parsed (body : option Json) : Value :=
  match body with
  | Some j => of_json j
  | None => VUndefined
  end.

(** Where a property that is not an own property is looked for. *)
Inductive Holder : Type :=
  | OfObject
  | OfArray
  | OfString
  | OfNumber
  | OfBoolean
  | OfBuiltin (name : string).

(** The runtime: the property a holder has under a key without it being
    an own property of the value at hand (for a runtime object, any of its
    properties), the own enumerable properties of a runtime object, and
    the pattern text [new RegExp(v)] reads from a value. *)
Class JsRuntime : Type := {
  inherited : Holder -> string -> option Value;
  enumerable_own : string -> list (string * Value);
  pattern_text : Value -> Result string;
  pattern_text_string : forall s, pattern_text (VString s) = Ok s
}.

Fixpoint lookup_prop {A} (key : string) (props : list (string * A)) : option A :=
  match props with
  | [] => None
  | (k, v) :: props' => if String.eqb k key then Some v else lookup_prop key props'
  end.

(** The key of index [i]. *)
Definition index_key (i : nat) : string := NilEmpty.string_of_uint (Nat.to_uint i).

Definition index_props {A} (items : list A) : list (string * A) :=
  combine (List.map index_key (seq 0 (length items))) items.

Definition char_values (s : string) : list Value :=
  List.map (fun c => VString (String c EmptyString)) (chars s).

(** The own properties of an array and of a string: the indices, then
    [length]. *)
Definition array_own (items : list Value) : list (string * Value) :=
  (index_props items ++ [("length", VNumber (of_nat (length items)))])%list.

Definition string_own (s : string) : list (string * Value) :=
  (index_props (char_values s)
   ++ [("length", VNumber (of_nat (String.length s)))])%list.

Definition found {A} (o : option A) : bool :=
  match o with Some _ => true | None => false end.

Section Runtime.
Context {runtime : JsRuntime}.

(** [key in v] *)
Definition has_property (key : string) (v : Value) : Result bool :=
  match v with
  | VObject props => Ok (found (lookup_prop key props) || found (inherited OfObject key))
  | VArray items =>
      Ok (found (lookup_prop key (array_own items)) || found (inherited OfArray key))
  | VBuiltin name => Ok (found (inherited (OfBuiltin name) key))
  | _ => Throw (TypeError "Cannot use 'in' operator to search for a key in a primitive")
  end.

Definition own_or_inherited (own : list (string * Value)) (h : Holder) (key : string)
  : Value :=
  match lookup_prop key own with
  | Some v => v
  | None =>
      match inherited h key with
      | Some v => v
      | None => VUndefined
      end
  end.

(** [v[key]] *)
Definition get_property (key : string) (v : Value) : Result Value :=
  match v with
  | VUndefined | VNull => Throw (TypeError "Cannot read properties of undefined or null")
  | VBool _ => Ok (own_or_inherited [] OfBoolean key)
  | VNumber _ => Ok (own_or_inherited [] OfNumber key)
  | VString s => Ok (own_or_inherited (string_own s) OfString key)
  | VArray items => Ok (own_or_inherited (array_own items) OfArray key)
  | VObject props => Ok (own_or_inherited props OfObject key)
  | VBuiltin name => Ok (own_or_inherited [] (OfBuiltin name) key)
  end.

(** [{ ...v }] *)
Definition spread (v : Value) : Value :=
  match v with
  | VObject props => VObject props
  | VArray items => VObject (index_props items)
  | VString s => VObject (index_props (char_values s))
  | VBuiltin name => VObject (enumerable_own name)
  | _ => VObject []
  end.

(** *** The class [Validator]; [body] is [this.body] *)

(** The loop of [getByPath]. *)
Fixpoint walk (parts : list string) (value : Value) : Result Value :=
  match parts with
  | [] => Ok value
  | part :: parts' =>
      present ← has_property part value;
      if present : bool then
        value' ← get_property part value;
        walk parts' value'
      else Ok VNull
  end.

(** [path.split(".")] *)
Definition split_path (path : string) : list string :=
  List.map string_of_list_ascii (split_on dot (chars path)).

Definition getByPath (body : Value) (path : string) : Result Value :=
  walk (split_path path) (spread body).

Definition is_null (v : Value) : bool :=
  match v with VNull => true | _ => false end.

Context {engine : RegExpEngine}.

(** The options of [str]: [str_optional] stands for a key [optional] of
    value [true], the others for the key being there, with its value. *)
Record StrOpts : Type := mkStrOpts {
  str_optional : bool;
  str_min : option Number;
  str_max : option Number;
  str_regex : option RegExp
}.

Definition str (body : Value) (path : string) (opts : StrOpts) : Result bool :=
  value ← getByPath body path;
  if str_optional opts && is_null value then Ok true
  else match value with
       | VString s =>
           let len := of_nat (String.length s) in
           if match str_min opts with Some m => num_lt len m | None => false end
           then Ok false
           else if match str_max opts with Some m => num_lt m len | None => false end
           then Ok false
           else if match str_regex opts with
                   | Some re => negb (String_match s re)
                   | None => false
                   end
           then Ok false
           else Ok true
       | _ => Ok false
       end.

(** The options of [int]; [int_float] stands for a key [float], whatever
    its value. *)
Record IntOpts : Type := mkIntOpts {
  int_optional : bool;
  int_min : option Number;
  int_max : option Number;
  int_float : bool
}.

Definition int (body : Value) (path : string) (opts : IntOpts) : Result bool :=
  value ← getByPath body path;
  if int_optional opts && is_null value then Ok true
  else match value with
       | VNumber n =>
           if negb (int_float opts) && negb (num_eq (Math_floor n) n) then Ok false
           else if match int_min opts with Some m => num_lt n m | None => false end
           then Ok false
           else if match int_max opts with Some m => num_lt m n | None => false end
           then Ok false
           else Ok true
       | _ => Ok false
       end.

(** [Validator.check] *)
Definition check (arr : list bool) : bool :=
  negb (existsb (fun x => negb x) arr).

End Runtime.

(** A runtime in which every object has the methods of [Object.prototype]
    and nothing else is inherited, and from which [new RegExp] takes
    strings only. *)
Definition object_methods : list string :=
  ["constructor"; "hasOwnProperty"; "isPrototypeOf"; "propertyIsEnumerable";
   "toLocaleString"; "toString"; "valueOf"].

Definition plain_inherited (h : Holder) (key : string) : option Value :=
  if existsb (String.eqb key) object_methods
  then Some (VBuiltin ("Object.prototype." ++ key))
  else None.

Definition plain_pattern_text (v : Value) : Result string :=
  match v with
  | VString s => Ok s
  | _ => Throw (TypeError "pattern is not a string")
  end.

#[global] Instance plain_runtime : JsRuntime := {
  inherited := plain_inherited;
  enumerable_own := fun _ => [];
  pattern_text := plain_pattern_text;
  pattern_text_string := fun s => eq_refl
}.

End Validation.

(** ** The HTTP interface

    [app] of [api.js].  A request is taken once express has routed it and,
    the key being checked, [express.json()] has read its body: [body] is
    the parsed value, or [None] where [req.body] is left undefined.  What
    express answers to a path that matches no route or to a body that does
    not parse, and what it does with what a handler throws, is outside: a
    handler that throws is a [Throw]. *)

Module Api.
Import Text Store Crud Validation.

(** *** Parameters of the queries *)

(** How a number reaches a column [INTEGER]: pg writes it in decimal, the
    server reads an integer of 32 bits.  From [1e21] on the text has an
    exponent. *)
Definition pg_int4 (n : Number) : Result Z :=
  match n with
  | Finite q =>
      if Qeq_bool (inject_Z (Qfloor q)) q
         && negb (Qle_bool (inject_Z (10 ^ 21)) (Qabs q))
      then int4_in (Qfloor q)
      else Throw (DatabaseError "invalid input syntax for type integer")
  | _ => Throw (DatabaseError "invalid input syntax for type integer")
  end.

(** The driver: a value of the request as the server reads it, as a text
    and as an integer.  A string is sent as it is, a number as above. *)
Class PgDriver : Type := {
  text_param : Value -> Result string;
  integer_param : Value -> Result Z;
  text_param_string : forall s, text_param (VString s) = Ok s;
  integer_param_number : forall n, integer_param (VNumber n) = pg_int4 n
}.

(** *** Requests and responses *)

Record Request : Type := mkRequest {
  authorization : option string;
  query : list (string * Json);
  body : option Json
}.

Definition req_body (req : Request) : Value := of_parsed (body req).
Definition req_query (req : Request) : Value := of_json (JObject (query req)).

Inductive Payload : Type :=
  | ErrorObj (error : string)
  | StatusObj (status : string)
  | OneRecord (record : DnsRecord)
  | Records (records : list DnsRecord)
  | OneRule (rule : ProxyRule)
  | Rules (rules : list ProxyRule).

Record Response : Type := mkResponse {
  status : Z;
  sent : Payload
}.

Definition makeError (msg : string) : Payload := ErrorObj msg.

Definition errors_unauthorized : Payload := makeError "Unauthorized!".
Definition errors_badRequest : Payload := makeError "Bad request!".
Definition errors_invalidType : Payload := makeError "Invalid type!".
Definition errors_invalidID : Payload := makeError "Invalid ID!".
Definition errors_recordNotFound : Payload := makeError "Record not found!".
Definition errors_invalidRegex : Payload := makeError "Invalid regex!".
Definition errors_ruleNotFound : Payload := makeError "Rule not found!".

(** The routes, each with its path parameter. *)
Inductive Route : Type :=
  | GET_resolve (domain : string)
  | GET_owner (owner : string)
  | GET_records
  | POST_records
  | GET_records_id (id : string)
  | DELETE_records_id (id : string)
  | DELETE_records
  | PUT_records_id (id : string)
  | GET_rules
  | POST_rules
  | PUT_rules_id (id : string)
  | DELETE_rules_id (id : string).

(** *** The [Authorization] header *)

(** [\s], on the characters a header can hold. *)
Definition is_space (c : ascii) : bool :=
  let n := nat_of_ascii c in
  (Nat.leb 9 n && Nat.leb n 13) || Nat.eqb n 32 || Nat.eqb n 160.

Fixpoint drop_spaces (s : string) : string :=
  match s with
  | String c s' => if is_space c then drop_spaces s' else s
  | EmptyString => s
  end.

Fixpoint strip_prefix (p s : string) : option string :=
  match p, s with
  | EmptyString, _ => Some s
  | String a p', String b s' => if Ascii.eqb a b then strip_prefix p' s' else None
  | String _ _, EmptyString => None
  end.

(** [header.replace(/^Bearer\s*/, "")] *)
Definition strip_bearer (header : string) : string :=
  match strip_prefix "Bearer" header with
  | Some rest => drop_spaces rest
  | None => header
  end.

(** The environment of the interface: [process.env.ADMIN_KEY], which may
    be unset, and the constant [REGEX_UUID]. *)
Class ApiEnv {engine : RegExpEngine} : Type := {
  ADMIN_KEY : option string;
  REGEX_UUID : RegExp
}.

(** [a || b] *)
Definition or_else (a b : Result bool) : Result bool :=
  x ← a; if x : bool then Ok true else b.

(** [!a] *)
Definition not_ (a : Result bool) : Result bool :=
  x ← a; mret (negb x).

(** [list.includes(v)] *)
Definition includes (xs : list string) (v : Value) : bool :=
  match v with
  | VString s => existsb (String.eqb s) xs
  | _ => false
  end.

(** A query that reads. *)
Definition reading {A} (q : DB -> Result A) : IO DB A := fun db => (q db, db).

Section Routes.
Context {runtime : JsRuntime} {engine : RegExpEngine} {env : ApiEnv} {driver : PgDriver}.

(** [req.headers.authorization?.replace?.(/^Bearer\s*/, "")] is
    [process.env.ADMIN_KEY]. *)
Definition authorized (req : Request) : bool :=
  match option_map strip_bearer (authorization req), ADMIN_KEY with
  | None, None => true
  | Some given, Some key => String.eqb given key
  | _, _ => false
  end.

(** What is left to do with a request; a middleware is given the request
    and what follows it. *)
Definition Handler : Type := IO DB Response.

(** [return res.status(code).send(payload)] *)
Definition send (code : Z) (payload : Payload) : Handler :=
  mret (mkResponse code payload).

Definition auth (req : Request) (next : Handler) : Handler :=
  if negb (authorized req) then send 401 errors_unauthorized
  else next.

Definition min1 : StrOpts := mkStrOpts false (Some (of_Z 1)) None None.

Definition validateRecordBase (req : Request) (next : Handler) : Handler :=
  let valid := req_body req in
  bad ← lift
    (or_else (not_ (str valid "name" min1))
    (or_else (not_ (str valid "type"
                      (mkStrOpts false (Some (of_Z 1)) (Some (of_Z 20)) None)))
    (or_else (not_ (int valid "ttl" (mkIntOpts false (Some (of_Z 1)) None false)))
             (not_ (str valid "value" min1)))));
  if bad : bool then send 400 errors_badRequest
  else
    type ← lift (get_property "type" (req_body req));
    if negb (includes recordTypes type) then send 400 errors_invalidType
    else next.

(** [validateProxyRule]: whatever the [try] block throws is answered with
    [invalidRegex]. *)
Definition validateProxyRule (req : Request) (next : Handler) : Handler :=
  let valid := req_body req in
  bad ← lift (or_else (not_ (str valid "addr" min1))
                      (not_ (str valid "rule" min1)));
  if bad : bool then send 400 errors_badRequest
  else
    match (rule ← get_property "rule" (req_body req);
           source ← pattern_text rule;
           new_RegExp source "") with
    | Throw _ => send 400 errors_invalidRegex
    | Ok _ => next
    end.

Definition validateID (id : string) (next : Handler) : Handler :=
  if negb (String_match id REGEX_UUID) then send 400 errors_invalidID
  else next.

(** The calls of the store with values of the request.  When the server
    refuses more than one parameter of a query, which refusal it reports
    is not modelled. *)
Definition call_pushRecord (uuid : string) (now : Z) (name type ttl value : Value)
  : IO DB DnsRecord :=
  name ← lift (text_param name);
  type ← lift (text_param type);
  ttl ← lift (integer_param ttl);
  value ← lift (text_param value);
  pushRecord uuid now name type ttl value.

Definition call_updateRecord (id : string) (name type ttl value : Value)
  : IO DB (option DnsRecord) :=
  name ← lift (text_param name);
  type ← lift (text_param type);
  ttl ← lift (integer_param ttl);
  value ← lift (text_param value);
  updateRecord id name type ttl value.

Definition call_getRecordsByBase (base : Value) : IO DB (list DnsRecord) :=
  base ← lift (text_param base);
  reading (getRecordsByBase base).

Definition call_deleteRecordByName (name : Value) : IO DB unit :=
  name ← lift (text_param name);
  deleteRecordByName name.

Definition call_pushProxyRule (uuid : string) (place : nat) (ruleRegex addr : Value)
  : IO DB ProxyRule :=
  ruleRegex ← lift (text_param ruleRegex);
  addr ← lift (text_param addr);
  pushProxyRule uuid ruleRegex addr place.

Definition call_updateProxyRule (id : string) (ruleRegex addr : Value)
  : IO DB (option ProxyRule) :=
  ruleRegex ← lift (text_param ruleRegex);
  addr ← lift (text_param addr);
  updateProxyRule id ruleRegex addr.

(** [req.body.key] *)
Definition body_field (req : Request) (key : string) : IO DB Value :=
  lift (get_property key (req_body req)).

(** The handlers, after their middlewares; [uuid] is what [randomUUID()]
    gives during the request, [now] what [Date.now()] gives, and [place]
    where the table puts a row the request adds to [proxy_rules]. *)
Definition route (r : Route) (uuid : string) (now : Z) (place : nat) (req : Request)
  : Handler :=
  match r with
  | GET_resolve domain =>
      records ← reading (getRecords domain);
      send 200 (Records records)
  | GET_owner owner =>
      records ← reading (findByOwner owner);
      send 200 (Records records)
  | GET_records =>
      ok ← lift (str (req_query req) "base" min1);
      if negb ok then send 400 errors_badRequest
      else
        base ← lift (get_property "base" (req_query req));
        records ← call_getRecordsByBase base;
        if Nat.eqb (length records) 0 then send 404 errors_recordNotFound
        else send 200 (Records records)
  | POST_records =>
      validateRecordBase req (
        name ← body_field req "name";
        type ← body_field req "type";
        ttl ← body_field req "ttl";
        value ← body_field req "value";
        record ← call_pushRecord uuid now name type ttl value;
        send 201 (OneRecord record))
  | GET_records_id id =>
      validateID id (
        record ← reading (getRecordByID id);
        match record with
        | None => send 404 errors_recordNotFound
        | Some record => send 200 (OneRecord record)
        end)
  | DELETE_records_id id =>
      validateID id (
        deleteRecordByID id;;
        send 200 (StatusObj "OK"))
  | DELETE_records =>
      ok ← lift (str (req_query req) "name" min1);
      if negb ok then send 400 errors_badRequest
      else
        name ← lift (get_property "name" (req_query req));
        call_deleteRecordByName name;;
        send 200 (StatusObj "OK")
  | PUT_records_id id =>
      validateRecordBase req (validateID id (
        name ← body_field req "name";
        type ← body_field req "type";
        ttl ← body_field req "ttl";
        value ← body_field req "value";
        record ← call_updateRecord id name type ttl value;
        match record with
        | None => send 404 errors_recordNotFound
        | Some record => send 200 (OneRecord record)
        end))
  | GET_rules =>
      rules ← reading (fun db => Ok (getAllProxyRules db));
      send 200 (Rules rules)
  | POST_rules =>
      validateProxyRule req (
        rule ← body_field req "rule";
        addr ← body_field req "addr";
        rule ← call_pushProxyRule uuid place rule addr;
        send 200 (OneRule rule))
  | PUT_rules_id id =>
      validateProxyRule req (validateID id (
        rule ← body_field req "rule";
        addr ← body_field req "addr";
        rule ← call_updateProxyRule id rule addr;
        match rule with
        | None => send 404 errors_ruleNotFound
        | Some rule => send 200 (OneRule rule)
        end))
  | DELETE_rules_id id =>
      validateID id (
        deleteProxyRule id;;
        send 200 (StatusObj "OK"))
  end.

(** [app]: the key is checked first, on every route. *)
Definition app (r : Route) (uuid : string) (now : Z) (place : nat) (req : Request)
  : Handler :=
  auth req (route r uuid now place req).

(** The requests one after the other, whatever each one gave. *)
Record Call : Type := mkCall {
  call_route : Route;
  call_uuid : string;
  call_now : Z;
  call_place : nat;
  call_req : Request
}.

Definition serve (db : DB) (c : Call) : DB :=
  snd (app (call_route c) (call_uuid c) (call_now c) (call_place c) (call_req c) db).

Definition serve_all (calls : list Call) (db : DB) : DB :=
  fold_left serve calls db.

End Routes.

(** A driver that sends strings and numbers and refuses the rest. *)
Definition strict_text_param (v : Value) : Result string :=
  match v with
  | VString s => Ok s
  | _ => Throw (TypeError "parameter is not a string")
  end.

Definition strict_integer_param (v : Value) : Result Z :=
  match v with
  | VNumber n => pg_int4 n
  | _ => Throw (TypeError "parameter is not a number")
  end.

#[global] Instance strict_driver : PgDriver := {
  text_param := strict_text_param;
  integer_param := strict_integer_param;
  text_param_string := fun s => eq_refl;
  integer_param_number := fun n => eq_refl
}.

End Api.

(** ** Vocabulary of the properties of the interface *)

Module ApiVocabulary.
Import Text Store Crud Validation Api.

(** A value in which [in] cannot search, [null] apart. *)
Definition scalar (v : Value) : bool :=
  match v with
  | VUndefined | VBool _ | VNumber _ | VString _ => true
  | _ => false
  end.

Definition spaces (s : string) : bool := forallb is_space (chars s).

Definition leading_space (s : string) : bool :=
  match s with
  | String c _ => is_space c
  | EmptyString => false
  end.

Definition is_digit (c : ascii) : bool :=
  let n := nat_of_ascii c in Nat.leb 48 n && Nat.leb n 57.

(** A key that is no index: its first character is no digit. *)
Definition word (key : string) : bool :=
  match key with
  | String c _ => negb (is_digit c)
  | EmptyString => false
  end.

(** The keys the routes read from a body or a query. *)
Definition request_keys : list string :=
  ["name"; "type"; "ttl"; "value"; "addr"; "rule"; "base"].

(** No object inherits a property under one of these keys. *)
Definition clean_prototype {runtime : JsRuntime} : Prop :=
  forall key, In key request_keys -> inherited OfObject key = None.

(** The property of a parsed value under a key, the value being an
    object; of the body of a request. *)
Definition field_of (parsed : option Json) (key : string) : option Json :=
  match parsed with
  | Some (JObject props) => lookup_prop key props
  | _ => None
  end.

Definition field (req : Request) (key : string) : option Json :=
  field_of (body req) key.

(** A number [Math.floor] leaves as it is. *)
Definition whole (n : Number) : bool := num_eq (Math_floor n) n.

Definition wellformed (r : DnsRecord) : Prop :=
  In (rec_type r) recordTypes
  /\ 1 <= rec_ttl r <= 2147483647
  /\ rec_name r = LOWER (rec_name r)
  /\ rec_name r <> ""
  /\ rec_value r <> "".

Section Engine.
Context {engine : RegExpEngine}.

Definition compilable (r : ProxyRule) : Prop :=
  is_ok (new_RegExp (rule r) "") = true.

(** A source that compiles without flags compiles with the flag [i]. *)
Definition flag_i_compiles : Prop :=
  forall source, is_ok (new_RegExp source "") = true ->
                 is_ok (new_RegExp source "i") = true.

End Engine.

(** A body as [validateRecordBase] wants it. *)
Definition record_fields (req : Request) (name type : string) (ttl : Number)
    (value : string) : Prop :=
  field req "name" = Some (JString name) /\ name <> ""
  /\ field req "type" = Some (JString type) /\ In type recordTypes
  /\ field req "ttl" = Some (JNumber ttl)
  /\ whole ttl = true /\ num_lt ttl (of_Z 1) = false
  /\ field req "value" = Some (JString value) /\ value <> "".

(** A body as [validateProxyRule] wants it. *)
Definition rule_fields {engine : RegExpEngine} (req : Request)
    (source address : string) : Prop :=
  field req "rule" = Some (JString source) /\ source <> ""
  /\ field req "addr" = Some (JString address) /\ address <> ""
  /\ is_ok (new_RegExp source "") = true.

(** The routes whose handler calls a query that writes to [records], and
    to [proxy_rules]. *)
Definition writes_records (r : Route) : bool :=
  match r with
  | POST_records | PUT_records_id _ | DELETE_records_id _ | DELETE_records => true
  | _ => false
  end.

Definition writes_rules (r : Route) : bool :=
  match r with
  | POST_rules | PUT_rules_id _ | DELETE_rules_id _ => true
  | _ => false
  end.

(** A response that reports a change. *)
Definition done_status (r : Result Response) : Prop :=
  exists resp, r = Ok resp /\ (status resp = 200 \/ status resp = 201).

End ApiVocabulary.

(** ** Tactics for the handlers *)

Module ApiTactics.
Import Text Store Crud Validation Api.

(** Unfolds a handler down to the calls of the store. *)
Ltac run_io :=
  unfold route, validateRecordBase, validateProxyRule, validateID,
    call_pushRecord, call_updateRecord, call_getRecordsByBase,
    call_deleteRecordByName, call_pushProxyRule, call_updateProxyRule,
    body_field, send, reading, lift;
  unfold mbind, mret, IO_bind, IO_ret.

(** Unfolds the queries that write. *)
Ltac run_store :=
  unfold pushRecord, updateRecord, deleteRecordByID, deleteRecordByName,
    pushProxyRule, updateProxyRule, deleteProxyRule.

(** The innermost scrutinee first. *)
Ltac case_scrutinee :=
  first
    [ match goal with
      | |- context [match ?x with _ => _ end] =>
          lazymatch x with
          | context [match _ with _ => _ end] => fail
          | _ => destruct x eqn:?
          end
      end
    | match goal with
      | |- context [match ?x with _ => _ end] => destruct x eqn:?
      end ].

(** Closes the case of a validation that answers 400. *)
Ltac bad_request :=
  right; eexists; unfold send, mret, IO_ret; reflexivity.

End ApiTactics.

(** ** Sample requests *)

Module ApiSamples.
Import Text Store Crud Validation Api Samples MoreSamples.

(** A pattern of the shape of an id. *)
Definition uuid_shape : Fragment.Regex :=
  match Fragment.new_RegExp "^........-....-....-....-............$" "" with
  | Ok re => re
  | Throw _ => Fragment.mkRegex [] false
  end.

#[global] Instance env_secret : @ApiEnv Fragment.engine := {
  ADMIN_KEY := Some "secret";
  REGEX_UUID := uuid_shape
}.

Definition env_unset : @ApiEnv Fragment.engine := {|
  ADMIN_KEY := None;
  REGEX_UUID := uuid_shape
|}.

Definition record_body (ttl : Number) : Json :=
  JObject [("name", JString "WWW.Example.com"); ("type", JString "A");
           ("ttl", JNumber ttl); ("value", JString "10.0.0.1")].

Definition rule_body (source : string) : Json :=
  JObject [("rule", JString source); ("addr", JString "9.9.9.9")].

Definition with_key (b : option Json) : Request :=
  mkRequest (Some "Bearer secret") [] b.

Definition id_a : string := "7b1e0000-0000-4000-8000-00000000000a".

Definition rec_posted : DnsRecord :=
  mkRecord "7b1e0000-0000-4000-8000-0000000000ff" "www.example.com" "A" 300
           "10.0.0.1" 1700000005000.

Definition post_a : Call :=
  mkCall POST_records "7b1e0000-0000-4000-8000-0000000000ff" 1700000005000 0
         (with_key (Some (record_body (of_Z 300)))).

Definition post_rule : Call :=
  mkCall POST_rules "7b1e0000-0000-4000-8000-0000000000fe" 1700000005001 0
         (with_key (Some (rule_body "^.*\.lan$"))).

Definition post_broken_rule : Call :=
  mkCall POST_rules "7b1e0000-0000-4000-8000-0000000000fd" 1700000005002 1
         (with_key (Some (rule_body "*.lan"))).

Definition put_a : Call :=
  mkCall (PUT_records_id id_a) "" 1700000005003 0
         (with_key (Some (record_body (of_Z 120)))).

Definition delete_a : Call :=
  mkCall (DELETE_records_id id_a) "" 1700000005004 0 (with_key None).

Definition unauthorized_delete : Call :=
  mkCall (DELETE_records_id id_a) "" 1700000005005 0 (mkRequest None [] None).

End ApiSamples.

(** * Properties *)

(** ** The DNS callback *)

Module ResolutionFacts.
Import Text Sql Store Resolution Wording.

Section WithEnvironment.
Context {engine : RegExpEngine} {dns2 : Dns2}.

Lemma forward_run dns name res tr :
  forward dns name res tr
  = (fst (forwarded dns name res), (tr ++ snd (forwarded dns name res))%list).
Proof.
  unfold forward, forwarded, mbind, IO_bind, emit, lift.
  destruct (UDPClient dns name) as [r|e]; simpl.
  - by rewrite <- app_assoc.
  - reflexivity.
Qed.

Lemma handle_proxy db req q qs toAsk tr :
  questions req = q :: qs ->
  getProxyDNS (q_name q) db = Ok (Some toAsk) ->
  handle db req tr
  = (fst (forwarded toAsk (q_name q) (createResponseFromRequest req)),
     (tr ++ SelectProxyRules
         :: snd (forwarded toAsk (q_name q) (createResponseFromRequest req)))%list).
Proof.
  intros Hq Hp. unfold handle. rewrite Hq.
  unfold mbind at 1. unfold IO_bind at 1. unfold emit at 1.
  unfold mbind at 1. unfold IO_bind at 1. unfold lift at 1.
  rewrite Hp. rewrite forward_run. simpl.
  by rewrite <- app_assoc.
Qed.

Lemma handle_local db req q qs records tr :
  questions req = q :: qs ->
  getProxyDNS (q_name q) db = Ok None ->
  getRecords (q_name q) db = Ok records ->
  records <> [] ->
  handle db req tr
  = (Ok tt,
     (tr ++ [SelectProxyRules; SelectRecords (q_name q);
             Send (set_answers
                     (answers (createResponseFromRequest req)
                      ++ map answer records)
                     (createResponseFromRequest req))])%list).
Proof.
  intros Hq Hp Hr Hne. unfold handle. rewrite Hq.
  unfold mbind, IO_bind, emit, lift. rewrite Hp, Hr.
  destruct records as [|r rs]; [done|]. simpl.
  by rewrite <- !app_assoc.
Qed.

Lemma handle_default db req q qs tr :
  questions req = q :: qs ->
  getProxyDNS (q_name q) db = Ok None ->
  getRecords (q_name q) db = Ok [] ->
  handle db req tr
  = (fst (forwarded DEFAULT_SERVER (q_name q) (createResponseFromRequest req)),
     (tr ++ SelectProxyRules :: SelectRecords (q_name q)
         :: snd (forwarded DEFAULT_SERVER (q_name q)
                   (createResponseFromRequest req)))%list).
Proof.
  intros Hq Hp Hr. unfold handle. rewrite Hq.
  unfold mbind at 1. unfold IO_bind at 1. unfold emit at 1.
  unfold mbind at 1. unfold IO_bind at 1. unfold lift at 1.
  rewrite Hp.
  unfold mbind at 1. unfold IO_bind at 1. unfold emit at 1.
  unfold mbind at 1. unfold IO_bind at 1. unfold lift at 1.
  rewrite Hr. simpl. rewrite forward_run. simpl.
  by rewrite <- !app_assoc.
Qed.

(** A rule whose pattern does not compile, met before any match, fails
    the whole query: nothing is sent. *)
Lemma handle_rule_error db req q qs e tr :
  questions req = q :: qs ->
  getProxyDNS (q_name q) db = Throw e ->
  handle db req tr = (Throw e, (tr ++ [SelectProxyRules])%list).
Proof.
  intros Hq Hp. unfold handle. rewrite Hq.
  unfold mbind, IO_bind, emit, lift. by rewrite Hp.
Qed.

(** *** The rows [getRecords] returns *)

Lemma select_where_filter {A} (cond : A -> Result bool) rows l :
  select_where cond rows = Ok l ->
  l = List.filter (fun r => holds (cond r)) rows.
Proof.
  revert l. induction rows as [|r rows IH]; intros l H; simpl in *.
  - by inversion H.
  - unfold mbind, Result_bind in H.
    destruct (cond r) as [b|e]; [|discriminate].
    destruct (select_where cond rows) as [rest|e]; [|discriminate].
    unfold mret, Result_ret in H. inversion H; subst.
    rewrite <- (IH rest eq_refl). by destruct b.
Qed.

Lemma select_where_total {A} (cond : A -> Result bool) rows :
  Forall (fun r => is_ok (cond r) = true) rows ->
  exists l, select_where cond rows = Ok l.
Proof.
  induction 1 as [|r rows Hr _ [rest IH]]; simpl.
  - by eexists.
  - unfold mbind, Result_bind. destruct (cond r) as [b|e]; [|discriminate].
    rewrite IH. by eexists.
Qed.

Lemma getRecords_rows name db rows :
  getRecords name db = Ok rows ->
  rows = order_by_timestamp
           (List.filter (fun r => holds (getRecords_where name r)) (records db)).
Proof.
  unfold getRecords, mbind, Result_bind. intros H.
  destruct (select_where _ _) as [l|e] eqn:Hs; [|discriminate].
  apply select_where_filter in Hs. subst l. by inversion H.
Qed.

Lemma getRecords_sorted name db rows :
  getRecords name db = Ok rows ->
  StronglySorted timestamp_le rows /\
  rows ≡ₚ List.filter (fun r => holds (getRecords_where name r)) (records db).
Proof.
  intros H. rewrite (getRecords_rows _ _ _ H). unfold order_by_timestamp. split.
  - apply StronglySorted_merge_sort; apply _.
  - apply merge_sort_Permutation.
Qed.

(** *** The object built for one record *)

Lemma answer_common r :
  answer r !! "name" = None /\
  answer r !! "mame" = Some (JsString (rec_name r)) /\
  answer r !! "ttl" = Some (JsNumber (rec_ttl r)) /\
  answer r !! "class" = Some Packet_CLASS_IN /\
  answer r !! "type" = Some (Packet_TYPE (rec_type r)).
Proof.
  unfold answer, Object_assign.
  destruct (String.eqb (rec_type r) "CNAME");
    [|destruct (String.eqb (rec_type r) "TXT")];
    repeat split; reflexivity.
Qed.

Lemma answer_payload r :
  (rec_type r = "CNAME" ->
     answer r !! "domain" = Some (JsString (rec_value r)) /\
     answer r !! "data" = None /\ answer r !! "address" = None) /\
  (rec_type r = "TXT" ->
     answer r !! "data" = Some (JsString (rec_value r)) /\
     answer r !! "domain" = None /\ answer r !! "address" = None) /\
  (rec_type r = "A" \/ rec_type r = "AAAA" ->
     answer r !! "address" = Some (JsString (rec_value r)) /\
     answer r !! "domain" = None /\ answer r !! "data" = None).
Proof.
  unfold answer, Object_assign.
  split; [|split]; intros H; [| |destruct H as [H|H]];
    rewrite H; repeat split; reflexivity.
Qed.

(** C8. A query answered from the record store gets one answer per
    matching record, in the order of the records: a CNAME answer
    carries the value as [domain], a TXT answer as [data], an A or AAAA
    answer as [address], unchanged; each answer has its record's ttl;
    the records, hence the answers, are in ascending timestamp order. *)
Theorem local_answers_one_per_record db req q qs records tr :
  questions req = q :: qs ->
  getProxyDNS (q_name q) db = Ok None ->
  getRecords (q_name q) db = Ok records ->
  records <> [] ->
  exists built,
    handle db req tr
    = (Ok tt,
       (tr ++ [SelectProxyRules; SelectRecords (q_name q);
               Send (set_answers
                       (answers (createResponseFromRequest req) ++ built)
                       (createResponseFromRequest req))])%list) /\
    records ≡ₚ List.filter (fun r => holds (getRecords_where (q_name q) r))
                           (Store.records db) /\
    StronglySorted timestamp_le records /\
    Forall2 (fun a r =>
               a !! "ttl" = Some (JsNumber (rec_ttl r)) /\
               (rec_type r = "CNAME" ->
                  a !! "domain" = Some (JsString (rec_value r))) /\
               (rec_type r = "TXT" ->
                  a !! "data" = Some (JsString (rec_value r))) /\
               (rec_type r = "A" \/ rec_type r = "AAAA" ->
                  a !! "address" = Some (JsString (rec_value r))))
            built records.
Proof.
  intros Hq Hp Hr Hne. exists (map answer records).
  destruct (getRecords_sorted _ _ _ Hr) as [Hsorted Hperm].
  split; [by eapply handle_local|]. split; [done|]. split; [done|].
  apply Forall2_fmap_l, Forall_Forall2_diag, Forall_forall. intros r _.
  destruct (answer_common r) as (_ & _ & Httl & _).
  destruct (answer_payload r) as (Hc & Ht & Ha).
  split; [done|]. split; [|split]; intros H.
  - by destruct (Hc H).
  - by destruct (Ht H).
  - by destruct (Ha H).
Qed.

(** C10. Every answer built from the record store lacks the key [name]:
    the record's name sits under the key [mame]. *)
Theorem local_answers_lack_name db req q qs records tr :
  questions req = q :: qs ->
  getProxyDNS (q_name q) db = Ok None ->
  getRecords (q_name q) db = Ok records ->
  records <> [] ->
  exists built,
    handle db req tr
    = (Ok tt,
       (tr ++ [SelectProxyRules; SelectRecords (q_name q);
               Send (set_answers
                       (answers (createResponseFromRequest req) ++ built)
                       (createResponseFromRequest req))])%list) /\
    Forall2 (fun a r =>
               a !! "name" = None /\
               a !! "mame" = Some (JsString (rec_name r)))
            built records.
Proof.
  intros Hq Hp Hr Hne. exists (map answer records).
  split; [by eapply handle_local|].
  apply Forall2_fmap_l, Forall_Forall2_diag, Forall_forall. intros r _.
  by destruct (answer_common r) as (Hn & Hm & _).
Qed.

End WithEnvironment.

Import Samples.

Lemma local_answers_one_per_record_witness :
  exists built,
    handle db_records (query "a.example.com") []
    = (Ok tt,
       [SelectProxyRules; SelectRecords "a.example.com";
        Send (mkPacket 7 [mkQuestion "a.example.com" 1 1] built)]) /\
    Forall2 (fun a r => a !! "ttl" = Some (JsNumber (rec_ttl r)))
            built [rec_wild; rec_a].
Proof.
  destruct (local_answers_one_per_record db_records (query "a.example.com")
              (mkQuestion "a.example.com" 1 1) [] [rec_wild; rec_a] [])
    as (built & Hrun & _ & _ & Hall).
  - reflexivity.
  - vm_compute. reflexivity.
  - vm_compute. reflexivity.
  - discriminate.
  - exists built. split; [exact Hrun|].
    eapply Forall2_impl; [exact Hall|]. intros a r H. apply H.
Defined.

Lemma local_answers_lack_name_witness :
  exists built,
    handle db_records (query "a.example.com") []
    = (Ok tt,
       [SelectProxyRules; SelectRecords "a.example.com";
        Send (mkPacket 7 [mkQuestion "a.example.com" 1 1] built)]) /\
    Forall2 (fun a r => a !! "name" = None /\
                        a !! "mame" = Some (JsString (rec_name r)))
            built [rec_wild; rec_a].
Proof.
  destruct (local_answers_lack_name db_records (query "a.example.com")
              (mkQuestion "a.example.com" 1 1) [] [rec_wild; rec_a] [])
    as (built & Hrun & Hall).
  - reflexivity.
  - vm_compute. reflexivity.
  - vm_compute. reflexivity.
  - discriminate.
  - exists built. split; [exact Hrun | exact Hall].
Defined.

End ResolutionFacts.


(** ** The proxy lookup *)

Module ProxyFacts.
Import Text Store Resolution Wording.

Section WithEngine.
Context {engine : RegExpEngine}.

Lemma scan_rules_cons r rules domain :
  scan_rules (r :: rules) domain
  = match rule_test domain r with
    | Ok true => Ok (Some (addr r))
    | Ok false => scan_rules rules domain
    | Throw e => Throw e
    end.
Proof.
  simpl. unfold rule_test, mbind, Result_bind, mret, Result_ret.
  destruct (new_RegExp (rule r) "i") as [re|e]; [|reflexivity].
  by destruct (String_match domain re).
Qed.

Lemma scan_rules_skip pre rest domain :
  Forall (fun r => rule_test domain r = Ok false) pre ->
  scan_rules (pre ++ rest) domain = scan_rules rest domain.
Proof.
  induction 1 as [|r pre Hr _ IH]; [reflexivity|].
  rewrite <- app_comm_cons, scan_rules_cons, Hr. exact IH.
Qed.

(** What each outcome of the scan says about the rules. *)
Lemma scan_rules_outcome rules domain :
  match scan_rules rules domain with
  | Ok (Some a) =>
      exists pre r post,
        rules = (pre ++ r :: post)%list /\
        Forall (fun r' => rule_test domain r' = Ok false) pre /\
        rule_test domain r = Ok true /\ addr r = a
  | Ok None => Forall (fun r' => rule_test domain r' = Ok false) rules
  | Throw e =>
      exists pre r post,
        rules = (pre ++ r :: post)%list /\
        Forall (fun r' => rule_test domain r' = Ok false) pre /\
        rule_test domain r = Throw e
  end.
Proof.
  induction rules as [|r rules IH]; [by constructor|].
  rewrite scan_rules_cons.
  destruct (rule_test domain r) as [[|]|e] eqn:Hr.
  - by exists [], r, rules.
  - destruct (scan_rules rules domain) as [[a|]|e].
    + destruct IH as (pre & r' & post & -> & Hpre & Hm & Ha).
      exists (r :: pre), r', post. by repeat split; [constructor|..].
    + by constructor.
    + destruct IH as (pre & r' & post & -> & Hpre & Hm).
      exists (r :: pre), r', post. by repeat split; [constructor|..].
  - by exists [], r, rules.
Qed.

(** C4, as the code has it.  [getProxyDNS] returns the address of the first
    rule, in the order the rules are read, whose pattern compiled with flag
    [i] matches the domain, and [null] when every rule compiles and none
    matches; a rule whose pattern fails to compile, met before any match,
    makes the lookup throw that error. *)
Theorem getProxyDNS_first_match_or_error domain db :
  (forall a,
      getProxyDNS domain db = Ok (Some a) <->
      exists pre r post,
        proxy_rules db = (pre ++ r :: post)%list /\
        Forall (fun r' => rule_test domain r' = Ok false) pre /\
        rule_test domain r = Ok true /\ addr r = a) /\
  (getProxyDNS domain db = Ok None <->
   Forall (fun r => rule_test domain r = Ok false) (proxy_rules db)) /\
  (forall e,
      getProxyDNS domain db = Throw e <->
      exists pre r post,
        proxy_rules db = (pre ++ r :: post)%list /\
        Forall (fun r' => rule_test domain r' = Ok false) pre /\
        rule_test domain r = Throw e).
Proof.
  unfold getProxyDNS, getAllProxyRules.
  pose proof (scan_rules_outcome (proxy_rules db) domain) as Hout.
  split; [|split].
  - intros a. split.
    + intros H. rewrite H in Hout. exact Hout.
    + intros (pre & r & post & -> & Hpre & Hm & <-).
      by rewrite scan_rules_skip, scan_rules_cons, Hm.
  - split.
    + intros H. rewrite H in Hout. exact Hout.
    + intros H. rewrite <- (app_nil_r (proxy_rules db)).
      by rewrite scan_rules_skip.
  - intros e. split.
    + intros H. rewrite H in Hout. exact Hout.
    + intros (pre & r & post & -> & Hpre & Hm).
      by rewrite scan_rules_skip, scan_rules_cons, Hm.
Qed.

End WithEngine.

Import Samples.

(** C4, as the specification words it, fails: the first stored pattern does
    not compile, the second matches, and the lookup throws instead of
    passing on to it. *)
Lemma getProxyDNS_pattern_error_is_fatal :
  rule_test "a.com" rule_broken = Throw (SyntaxError "Nothing to repeat") /\
  rule_test "a.com" rule_any_a = Ok true /\
  getProxyDNS "a.com" db_broken_rule = Throw (SyntaxError "Nothing to repeat") /\
  getProxyDNS "a.com" db_broken_rule <> Ok (Some "8.8.8.8").
Proof. repeat split; [vm_compute; reflexivity..|discriminate]. Qed.

(** ... and the callback lets the error through: nothing is sent. *)
Example handle_pattern_error_is_fatal :
  handle db_broken_rule (query "a.com") []
  = (Throw (SyntaxError "Nothing to repeat"), [SelectProxyRules]).
Proof. vm_compute. reflexivity. Qed.

(** The scenario of the specification, and the fold of letter case. *)
Example getProxyDNS_delegated :
  getProxyDNS "host.delegated.test" db_records = Ok (Some "9.9.9.9") /\
  getProxyDNS "HOST.Delegated.Test" db_records = Ok (Some "9.9.9.9") /\
  getProxyDNS "a.example.com" db_records = Ok None.
Proof. repeat split; vm_compute; reflexivity. Qed.

End ProxyFacts.


(** ** The order of resolution *)

Module OrderFacts.
Import Text Store Resolution Wording.

Section WithEnvironment.
Context {engine : RegExpEngine} {dns2 : Dns2}.

(** The lookup stops at the first rule that matches or fails to compile. *)
Lemma getProxyDNS_decided domain db pre r post :
  proxy_rules db = (pre ++ r :: post)%list ->
  Forall (fun r' => rule_test domain r' = Ok false) pre ->
  getProxyDNS domain db
  = match rule_test domain r with
    | Ok true => Ok (Some (addr r))
    | Ok false => scan_rules post domain
    | Throw e => Throw e
    end.
Proof.
  intros Hrules Hpre. unfold getProxyDNS, getAllProxyRules. rewrite Hrules.
  by rewrite ProxyFacts.scan_rules_skip, ProxyFacts.scan_rules_cons.
Qed.

Lemma getProxyDNS_undecided domain db :
  Forall (fun r => rule_test domain r = Ok false) (proxy_rules db) ->
  getProxyDNS domain db = Ok None.
Proof.
  intros H. unfold getProxyDNS, getAllProxyRules.
  rewrite <- (app_nil_r (proxy_rules db)). by rewrite ProxyFacts.scan_rules_skip.
Qed.

(** C2, as the code has it.  The rules are tried first, in the order they
    are read, up to the first that matches or whose pattern fails to
    compile.  If it matches, the query is forwarded to its upstream and
    answered from there; the records are not read, whatever they hold.  If
    its pattern fails to compile, the query fails with that error: nothing
    is forwarded, read or sent, whatever the later rules and the records
    hold.  Only when every rule compiles and none matches are the records
    read, and the answer built from them if some match; only when none
    matches is the query forwarded to the configured default resolver. *)
Theorem resolution_in_rule_order db req q qs tr :
  questions req = q :: qs ->
  (forall pre r post,
      proxy_rules db = (pre ++ r :: post)%list ->
      Forall (fun r' => rule_test (q_name q) r' = Ok false) pre ->
      (rule_test (q_name q) r = Ok true ->
       handle db req tr
       = (fst (forwarded (addr r) (q_name q) (createResponseFromRequest req)),
          (tr ++ SelectProxyRules
              :: snd (forwarded (addr r) (q_name q)
                        (createResponseFromRequest req)))%list)) /\
      (forall e,
          rule_test (q_name q) r = Throw e ->
          handle db req tr = (Throw e, (tr ++ [SelectProxyRules])%list))) /\
  (Forall (fun r => rule_test (q_name q) r = Ok false) (proxy_rules db) ->
   (forall records,
       getRecords (q_name q) db = Ok records ->
       records <> [] ->
       handle db req tr
       = (Ok tt,
          (tr ++ [SelectProxyRules; SelectRecords (q_name q);
                  Send (set_answers
                          (answers (createResponseFromRequest req)
                           ++ map answer records)
                          (createResponseFromRequest req))])%list)) /\
   (getRecords (q_name q) db = Ok [] ->
    handle db req tr
    = (fst (forwarded DEFAULT_SERVER (q_name q) (createResponseFromRequest req)),
       (tr ++ SelectProxyRules :: SelectRecords (q_name q)
           :: snd (forwarded DEFAULT_SERVER (q_name q)
                     (createResponseFromRequest req)))%list))).
Proof.
  intros Hq. split.
  - intros pre r post Hrules Hpre.
    pose proof (getProxyDNS_decided (q_name q) db pre r post Hrules Hpre) as Hp.
    split.
    + intros Hm. rewrite Hm in Hp. by eapply ResolutionFacts.handle_proxy.
    + intros e He. rewrite He in Hp. by eapply ResolutionFacts.handle_rule_error.
  - intros Hnone. apply getProxyDNS_undecided in Hnone. split.
    + intros records Hr Hne. by eapply ResolutionFacts.handle_local.
    + intros Hr. by eapply ResolutionFacts.handle_default.
Qed.

End WithEnvironment.

Import Samples MoreSamples.

Lemma resolution_in_rule_order_witness :
  getRecords "host.delegated.test" db_both = Ok [rec_delegated] /\
  handle db_both (query "host.delegated.test") []
  = (Ok tt,
     [SelectProxyRules; Resolve "9.9.9.9" "host.delegated.test";
      Send (mkPacket 7 [mkQuestion "host.delegated.test" 1 1]
              [{[ "name" := JsString "host.delegated.test";
                  "address" := JsString "9.9.9.9" ]}])]).
Proof.
  split; [vm_compute; reflexivity|].
  destruct (resolution_in_rule_order db_both (query "host.delegated.test")
              (mkQuestion "host.delegated.test" 1 1) [] [] eq_refl)
    as (Hrules & _).
  destruct (Hrules [] rule_delegated [] eq_refl (List.Forall_nil _)) as (Hproxy & _).
  rewrite Hproxy; [reflexivity|]. vm_compute. reflexivity.
Defined.

(** C2, as the specification words it, fails: a stored rule matches the
    name and so does a stored record, but a rule read before has a pattern
    that does not compile; the callback throws after reading the rules,
    and the query is neither forwarded to the matching rule's upstream nor
    answered. *)
Lemma resolution_fails_before_matching_rule :
  In rule_any_a (proxy_rules db_broken_local) /\
  rule_test "a.com" rule_any_a = Ok true /\
  getRecords "a.com" db_broken_local = Ok [rec_a_com] /\
  handle db_broken_local (query "a.com") []
  = (Throw (SyntaxError "Nothing to repeat"), [SelectProxyRules]) /\
  handle db_broken_local (query "a.com") []
  <> (Ok tt,
      [SelectProxyRules; Resolve "8.8.8.8" "a.com";
       Send (mkPacket 7 [mkQuestion "a.com" 1 1]
               [{[ "name" := JsString "a.com"; "address" := JsString "8.8.8.8" ]}])]).
Proof.
  split; [right; by left|].
  split; [vm_compute; reflexivity|].
  split; [vm_compute; reflexivity|].
  assert (handle db_broken_local (query "a.com") []
          = (Throw (SyntaxError "Nothing to repeat"), [SelectProxyRules])) as H
    by (vm_compute; reflexivity).
  split; [exact H|]. rewrite H. discriminate.
Qed.

End OrderFacts.


(** ** Issuance *)

Module IssuanceFacts.
Import Text Sql Store Issuance Wording.

(** *** Lists of pairs *)

Lemma set_certs_same db : set_certs (certs db) db = db.
Proof. by destruct db. Qed.

Lemma filter_swap {A} (f g : A -> bool) l :
  List.filter f (List.filter g l) = List.filter g (List.filter f l).
Proof.
  induction l as [|x l IH]; [reflexivity|]. simpl.
  destruct (f x) eqn:Hf, (g x) eqn:Hg; simpl; rewrite ?Hf, ?Hg, IH; reflexivity.
Qed.

Lemma filter_all {A} (f : A -> bool) l :
  (forall x, In x l -> f x = true) -> List.filter f l = l.
Proof.
  induction l as [|x l IH]; intros H; [reflexivity|]. simpl.
  rewrite (H x (or_introl eq_refl)), IH; [reflexivity|].
  intros y Hy. apply H. by right.
Qed.


Lemma fresh_id_sub id cs cs' :
  (forall c, In c cs' -> In c cs) -> fresh_id id cs = true -> fresh_id id cs' = true.
Proof.
  unfold fresh_id. intros Hsub H. apply negb_true_iff in H. apply negb_true_iff.
  destruct (existsb _ cs') eqn:E; [|reflexivity].
  apply existsb_exists in E as (c & Hc & Hid).
  assert (existsb (fun c => String.eqb (cert_id c) id) cs = true) as Hex
    by (apply existsb_exists; eauto).
  congruence.
Qed.

Lemma fresh_id_app id cs c :
  fresh_id id (cs ++ [c]) = (fresh_id id cs && negb (String.eqb (cert_id c) id))%bool.
Proof.
  unfold fresh_id. rewrite existsb_app. simpl. rewrite orb_false_r.
  apply negb_orb.
Qed.

Lemma kept_sub d db c : In c (kept d db) -> In c (certs db).
Proof.
  unfold kept, without_id. destruct (head (pairs_for d db)); [|done].
  intros H. by apply filter_In in H as [H _].
Qed.

Lemma head_filter_In {A} (f : A -> bool) l x :
  head (List.filter f l) = Some x -> In x l /\ f x = true.
Proof.
  intros H. apply filter_In. destruct (List.filter f l) as [|y l']; [done|].
  inversion H; subst. by left.
Qed.

Lemma same_id_same_pair cs a b :
  NoDup (map cert_id cs) -> In a cs -> In b cs -> cert_id a = cert_id b -> a = b.
Proof.
  induction cs as [|c cs IH]; [done|]. simpl. intros Hnd Ha Hb Hid.
  apply NoDup_cons in Hnd as [Hc Hnd].
  assert (forall x, In x cs -> cert_id x <> cert_id c) as Hne.
  { intros x Hx Hxc. apply Hc. rewrite <- Hxc.
    apply list_elem_of_In, in_map, Hx. }
  destruct Ha as [->|Ha], Hb as [->|Hb]; [done| | |by apply IH].
  - exfalso. by apply (Hne b Hb).
  - exfalso. by apply (Hne a Ha).
Qed.

(** Removing the pair found for [d] leaves the pairs of other domains. *)
Lemma pairs_for_kept_other d d' db :
  primary_key db -> d <> d' ->
  List.filter (fun c => String.eqb (cert_domain c) d') (kept d db)
  = pairs_for d' db.
Proof.
  intros Hpk Hne. unfold kept.
  destruct (head (pairs_for d db)) as [old|] eqn:Hold; [|reflexivity].
  apply head_filter_In in Hold as [Hin Hd]. apply String.eqb_eq in Hd.
  unfold without_id. rewrite filter_swap. apply filter_all.
  intros c Hc. apply filter_In in Hc as [Hc Hcd]. apply String.eqb_eq in Hcd.
  apply negb_true_iff. apply String.eqb_neq. intros Hid.
  pose proof (same_id_same_pair _ _ _ Hpk Hc Hin Hid). congruence.
Qed.

(** ... and, when at most one pair was stored for [d], none for [d]. *)
Lemma pairs_for_kept_same d db :
  (length (pairs_for d db) <= 1)%nat ->
  List.filter (fun c => String.eqb (cert_domain c) d) (kept d db) = [].
Proof.
  intros Hlen. unfold kept, pairs_for in *.
  destruct (List.filter _ (certs db)) as [|old [|]] eqn:Hf; simpl in *; [done| |lia].
  unfold without_id. rewrite filter_swap, Hf. simpl.
  by rewrite String.eqb_refl.
Qed.

Lemma filter_snoc {A} (f : A -> bool) l x :
  List.filter f (l ++ [x]) = (List.filter f l ++ if f x then [x] else [])%list.
Proof. by rewrite List.filter_app. Qed.

Lemma pairs_for_snoc d cs c db :
  pairs_for d (set_certs (cs ++ [c]) db)
  = (List.filter (fun x => String.eqb (cert_domain x) d) cs
     ++ if String.eqb (cert_domain c) d then [c] else [])%list.
Proof.
  unfold pairs_for. cbn [certs set_certs].
  exact (filter_snoc (fun x => String.eqb (cert_domain x) d) cs c).
Qed.


Lemma fresh_id_not_in id cs c :
  fresh_id id cs = true -> In c cs -> String.eqb (cert_id c) id = false.
Proof.
  unfold fresh_id. intros H Hc. apply negb_true_iff in H.
  destruct (String.eqb (cert_id c) id) eqn:E; [|reflexivity].
  assert (existsb (fun c => String.eqb (cert_id c) id) cs = true) as Hex
    by (apply existsb_exists; eauto).
  congruence.
Qed.

(** *** One call of [generateCert], and [init] *)

Section WithForge.
Context {forge : Forge}.

Lemma generateCert_run w d ca db :
  generateCert w d ca db
  = match built_pair w d ca db with
    | Throw e => (Throw e, db)
    | Ok p =>
        if fresh_id (uuid w) (kept d db)
        then (Ok p, set_certs (kept d db ++ [p]) db)
        else (Throw unique_violation, set_certs (kept d db) db)
    end.
Proof.
  unfold generateCert, built_pair, kept, pairs_for, fresh_id, without_id.
  unfold mbind, IO_bind, mret, IO_ret, getCert, lift, throw.
  destruct (head (List.filter (fun c => String.eqb (cert_domain c) d) (certs db)))
    as [old|]; destruct ca.
  - unfold removeCertByID, insertCert, ca_pair; simpl. by destruct (existsb _ _).
  - destruct (head (List.filter (fun c => String.eqb (cert_domain c) ".") (certs db)))
      as [root|]; [|reflexivity].
    destruct (privateKeyFromDer (cert_key root)) as [k|e]; [|reflexivity].
    unfold removeCertByID, insertCert, leaf_pair; simpl. by destruct (existsb _ _).
  - unfold insertCert, ca_pair; simpl.
    rewrite set_certs_same. by destruct (existsb _ _).
  - destruct (head (List.filter (fun c => String.eqb (cert_domain c) ".") (certs db)))
      as [root|]; [|reflexivity].
    destruct (privateKeyFromDer (cert_key root)) as [k|e]; [|reflexivity].
    unfold insertCert, leaf_pair; simpl.
    rewrite set_certs_same. by destruct (existsb _ _).
Qed.

Lemma init_run w db :
  init w db
  = match head (pairs_for "." db) with
    | Some _ => (Ok tt, db)
    | None =>
        if fresh_id (uuid w) (certs db)
        then (Ok tt, set_certs (certs db ++ [ca_pair w]) db)
        else (Throw unique_violation, db)
    end.
Proof.
  unfold init. unfold mbind at 1. unfold IO_bind at 1. unfold getCert at 1.
  fold (pairs_for "." db).
  destruct (head (pairs_for "." db)) eqn:Hroot; [reflexivity|].
  unfold mbind, IO_bind. rewrite generateCert_run. simpl.
  unfold kept. rewrite Hroot.
  destruct (fresh_id _ _); [reflexivity|]. by rewrite set_certs_same.
Qed.

Lemma pairs_for_set_certs d cs db :
  pairs_for d (set_certs cs db)
  = List.filter (fun c => String.eqb (cert_domain c) d) cs.
Proof. reflexivity. Qed.

Lemma kept_set_certs d cs db :
  kept d (set_certs cs db)
  = match head (List.filter (fun c => String.eqb (cert_domain c) d) cs) with
    | Some old => without_id (cert_id old) cs
    | None => cs
    end.
Proof. reflexivity. Qed.

Lemma set_certs_twice cs cs' db : set_certs cs (set_certs cs' db) = set_certs cs db.
Proof. reflexivity. Qed.

(** C6. Bootstrapping the root is idempotent: with a pair stored for the
    sentinel domain, [init] changes nothing; a second run after a successful
    first one changes nothing; a first run on a store without root leaves
    exactly one, self-signed, root pair; and two runs never leave more root
    entries than there were, or one if there was none. *)
Theorem init_is_idempotent w1 w2 db :
  (pairs_for "." db <> [] -> init w1 db = (Ok tt, db)) /\
  (fst (init w1 db) = Ok tt ->
   init w2 (snd (init w1 db)) = (Ok tt, snd (init w1 db))) /\
  (pairs_for "." db = [] -> fst (init w1 db) = Ok tt ->
   pairs_for "." (snd (init w1 db)) = [ca_pair w1] /\
   self_signed_ca (ca_pair w1) (keys_privateKey w1)) /\
  (length (pairs_for "." (snd (init w2 (snd (init w1 db)))))
   <= Nat.max 1 (length (pairs_for "." db)))%nat.
Proof.
  assert (forall w, pairs_for "." db <> [] -> init w db = (Ok tt, db)) as Hsome.
  { intros w H. rewrite init_run. by destruct (pairs_for "." db). }
  assert (forall w w', pairs_for "." db = [] -> fresh_id (uuid w) (certs db) = true ->
            init w db = (Ok tt, set_certs (certs db ++ [ca_pair w]) db) /\
            pairs_for "." (set_certs (certs db ++ [ca_pair w]) db) = [ca_pair w] /\
            init w' (set_certs (certs db ++ [ca_pair w]) db)
            = (Ok tt, set_certs (certs db ++ [ca_pair w]) db)) as Hnone.
  { intros w w' H Hfresh.
    assert (pairs_for "." (set_certs (certs db ++ [ca_pair w]) db) = [ca_pair w]) as Hp.
    { rewrite pairs_for_snoc. fold (pairs_for "." db). by rewrite H. }
    split; [|split; [exact Hp|]].
    - rewrite init_run, H. simpl. by rewrite Hfresh.
    - rewrite init_run, Hp. reflexivity. }
  assert (forall w, pairs_for "." db = [] -> fresh_id (uuid w) (certs db) = false ->
            init w db = (Throw unique_violation, db)) as Hfail.
  { intros w H Hfresh. rewrite init_run, H. simpl. by rewrite Hfresh. }
  destruct (pairs_for "." db) as [|root rest] eqn:Hroot.
  - split; [done|].
    destruct (fresh_id (uuid w1) (certs db)) eqn:Hf1.
    + destruct (Hnone w1 w2 eq_refl Hf1) as (H1 & Hp & H2). rewrite H1. simpl.
      split; [done|]. split; [by repeat split; [..|left]|].
      rewrite H2. simpl. rewrite Hp. simpl. lia.
    + rewrite (Hfail w1 eq_refl Hf1). simpl.
      split; [done|]. split; [done|].
      destruct (fresh_id (uuid w2) (certs db)) eqn:Hf2.
      * destruct (Hnone w2 w2 eq_refl Hf2) as (H1 & Hp & _). rewrite H1. simpl.
        rewrite Hp. simpl. lia.
      * rewrite (Hfail w2 eq_refl Hf2). simpl. rewrite Hroot. simpl. lia.
  - assert (root :: rest <> []) as Hne by done.
    rewrite (Hsome w1 Hne). simpl. rewrite (Hsome w2 Hne). simpl.
    split; [done|]. split; [done|]. split; [done|].
    rewrite Hroot. simpl. lia.
Qed.

(** C7. While no pair is stored for the sentinel domain, issuing a leaf
    fails before anything is written: reading the key of the absent root
    throws.  Once [init] has run on such a store, a leaf for a domain other
    than the sentinel is issued, signed with the key of the new root. *)
Theorem leaf_issuance_needs_root w0 w d db :
  pairs_for "." db = [] ->
  d <> "." ->
  fresh_id (uuid w0) (certs db) = true ->
  fresh_id (uuid w) (certs db) = true ->
  uuid w <> uuid w0 ->
  generateCert w d false db
  = (Throw (TypeError "Cannot read properties of undefined (reading 'key')"), db) /\
  fst (init w0 db) = Ok tt /\
  exists db',
    generateCert w d false (snd (init w0 db))
    = (Ok (leaf_pair w d (keys_privateKey w0)), db') /\
    In (leaf_pair w d (keys_privateKey w0)) (pairs_for d db') /\
    pairs_for "." db' = [ca_pair w0].
Proof.
  intros Hroot Hd Hf0 Hf Hne. split; [|split].
  - rewrite generateCert_run. unfold built_pair. by rewrite Hroot.
  - rewrite init_run, Hroot. cbn [head]. by rewrite Hf0.
  - rewrite init_run, Hroot. cbn [head]. rewrite Hf0. cbn [snd].
    set (cs := (certs db ++ [ca_pair w0])%list).
    assert (String.eqb d "." = false) as Hd1 by by apply String.eqb_neq.
    assert (String.eqb "." d = false) as Hd2 by (apply String.eqb_neq; congruence).
    assert (pairs_for "." (set_certs cs db) = [ca_pair w0]) as Hroot'.
    { unfold cs. rewrite pairs_for_snoc. fold (pairs_for "." db).
      by rewrite Hroot. }
    assert (pairs_for d (set_certs cs db) = pairs_for d db) as Hd'.
    { unfold cs. rewrite pairs_for_snoc. fold (pairs_for d db).
      change (cert_domain (ca_pair w0)) with ".". by rewrite Hd2, app_nil_r. }
    assert (fresh_id (uuid w) cs = true) as Hfcs.
    { unfold cs. rewrite fresh_id_app, Hf.
      change (cert_id (ca_pair w0)) with (uuid w0).
      apply andb_true_iff. split; [done|].
      apply negb_true_iff, String.eqb_neq. congruence. }
    assert (fresh_id (uuid w) (kept d (set_certs cs db)) = true) as Hfk.
    { eapply fresh_id_sub; [|exact Hfcs]. intros c Hc.
      by apply kept_sub in Hc. }
    rewrite generateCert_run. unfold built_pair. rewrite Hroot'. cbn [head].
    change (cert_key (ca_pair w0)) with (privateKeyToDer (keys_privateKey w0)).
    rewrite der_roundtrip, Hfk.
    eexists. split; [reflexivity|].
    rewrite !pairs_for_snoc.
    change (cert_domain (leaf_pair w d (keys_privateKey w0))) with d.
    rewrite String.eqb_refl, Hd1, app_nil_r.
    split; [apply in_or_app; right; by left|].
    unfold kept. rewrite Hd'.
    destruct (head (pairs_for d db)) as [old|] eqn:Hold; [|exact Hroot'].
    apply head_filter_In in Hold as [Hin Hod].
    unfold without_id. rewrite filter_swap. fold (pairs_for "." (set_certs cs db)).
    rewrite Hroot'. cbn [List.filter]. change (cert_id (ca_pair w0)) with (uuid w0).
    rewrite String.eqb_sym, (fresh_id_not_in _ _ _ Hf0 Hin). reflexivity.
Qed.

(** *** What every call preserves *)

Lemma filter_keeps_key (f : CertPair -> bool) cs :
  NoDup (map cert_id cs) -> NoDup (map cert_id (List.filter f cs)).
Proof.
  induction cs as [|c cs IH]; [done|]. simpl. intros H.
  apply NoDup_cons in H as [Hc Hcs]. destruct (f c); [|by apply IH].
  simpl. apply NoDup_cons. split; [|by apply IH].
  intros Hin. apply Hc. apply list_elem_of_In in Hin. apply list_elem_of_In.
  apply in_map_iff in Hin as (x & Hx & Hin). apply filter_In in Hin as [Hin _].
  apply in_map_iff. eauto.
Qed.

Lemma kept_keeps_key d db : primary_key db -> NoDup (map cert_id (kept d db)).
Proof.
  unfold primary_key, kept. intros H.
  destruct (head (pairs_for d db)); [|exact H]. by apply filter_keeps_key.
Qed.

Lemma built_pair_id w d ca db p : built_pair w d ca db = Ok p -> cert_id p = uuid w.
Proof.
  unfold built_pair. destruct ca; [by inversion 1|].
  destruct (head (pairs_for "." db)) as [root|]; [|done].
  destruct (privateKeyFromDer (cert_key root)); [|done]. by inversion 1.
Qed.

(** The primary key of [certs] survives every call, failed or not. *)
Lemma generateCert_keeps_primary_key w d ca db :
  primary_key db -> primary_key (snd (generateCert w d ca db)).
Proof.
  intros Hpk. rewrite generateCert_run.
  destruct (built_pair w d ca db) as [p|e] eqn:Hp; [|exact Hpk].
  pose proof (kept_keeps_key d db Hpk) as Hk.
  destruct (fresh_id (uuid w) (kept d db)) eqn:Hf; [|exact Hk].
  unfold primary_key. cbn [snd certs set_certs]. rewrite map_app.
  apply NoDup_app. split; [exact Hk|]. split; [|apply NoDup_singleton].
  intros id Hid Hp'. apply list_elem_of_In in Hid.
  apply in_map_iff in Hid as (c & <- & Hc).
  apply list_elem_of_In in Hp'. destruct Hp' as [Hp'|[]].
  rewrite (built_pair_id _ _ _ _ _ Hp) in Hp'.
  pose proof (fresh_id_not_in _ _ _ Hf Hc) as Hne.
  apply String.eqb_neq in Hne. congruence.
Qed.

Lemma init_keeps_primary_key w db :
  primary_key db -> primary_key (snd (init w db)).
Proof.
  intros Hpk. unfold init, mbind, IO_bind, getCert.
  destruct (head _); [exact Hpk|].
  pose proof (generateCert_keeps_primary_key w "." true db Hpk) as H.
  by destruct (generateCert w "." true db) as [[p|e] db'].
Qed.

(** Leaf issuance never leaves two pairs for one domain. *)
Lemma leaf_issuance_keeps_one_pair w d db :
  primary_key db ->
  (forall d', (length (pairs_for d' db) <= 1)%nat) ->
  forall d', (length (pairs_for d' (snd (generateCert w d false db))) <= 1)%nat.
Proof.
  intros Hpk Hone d'. rewrite generateCert_run.
  assert (length (List.filter (fun c => String.eqb (cert_domain c) d') (kept d db))
          <= 1)%nat as Hk.
  { unfold kept. destruct (head (pairs_for d db)); [|apply Hone].
    unfold without_id. rewrite filter_swap.
    etransitivity; [apply filter_length_le|apply Hone]. }
  destruct (built_pair w d false db) as [p|e] eqn:Hp; [|apply Hone].
  destruct (fresh_id (uuid w) (kept d db)); [|exact Hk].
  cbn [snd]. rewrite pairs_for_snoc.
  assert (cert_domain p = d) as ->.
  { unfold built_pair in Hp. destruct (head (pairs_for "." db)) as [root|]; [|done].
    destruct (privateKeyFromDer (cert_key root)); [|done]. by inversion Hp. }
  destruct (String.eqb_spec d d') as [<-|Hne].
  - by rewrite pairs_for_kept_same.
  - rewrite app_nil_r. exact Hk.
Qed.

(** *** The serial number of an id *)









(** C9. In CA mode the new pair is stored under ["."] whatever the domain
    argument, while the pair removed first is the one found for that
    argument.  For an argument other than ["."] on a store that keeps its
    primary key, the pair found for the argument is gone afterwards and the
    pairs stored under ["."] are the former ones followed by the new one. *)
Theorem ca_mode_stores_under_sentinel w d db :
  fresh_id (uuid w) (kept d db) = true ->
  generateCert w d true db
  = (Ok (ca_pair w), set_certs (kept d db ++ [ca_pair w]) db) /\
  cert_domain (ca_pair w) = "." /\
  (d <> "." -> primary_key db ->
   pairs_for "." (snd (generateCert w d true db))
   = (pairs_for "." db ++ [ca_pair w])%list /\
   forall old, head (pairs_for d db) = Some old ->
               ~ In old (certs (snd (generateCert w d true db)))).
Proof.
  intros Hf.
  assert (generateCert w d true db
          = (Ok (ca_pair w), set_certs (kept d db ++ [ca_pair w]) db)) as Hrun.
  { rewrite generateCert_run. unfold built_pair. by rewrite Hf. }
  split; [exact Hrun|]. split; [reflexivity|].
  intros Hd Hpk. rewrite Hrun. cbn [snd]. split.
  - rewrite pairs_for_snoc, pairs_for_kept_other by done.
    change (cert_domain (ca_pair w)) with ".". by rewrite String.eqb_refl.
  - intros old Hold. cbn [certs set_certs]. intros Hin.
    pose proof (head_filter_In _ _ _ Hold) as [_ Hod]. apply String.eqb_eq in Hod.
    apply in_app_or in Hin as [Hin|[Heq|[]]].
    + unfold kept in Hin. rewrite Hold in Hin.
      apply filter_In in Hin as [_ Hid]. by rewrite String.eqb_refl in Hid.
    + subst old. by apply Hd.
Qed.

(** *** Ownership records *)

Lemma like_trailing_percent t : like_match ["%"%char] t = true.
Proof. induction t as [|x t IH]; [reflexivity|exact IH]. Qed.

Lemma LIKE_dash_dot s :
  LIKE (chars s) (chars "-.%") = Ok (starts_with "-." s).
Proof.
  unfold LIKE. change (like_wf (chars "-.%")) with true. cbn iota. f_equal.
  change (chars "-.%") with ["-"; "."; "%"]%char.
  destruct s as [|a [|b s]]; [reflexivity| |].
  - change (like_match ["-"; "."; "%"]%char (chars (String a "")))
      with (Ascii.eqb "-" a && false).
    cbn [starts_with]. by rewrite !andb_false_r.
  - change (like_match ["-"; "."; "%"]%char (chars (String a (String b s))))
      with (Ascii.eqb "-" a && (Ascii.eqb "." b && like_match ["%"%char] (chars s))).
    rewrite like_trailing_percent. reflexivity.
Qed.

Lemma select_where_pure {A} (cond : A -> Result bool) (f : A -> bool) rows :
  (forall r, cond r = Ok (f r)) ->
  select_where cond rows = Ok (List.filter f rows).
Proof.
  intros H. induction rows as [|r rows IH]; [reflexivity|].
  simpl. rewrite H, IH. unfold mbind, Result_bind, mret, Result_ret.
  by destruct (f r).
Qed.

(** C1, as the code has it.  [generateCert] takes no owner and reads no
    record: whatever the [records] table holds, it gives the same outcome
    and leaves that table as it was.  What the engine offers for ownership
    is the lookup [findByOwner], which returns, oldest first, the TXT
    records whose name starts with ["-."] and whose value is the owner. *)
Theorem issuance_ignores_ownership w d ca db :
  (forall rs,
      generateCert w d ca (set_records rs db)
      = (fst (generateCert w d ca db),
         set_records rs (snd (generateCert w d ca db)))) /\
  records (snd (generateCert w d ca db)) = records db /\
  (forall owner,
      exists rows,
        findByOwner owner db = Ok rows /\
        StronglySorted timestamp_le rows /\
        forall r, In r rows <->
                  In r (records db) /\
                  starts_with "-." (rec_name r) = true /\
                  rec_type r = "TXT" /\ rec_value r = owner).
Proof.
  split; [|split].
  - intros rs. rewrite !generateCert_run.
    change (built_pair w d ca (set_records rs db)) with (built_pair w d ca db).
    change (kept d (set_records rs db)) with (kept d db).
    destruct (built_pair w d ca db); [|reflexivity].
    by destruct (fresh_id _ _).
  - rewrite generateCert_run.
    destruct (built_pair w d ca db); [|reflexivity].
    by destruct (fresh_id _ _).
  - intros owner. eexists. split; [|split].
    + unfold findByOwner.
      rewrite (select_where_pure _
                 (fun r => starts_with "-." (rec_name r)
                           && String.eqb (rec_type r) "TXT"
                           && String.eqb (rec_value r) owner)).
      * reflexivity.
      * intros r. unfold findByOwner_where. by rewrite LIKE_dash_dot.
    + apply StronglySorted_merge_sort; apply _.
    + intros r. unfold order_by_timestamp.
      rewrite <- !list_elem_of_In, merge_sort_Permutation, !list_elem_of_In.
      rewrite filter_In, !andb_true_iff, !String.eqb_eq. tauto.
Qed.

End WithForge.

Import Samples.

Lemma leaf_issuance_needs_root_witness :
  generateCert draw2 "example.com" false db_empty
  = (Throw (TypeError "Cannot read properties of undefined (reading 'key')"),
     db_empty) /\
  fst (init draw1 db_empty) = Ok tt /\
  exists db',
    generateCert draw2 "example.com" false db_rooted
    = (Ok (leaf_pair draw2 "example.com" "priv1"), db') /\
    In (leaf_pair draw2 "example.com" "priv1") (pairs_for "example.com" db') /\
    pairs_for "." db' = [ca_pair draw1].
Proof.
  apply (leaf_issuance_needs_root draw1 draw2 "example.com" db_empty).
  - reflexivity.
  - discriminate.
  - reflexivity.
  - reflexivity.
  - intros H. vm_compute in H. discriminate.
Defined.



Lemma ca_mode_stores_under_sentinel_witness :
  fst (generateCert draw3 "example.com" true db_leaf) = Ok (ca_pair draw3) /\
  cert_domain (ca_pair draw3) = "." /\
  pairs_for "example.com" db_leaf = [leaf_pair draw2 "example.com" "priv1"] /\
  pairs_for "." (snd (generateCert draw3 "example.com" true db_leaf))
  = [ca_pair draw1; ca_pair draw3] /\
  ~ In (leaf_pair draw2 "example.com" "priv1")
       (certs (snd (generateCert draw3 "example.com" true db_leaf))).
Proof.
  destruct (ca_mode_stores_under_sentinel draw3 "example.com" db_leaf eq_refl)
    as (Hrun & Hdom & Hrest).
  destruct Hrest as [Hroots Hgone].
  - discriminate.
  - apply (bool_decide_unpack _). vm_compute. exact I.
  - split; [by rewrite Hrun|]. split; [exact Hdom|]. split; [reflexivity|].
    split; [by rewrite Hroots|]. by apply Hgone.
Defined.

(** C1, as the specification words it, fails: no ownership record exists
    for any owner, and a leaf for [example.com] is issued all the same. *)
Lemma issuance_without_ownership_record :
  records db_rooted = [] /\
  findByOwner "alice" db_rooted = Ok [] /\
  fst (generateCert draw2 "example.com" false db_rooted)
  = Ok (leaf_pair draw2 "example.com" "priv1").
Proof. repeat split; vm_compute; reflexivity. Qed.

Example findByOwner_sample :
  findByOwner "alice" (mkDB [rec_a; rec_owner] [] []) = Ok [rec_owner] /\
  findByOwner "bob" (mkDB [rec_a; rec_owner] [] []) = Ok [].
Proof. split; vm_compute; reflexivity. Qed.

End IssuanceFacts.


(** ** Wildcard names in [getRecords] *)

Module WildcardFacts.
Import Text Sql Store Wording.

(** *** Characters *)

Lemma lower_ascii_dot c : Ascii.eqb (lower_ascii c) dot = Ascii.eqb c dot.
Proof. destruct c as [[] [] [] [] [] [] [] []]; reflexivity. Qed.

Lemma lower_ascii_idem c : lower_ascii (lower_ascii c) = lower_ascii c.
Proof. destruct c as [[] [] [] [] [] [] [] []]; reflexivity. Qed.

(** *** Splitting at dots *)

Lemma split_on_nonempty s : split_on dot s <> [].
Proof.
  destruct s as [|c s]; simpl; [done|].
  destruct (Ascii.eqb c dot); [done|]. by destruct (split_on dot s).
Qed.

Lemma split_on_length s : length (split_on dot s) = S (count_char dot s).
Proof.
  induction s as [|c s IH]; [reflexivity|]. simpl.
  destruct (Ascii.eqb c dot); simpl; [by rewrite IH|].
  destruct (split_on dot s) eqn:E; [by destruct (split_on_nonempty s)|].
  exact IH.
Qed.

Lemma count_char_app c a b :
  count_char c (a ++ b) = (count_char c a + count_char c b)%nat.
Proof. induction a as [|x a IH]; simpl; [reflexivity|]. rewrite IH. lia. Qed.

Lemma count_char_dot_free a : count_char dot a = 0%nat <-> dot_free a = true.
Proof.
  induction a as [|x a IH]; simpl; [done|].
  destruct (Ascii.eqb x dot); simpl; [split; [lia|done]|exact IH].
Qed.

Lemma split_on_app_dot a b :
  dot_free a = true -> split_on dot (a ++ dot :: b) = a :: split_on dot b.
Proof.
  induction a as [|x a IH]; intros H.
  - reflexivity.
  - simpl in H. apply andb_true_iff in H as [Hx Ha]. apply negb_true_iff in Hx.
    simpl. rewrite Hx, (IH Ha). reflexivity.
Qed.

Lemma split_on_dot_free a : dot_free a = true -> split_on dot a = [a].
Proof.
  induction a as [|x a IH]; intros H; [reflexivity|].
  simpl in H. apply andb_true_iff in H as [Hx Ha]. apply negb_true_iff in Hx.
  simpl. rewrite Hx, (IH Ha). reflexivity.
Qed.

Lemma split_on_inv s q qs :
  split_on dot s = q :: qs ->
  dot_free q = true /\
  ((qs = [] /\ s = q) \/
   (exists s', s = (q ++ dot :: s')%list /\ split_on dot s' = qs)).
Proof.
  revert q qs. induction s as [|c s IH]; intros q qs H; simpl in H.
  - inversion H; subst. split; [reflexivity|]. by left.
  - destruct (Ascii.eqb c dot) eqn:Hc.
    + inversion H; subst. apply Ascii.eqb_eq in Hc. subst c.
      split; [reflexivity|]. right. by exists s.
    + destruct (split_on dot s) as [|l ls] eqn:E; [by destruct (split_on_nonempty s)|].
      inversion H; subst. destruct (IH l qs eq_refl) as [Hl Hcase].
      split; [simpl; by rewrite Hc|].
      destruct Hcase as [[-> ->]|(s' & -> & Hs')]; [by left|].
      right. by exists s'.
Qed.

Lemma split_on_all_dot_free s : Forall (fun l => dot_free l = true) (split_on dot s).
Proof.
  remember (split_on dot s) as ls eqn:E. revert s E.
  induction ls as [|l ls IH]; intros s E; [constructor|].
  symmetry in E. destruct (split_on_inv _ _ _ E) as [Hl Hcase].
  constructor; [exact Hl|].
  destruct Hcase as [[-> _]|(s' & _ & Hs')]; [constructor|].
  by apply (IH s').
Qed.

Lemma join_split s : join_dots (split_on dot s) = s.
Proof.
  remember (split_on dot s) as ls eqn:E. revert s E.
  induction ls as [|l ls IH]; intros s E; [by destruct (split_on_nonempty s)|].
  symmetry in E. destruct (split_on_inv _ _ _ E) as [_ [[-> ->]|(s' & -> & Hs')]].
  - reflexivity.
  - simpl. destruct ls as [|l' ls]; [by destruct (split_on_nonempty s')|].
    by rewrite (IH s').
Qed.

Lemma split_on_lower s : split_on dot (lower s) = map lower (split_on dot s).
Proof.
  induction s as [|c s IH]; [reflexivity|].
  simpl. rewrite lower_ascii_dot, IH.
  destruct (Ascii.eqb c dot); [reflexivity|].
  by destruct (split_on dot s).
Qed.

(** *** [LIKE] on such patterns *)

Lemma like_special_false c :
  like_special c = false ->
  Ascii.eqb c "*" = false /\ Ascii.eqb c "%" = false /\
  Ascii.eqb c "_" = false /\ Ascii.eqb c "\" = false.
Proof.
  unfold like_special. simpl. rewrite orb_false_r.
  intros H. repeat (apply orb_false_iff in H as [? H]). done.
Qed.

Lemma like_match_literal c p t :
  Ascii.eqb c "%" = false -> Ascii.eqb c "_" = false -> Ascii.eqb c "\" = false ->
  like_match (c :: p) t
  = match t with
    | [] => false
    | x :: t' => Ascii.eqb c x && like_match p t'
    end.
Proof. intros H1 H2 H3. cbn [like_match]. by rewrite H1, H2, H3. Qed.

Lemma like_match_percent_eq p t :
  like_match ("%"%char :: p) t
  = like_match p t ||
    match t with
    | [] => false
    | _ :: t' => like_match ("%"%char :: p) t'
    end.
Proof. by destruct t. Qed.

Lemma like_match_percent p t :
  like_match ("%"%char :: p) t = true <->
  exists a b, t = (a ++ b)%list /\ like_match p b = true.
Proof.
  split.
  - induction t as [|x t IH]; rewrite like_match_percent_eq; intros H.
    + rewrite orb_false_r in H. by exists [], [].
    + apply orb_true_iff in H as [H|H].
      * by exists [], (x :: t).
      * destruct (IH H) as (a & b & -> & Hb). by exists (x :: a), b.
  - intros (a & b & -> & Hb). induction a as [|x a IH];
      rewrite like_match_percent_eq; cbn [app].
    + by rewrite Hb.
    + rewrite IH. apply orb_true_r.
Qed.

Lemma like_match_dot p t :
  like_match (dot :: p) t = true <->
  exists t', t = dot :: t' /\ like_match p t' = true.
Proof.
  rewrite like_match_literal by reflexivity. split.
  - destruct t as [|x t]; [done|]. intros H.
    apply andb_true_iff in H as [Hx Ht]. apply Ascii.eqb_eq in Hx. subst x.
    by exists t.
  - intros (t' & -> & Ht). by rewrite Ascii.eqb_refl.
Qed.

Lemma like_match_plain l p t :
  plain_label l = true ->
  like_match (l ++ p) t = true <->
  exists t', t = (l ++ t')%list /\ like_match p t' = true.
Proof.
  revert t. induction l as [|c l IH]; intros t Hl.
  - simpl. split; [by exists t|]. by intros (t' & -> & H).
  - simpl in Hl. apply andb_true_iff in Hl as [Hc Hl]. apply negb_true_iff in Hc.
    destruct (like_special_false _ Hc) as (_ & H1 & H2 & H3).
    rewrite <- app_comm_cons, like_match_literal by done. split.
    + destruct t as [|x t]; [done|]. intros H.
      apply andb_true_iff in H as [Hx Ht]. apply Ascii.eqb_eq in Hx. subst x.
      apply (IH t Hl) in Ht as (t' & -> & Ht'). by exists t'.
    + intros (t' & -> & Ht'). rewrite <- app_comm_cons, Ascii.eqb_refl.
      apply (IH _ Hl). by exists t'.
Qed.

Lemma star_to_percent_plain l : plain_label l = true -> star_to_percent l = l.
Proof.
  induction l as [|c l IH]; [reflexivity|]. simpl. intros H.
  apply andb_true_iff in H as [Hc Hl]. apply negb_true_iff in Hc.
  destruct (like_special_false _ Hc) as (H0 & _). by rewrite H0, (IH Hl).
Qed.

Lemma star_to_percent_app a b :
  star_to_percent (a ++ b) = (star_to_percent a ++ star_to_percent b)%list.
Proof. apply map_app. Qed.

Lemma list_eqb_eq a b : list_eqb a b = true <-> a = b.
Proof.
  revert b. induction a as [|x a IH]; intros [|y b]; simpl; try done.
  rewrite andb_true_iff, Ascii.eqb_eq, IH. split; [by intros [-> ->]|].
  by inversion 1.
Qed.

Lemma is_star_eq l : is_star l = true <-> l = ["*"%char].
Proof. apply list_eqb_eq. Qed.

Lemma pattern_cons p p' ps :
  star_to_percent (join_dots (p :: p' :: ps))
  = (star_to_percent p ++ dot :: star_to_percent (join_dots (p' :: ps)))%list.
Proof.
  change (join_dots (p :: p' :: ps)) with (p ++ dot :: join_dots (p' :: ps))%list.
  by rewrite star_to_percent_app.
Qed.

(** A text matched by the pattern has at least as many labels. *)
Lemma like_labels_lower_bound ps t :
  ps <> [] -> Forall good_label ps ->
  like_match (star_to_percent (join_dots ps)) t = true ->
  (length ps <= length (split_on dot t))%nat.
Proof.
  revert t. induction ps as [|p ps IH]; intros t Hne Hgood Hlike; [done|].
  apply Forall_cons in Hgood as [[Hdf Hp] Hgood].
  destruct ps as [|p' ps].
  - simpl. pose proof (split_on_nonempty t). destruct (split_on dot t); [done|simpl; lia].
  - rewrite pattern_cons in Hlike.
    assert (exists a t', t = (a ++ dot :: t')%list /\
              like_match (star_to_percent (join_dots (p' :: ps))) t' = true)
      as (a & t' & -> & Ht').
    { destruct Hp as [Hp|Hp].
      - apply is_star_eq in Hp. subst p.
        apply like_match_percent in Hlike as (a & b & -> & Hb).
        apply like_match_dot in Hb as (t' & -> & Ht'). by exists a, t'.
      - rewrite star_to_percent_plain in Hlike by done.
        apply like_match_plain in Hlike as (b & -> & Hb); [|done].
        apply like_match_dot in Hb as (t' & -> & Ht'). by exists p, t'. }
    specialize (IH t' ltac:(done) Hgood Ht').
    rewrite split_on_length in *. rewrite count_char_app. simpl in *. lia.
Qed.

Lemma like_labels_forward ps t :
  ps <> [] -> Forall good_label ps ->
  like_match (star_to_percent (join_dots ps)) t = true ->
  length (split_on dot t) = length ps ->
  Forall2 label_ok ps (split_on dot t).
Proof.
  revert t. induction ps as [|p ps IH]; intros t Hne Hgood Hlike Hlen; [done|].
  apply Forall_cons in Hgood as [[Hdf Hp] Hgood].
  destruct ps as [|p' ps].
  - simpl in Hlike.
    assert (dot_free t = true) as Ht.
    { apply count_char_dot_free. rewrite split_on_length in Hlen. simpl in Hlen. lia. }
    rewrite (split_on_dot_free _ Ht). constructor; [|constructor].
    destruct Hp as [Hp|Hp]; [by left|right].
    rewrite star_to_percent_plain in Hlike by done.
    rewrite <- (app_nil_r p) in Hlike.
    apply like_match_plain in Hlike as (t' & -> & Ht'); [|done].
    destruct t'; [by rewrite app_nil_r|done].
  - rewrite pattern_cons in Hlike.
    assert (exists a t', t = (a ++ dot :: t')%list /\ label_ok p a /\
              (is_star p = true \/ dot_free a = true) /\
              like_match (star_to_percent (join_dots (p' :: ps))) t' = true)
      as (a & t' & -> & Hok & Hdfa & Ht').
    { destruct Hp as [Hp|Hp].
      - pose proof Hp as Hp'. apply is_star_eq in Hp. subst p.
        apply like_match_percent in Hlike as (a & b & -> & Hb).
        apply like_match_dot in Hb as (t' & -> & Ht'). exists a, t'.
        repeat split; [by left|by left|done].
      - rewrite star_to_percent_plain in Hlike by done.
        apply like_match_plain in Hlike as (b & -> & Hb); [|done].
        apply like_match_dot in Hb as (t' & -> & Ht'). exists p, t'.
        repeat split; [by right|by right|done]. }
    pose proof (like_labels_lower_bound (p' :: ps) t' ltac:(done) Hgood Ht') as Hlow.
    assert (count_char dot a = 0%nat /\ length (split_on dot t') = length (p' :: ps))
      as [Ha Hlen'].
    { rewrite split_on_length in *. rewrite count_char_app in Hlen.
      simpl in *. lia. }
    apply count_char_dot_free in Ha.
    rewrite (split_on_app_dot _ _ Ha). constructor; [exact Hok|].
    by apply IH.
Qed.

Lemma like_labels_backward ps t :
  ps <> [] -> Forall good_label ps ->
  Forall2 label_ok ps (split_on dot t) ->
  like_match (star_to_percent (join_dots ps)) t = true.
Proof.
  revert t. induction ps as [|p ps IH]; intros t Hne Hgood Hall; [done|].
  apply Forall_cons in Hgood as [[Hdf Hp] Hgood].
  inversion Hall as [|p0 q ps0 qs Hpq Hrest Hp0 Hsplit]; subst.
  symmetry in Hsplit. destruct (split_on_inv _ _ _ Hsplit) as [Hq Hcase].
  destruct ps as [|p' ps].
  - inversion Hrest; subst.
    destruct Hcase as [[_ ->]|(s' & _ & Hs')]; [|by destruct (split_on_nonempty s')].
    simpl. destruct Hp as [Hp|Hp].
    + apply is_star_eq in Hp. subst p. apply like_match_percent.
      exists q, []. by rewrite app_nil_r.
    + destruct Hpq as [Hs| ->].
      * apply is_star_eq in Hs. subst p. apply like_match_percent.
        exists q, []. by rewrite app_nil_r.
      * rewrite star_to_percent_plain by done. rewrite <- (app_nil_r q) at 1.
        apply like_match_plain; [done|]. exists []. by rewrite app_nil_r.
  - destruct Hcase as [[-> _]|(s' & -> & Hs')]; [by inversion Hrest|].
    subst qs. specialize (IH s' ltac:(done) Hgood Hrest).
    rewrite pattern_cons.
    assert (like_match (dot :: star_to_percent (join_dots (p' :: ps))) (dot :: s') = true)
      as Hd by (apply like_match_dot; by exists s').
    destruct Hpq as [Hs| ->].
    + apply is_star_eq in Hs. subst p. apply like_match_percent.
      by exists q, (dot :: s').
    + destruct Hp as [Hp|Hp].
      * apply is_star_eq in Hp. subst q. apply like_match_percent.
        by exists ["*"%char], (dot :: s').
      * rewrite star_to_percent_plain by done.
        apply like_match_plain; [done|]. by exists (dot :: s').
Qed.

(** *** From texts to names *)

Lemma chars_empty s : chars s = [] <-> s = "".
Proof. by destruct s. Qed.

Lemma lower_chars_fixed P : LOWER P = P -> lower (chars P) = chars P.
Proof.
  unfold LOWER, chars. intros H.
  apply (f_equal list_ascii_of_string) in H.
  by rewrite list_ascii_of_string_of_list_ascii in H.
Qed.

Lemma map_fixed {A} (f : A -> A) l : map f l = l -> Forall (fun x => f x = x) l.
Proof.
  induction l as [|x l IH]; [constructor|]. simpl. intros H.
  inversion H as [[Hx Hl]]. rewrite Hx, Hl. constructor; [done|]. by apply IH.
Qed.

Lemma labels_lower_fixed s :
  lower s = s -> Forall (fun p => lower p = p) (split_on dot s).
Proof.
  intros H. apply map_fixed. by rewrite <- split_on_lower, H.
Qed.

Lemma labels_match_Forall2 ps qs :
  labels_match ps qs = true <->
  Forall2 (fun p q => is_star p = true \/ lower p = lower q) ps qs.
Proof.
  revert qs. induction ps as [|p ps IH]; intros [|q qs]; simpl.
  - split; [constructor|done].
  - split; [done|inversion 1].
  - split; [done|inversion 1].
  - rewrite andb_true_iff, orb_true_iff, list_eqb_eq, IH. split.
    + intros [H1 H2]. by constructor.
    + inversion 1; subst. done.
Qed.

Lemma labels_match_label_ok ps qs :
  Forall (fun p => lower p = p) ps ->
  labels_match ps qs = true <-> Forall2 label_ok ps (map lower qs).
Proof.
  intros Hlow. rewrite labels_match_Forall2, Forall2_fmap_r.
  revert qs. induction Hlow as [|p ps Hp _ IH]; intros qs.
  - split; inversion 1; constructor.
  - split; inversion 1; subst; constructor; try (by apply IH);
      unfold label_ok in *; rewrite Hp in *; done.
Qed.

Lemma labelled_pattern_good P :
  labelled_pattern P = true -> Forall good_label (labels (chars P)).
Proof.
  unfold labelled_pattern, labels. intros H.
  pose proof (split_on_all_dot_free (chars P)) as Hdf.
  rewrite forallb_forall in H. rewrite Forall_forall in *.
  intros l Hl. split; [by apply Hdf|].
  apply orb_true_iff, H. by apply list_elem_of_In.
Qed.

Lemma array_length_labels s :
  s <> [] -> array_length (string_to_array s) = Some (length (split_on dot s)).
Proof.
  intros H. unfold string_to_array. destruct s as [|c s]; [done|].
  unfold array_length.
  destruct (split_on dot (c :: s)) eqn:E; [by destruct (split_on_nonempty (c :: s))|].
  reflexivity.
Qed.

Lemma sql_eq_counts a b :
  sql_eq (array_length (string_to_array a)) (array_length (string_to_array b)) = true ->
  a <> [] /\ b <> [] /\ length (split_on dot a) = length (split_on dot b).
Proof.
  destruct a as [|x a]; [done|]. destruct b as [|y b].
  - rewrite array_length_labels by done. done.
  - rewrite !array_length_labels by done. simpl. intros H.
    apply Nat.eqb_eq in H. done.
Qed.

Lemma getRecords_where_value Q R :
  like_wf (star_to_percent (chars (rec_name R))) = true ->
  getRecords_where Q R
  = Ok (like_match (star_to_percent (chars (rec_name R))) (lower (chars Q))
        && sql_eq (array_length (string_to_array (chars (rec_name R))))
                  (array_length (string_to_array (chars Q)))).
Proof. intros H. unfold getRecords_where, LIKE. by rewrite H. Qed.

Lemma holds_Ok b : holds (Ok b) = b.
Proof. by destruct b. Qed.

(** The [WHERE] clause of [getRecords] on a name of labelled form. *)
Lemma getRecords_where_labelwise Q R :
  Q <> "" ->
  like_wf (star_to_percent (chars (rec_name R))) = true ->
  LOWER (rec_name R) = rec_name R ->
  labelled_pattern (rec_name R) = true ->
  holds (getRecords_where Q R) = true <-> matches_labelwise (rec_name R) Q = true.
Proof.
  intros HQ Hwf Hlow Hlab.
  assert (chars Q <> []) as HcQ by (by rewrite chars_empty).
  rewrite getRecords_where_value, holds_Ok, andb_true_iff by done.
  unfold matches_labelwise, labels.
  pose proof (labelled_pattern_good _ Hlab) as Hgood. unfold labels in Hgood.
  pose proof (labels_lower_fixed _ (lower_chars_fixed _ Hlow)) as Hfix.
  rewrite (labels_match_label_ok _ _ Hfix), <- split_on_lower.
  pose proof (split_on_nonempty (chars (rec_name R))) as Hne.
  split.
  - intros [Hlike Hcount]. apply sql_eq_counts in Hcount as (_ & _ & Hcount).
    apply like_labels_forward; [done|done| |].
    + by rewrite join_split.
    + by rewrite split_on_lower, length_map.
  - intros Hall. pose proof (Forall2_length _ _ _ Hall) as Hlen.
    rewrite split_on_lower, length_map in Hlen. split.
    + rewrite <- (join_split (chars (rec_name R))) at 1.
      by apply like_labels_backward.
    + destruct (chars (rec_name R)) as [|c cs] eqn:EP.
      * exfalso. simpl in Hall. inversion Hall as [|? q ? qs Hq Hqs]; subst.
        inversion Hqs; subst.
        assert (split_on dot (lower (chars Q)) = [q]) as Hsp by done.
        destruct Hq as [Hq|Hq]; [done|]. subst q.
        apply (f_equal join_dots) in Hsp. rewrite join_split in Hsp. simpl in Hsp.
        destruct (chars Q); done.
      * rewrite !array_length_labels by done. simpl. by apply Nat.eqb_eq.
Qed.

(** C3, as the code has it.  For a query that is not empty, on a store
    whose names are valid patterns: every record returned has as many
    labels as the query; and a record whose name is lower-case and made of
    labels that are each [*] or free of [*], [%], [_] and the backslash is
    returned exactly when the label counts are equal and each label other
    than [*] equals the query's label at the same place, letter case
    apart. *)
Theorem getRecords_matches_labelwise db Q :
  Q <> "" ->
  Forall (fun r => like_wf (star_to_percent (chars (rec_name r))) = true)
         (records db) ->
  exists rows,
    getRecords Q db = Ok rows /\
    (forall R, In R rows ->
       In R (records db) /\
       length (labels (chars (rec_name R))) = length (labels (chars Q))) /\
    (forall R, In R (records db) ->
       LOWER (rec_name R) = rec_name R ->
       labelled_pattern (rec_name R) = true ->
       (In R rows <-> matches_labelwise (rec_name R) Q = true)).
Proof.
  intros HQ Hwf.
  destruct (ResolutionFacts.select_where_total (getRecords_where Q) (records db))
    as [l Hl].
  { eapply Forall_impl; [exact Hwf|]. intros r Hr. cbv beta in Hr.
    by rewrite getRecords_where_value. }
  assert (getRecords Q db = Ok (order_by_timestamp l)) as Hrun.
  { unfold getRecords. by rewrite Hl. }
  exists (order_by_timestamp l). split; [exact Hrun|].
  apply ResolutionFacts.select_where_filter in Hl.
  assert (forall R, In R (order_by_timestamp l) <->
                    In R (records db) /\ holds (getRecords_where Q R) = true) as Hin.
  { intros R. unfold order_by_timestamp.
    rewrite <- list_elem_of_In, merge_sort_Permutation, list_elem_of_In.
    subst l. apply filter_In. }
  split.
  - intros R HR. apply Hin in HR as [HR Hholds]. split; [exact HR|].
    rewrite Forall_forall in Hwf.
    rewrite getRecords_where_value, holds_Ok in Hholds
      by (apply Hwf; by apply list_elem_of_In).
    apply andb_true_iff in Hholds as [_ Hcount].
    by apply sql_eq_counts in Hcount as (_ & _ & Hcount).
  - intros R HR Hlow Hlab. rewrite Hin.
    rewrite Forall_forall in Hwf.
    rewrite <- (getRecords_where_labelwise Q R)
      by (try done; apply Hwf; by apply list_elem_of_In).
    tauto.
Qed.

(** *** Names are stored in lower case *)

Lemma LOWER_idem s : LOWER (LOWER s) = LOWER s.
Proof.
  unfold LOWER, chars. rewrite list_ascii_of_string_of_list_ascii. f_equal.
  unfold lower. rewrite map_map. apply map_ext. intros c. apply lower_ascii_idem.
Qed.

Lemma pushRecord_stores_lower uuid now name type ttl value db row db' :
  pushRecord uuid now name type ttl value db = (Ok row, db') ->
  LOWER (rec_name row) = rec_name row /\
  rec_timestamp row = now /\
  records db' = (records db ++ [row])%list.
Proof.
  unfold pushRecord. destruct (int4_in ttl); [|done].
  destruct (varchar20 type); [|done].
  destruct (existsb _ _); [done|].
  inversion 1; subst. cbn [rec_name rec_timestamp records set_records].
  by rewrite LOWER_idem.
Qed.

Import Samples.

Lemma getRecords_matches_labelwise_witness :
  exists rows,
    getRecords "X.Example.com" db_records = Ok rows /\
    (forall R, In R rows ->
       length (labels (chars (rec_name R))) = 3%nat) /\
    In rec_wild rows /\ ~ In rec_a rows.
Proof.
  destruct (getRecords_matches_labelwise db_records "X.Example.com")
    as (rows & Hrun & Hcount & Hiff).
  - discriminate.
  - repeat (constructor; [reflexivity|]). constructor.
  - exists rows. split; [exact Hrun|]. split; [|split].
    + intros R HR. by destruct (Hcount R HR) as [_ ->].
    + apply (Hiff rec_wild); [right; by left|reflexivity..].
    + intros HR. apply (Hiff rec_a) in HR; [|by left|reflexivity..].
      vm_compute in HR. discriminate.
Defined.

(** C3, as the specification words it, fails on a name with a star inside
    a label.  [a*.com] is returned for [abc.com], whose first label differs
    from the label [a*]; and it is not returned for [xyz.com], so the label
    [a*] does not stand for any one label either. *)
Lemma getRecords_partial_wildcard :
  getRecords "abc.com" db_partial = Ok [rec_partial] /\
  length (labels (chars (rec_name rec_partial))) = length (labels (chars "abc.com")) /\
  matches_labelwise (rec_name rec_partial) "abc.com" = false /\
  getRecords "xyz.com" db_partial = Ok [].
Proof. repeat split; vm_compute; reflexivity. Qed.

(** The other pattern characters of [LIKE] are live in a stored name as
    well: an underscore stands for any one character. *)
Example getRecords_underscore :
  getRecords "xdmarc.example.com" db_underscore = Ok [rec_underscore] /\
  matches_labelwise (rec_name rec_underscore) "xdmarc.example.com" = false.
Proof. repeat split; vm_compute; reflexivity. Qed.

(** The scenarios of the specification. *)
Example getRecords_scenarios :
  getRecords "a.example.com" db_records = Ok [rec_wild; rec_a] /\
  getRecords "x.example.com" db_records = Ok [rec_wild] /\
  getRecords "x.y.example.com" db_records = Ok [] /\
  getRecords "" db_records = Ok [].
Proof. repeat split; vm_compute; reflexivity. Qed.

End WildcardFacts.


(** ** The pattern fragment: flag [i] *)

Module FragmentFacts.
Import Text Fragment.

Lemma is_line_terminator_lower c :
  is_line_terminator (lower_ascii c) = is_line_terminator c.
Proof. destruct c as [[] [] [] [] [] [] [] []]; reflexivity. Qed.

Lemma atom_ok_lower a x : atom_ok true a (lower_ascii x) = atom_ok true a x.
Proof.
  destruct a as [c|]; simpl.
  - by rewrite WildcardFacts.lower_ascii_idem.
  - by rewrite is_line_terminator_lower.
Qed.

Lemma match_here_lower its b s :
  match_here true its b (lower s) = match_here true its b s.
Proof.
  revert b s. induction its as [|it its IH]; intros b s; [reflexivity|].
  destruct it as [| |a q].
  - cbn [match_here]. by rewrite IH.
  - cbn [match_here]. destruct s as [|x s]; [|reflexivity]. apply (IH b []).
  - cbn [match_here].
    set (star := fix star (s : list ascii) (at_start : bool) {struct s} : bool :=
            match_here true its at_start s ||
            match s with
            | [] => false
            | x :: s' => atom_ok true a x && star s' false
            end).
    assert (forall s b, star (lower s) b = star s b) as Hstar.
    { intros s0. induction s0 as [|x s0 IHs]; intros b0.
      - reflexivity.
      - cbn [lower map]. fold (lower s0). cbn [star].
        fold star.
        change (lower_ascii x :: lower s0) with (lower (x :: s0)).
        rewrite IH, atom_ok_lower, IHs. reflexivity. }
    destruct q.
    all: destruct s as [|x s]; [try reflexivity|].
    all: try (change (lower (x :: s)) with (lower_ascii x :: lower s);
              cbv beta iota; rewrite ?atom_ok_lower, ?IH, ?Hstar).
    + reflexivity.
    + apply (Hstar (x :: s) b).
    + reflexivity.
    + change (lower_ascii x :: lower s) with (lower (x :: s)). by rewrite IH.
Qed.

Lemma search_lower its b s : search true its b (lower s) = search true its b s.
Proof.
  revert b. induction s as [|x s IH]; intros b.
  - reflexivity.
  - change (lower (x :: s)) with (lower_ascii x :: lower s).
    cbn [search]. rewrite IH.
    change (lower_ascii x :: lower s) with (lower (x :: s)).
    by rewrite match_here_lower.
Qed.

(** Flag [i]: the letter case of the text does not matter. *)
Lemma String_match_ignores_case source re text :
  new_RegExp source "i" = Ok re ->
  String_match (LOWER text) re = String_match text re.
Proof.
  unfold new_RegExp. destruct (compile source "i"); [|done..].
  intros H. inversion H; subst. unfold String_match, LOWER, chars. cbn [ignoreCase items].
  rewrite list_ascii_of_string_of_list_ascii.
  change (String.eqb "i" "i") with true. apply search_lower.
Qed.

Import Store Resolution Wording.

Lemma rule_test_ignores_case domain r :
  rule_test (LOWER domain) r = rule_test domain r.
Proof.
  unfold rule_test, mbind, Result_bind.
  match goal with
  | |- context [match ?c with Ok _ => _ | Throw _ => _ end] =>
      destruct c as [re|e] eqn:E; [|reflexivity]
  end.
  f_equal. by apply (String_match_ignores_case (rule r)).
Qed.

(** With this engine the lookup does not depend on the letter case of the
    domain. *)
Lemma getProxyDNS_ignores_case domain db :
  getProxyDNS (LOWER domain) db = getProxyDNS domain db.
Proof.
  unfold getProxyDNS. induction (getAllProxyRules db) as [|r rules IH]; [reflexivity|].
  by rewrite !ProxyFacts.scan_rules_cons, rule_test_ignores_case, IH.
Qed.

End FragmentFacts.


(** ** The other queries of the store *)

Module CrudFacts.
Import Text Sql Store Crud Wording Vocabulary.

(** *** [LIKE] on patterns without escapes *)

Lemma like_match_underscore p x t :
  like_match ("_"%char :: p) (x :: t) = like_match p t.
Proof. reflexivity. Qed.

Lemma star_to_percent_no_backslash t :
  no_backslash (star_to_percent t) = no_backslash t.
Proof.
  induction t as [|c t IH]; [reflexivity|]. cbn [star_to_percent map no_backslash forallb].
  fold (star_to_percent t). fold (no_backslash (star_to_percent t)).
  fold (no_backslash t). rewrite IH. f_equal.
  destruct (Ascii.eqb_spec c "*") as [->|]; reflexivity.
Qed.

Lemma lower_no_backslash t : no_backslash (lower t) = no_backslash t.
Proof.
  induction t as [|c t IH]; [reflexivity|]. cbn [lower map no_backslash forallb].
  fold (lower t). fold (no_backslash (lower t)). fold (no_backslash t).
  rewrite IH. f_equal.
  destruct c as [[] [] [] [] [] [] [] []]; reflexivity.
Qed.

Lemma no_backslash_like_wf p : no_backslash p = true -> like_wf p = true.
Proof.
  induction p as [|c p IH]; [reflexivity|]. cbn [no_backslash forallb].
  intros H. apply andb_true_iff in H as [Hc Hp]. apply negb_true_iff in Hc.
  cbn [like_wf]. rewrite Hc. by apply IH.
Qed.

(** A text without backslash matches the pattern made from itself. *)
Lemma like_match_self t :
  no_backslash t = true -> like_match (star_to_percent t) t = true.
Proof.
  induction t as [|c t IH]; [reflexivity|]. cbn [no_backslash forallb].
  intros H. apply andb_true_iff in H as [Hc Hp]. apply negb_true_iff in Hc.
  specialize (IH Hp). cbn [star_to_percent map]. fold (star_to_percent t).
  destruct (Ascii.eqb_spec c "*") as [->|Hstar].
  - apply WildcardFacts.like_match_percent. by exists ["*"%char], t.
  - destruct (Ascii.eqb_spec c "%") as [->|Hpct].
    + apply WildcardFacts.like_match_percent. by exists ["%"%char], t.
    + destruct (Ascii.eqb_spec c "_") as [->|Hund].
      * by rewrite like_match_underscore.
      * rewrite WildcardFacts.like_match_literal;
          [by rewrite Ascii.eqb_refl| |  |exact Hc]; by apply Ascii.eqb_neq.
Qed.

Lemma like_match_exact l t :
  like_literal l = true -> like_match l t = true <-> t = l.
Proof.
  revert t. induction l as [|c l IH]; intros t Hl.
  - destruct t; simpl; split; done.
  - cbn [like_literal forallb] in Hl. apply andb_true_iff in Hl as [Hc Hl].
    apply negb_true_iff in Hc. apply orb_false_iff in Hc as [Hc H3].
    apply orb_false_iff in Hc as [H1 H2].
    rewrite WildcardFacts.like_match_literal by done.
    destruct t as [|x t]; [split; done|].
    rewrite andb_true_iff, Ascii.eqb_eq, (IH t Hl). split.
    + by intros [-> ->].
    + by inversion 1.
Qed.

Lemma like_match_suffix l t :
  like_literal l = true ->
  like_match ("%"%char :: l) t = true <-> l `suffix_of` t.
Proof.
  intros Hl. rewrite WildcardFacts.like_match_percent. split.
  - intros (a & b & -> & Hb). apply (like_match_exact _ _ Hl) in Hb. subst b.
    by exists a.
  - intros [a ->]. exists a, l. split; [done|]. by apply like_match_exact.
Qed.

Lemma like_literal_lower l : like_literal (lower l) = like_literal l.
Proof.
  induction l as [|c l IH]; [reflexivity|]. cbn [lower map like_literal forallb].
  fold (lower l). fold (like_literal (lower l)). fold (like_literal l).
  rewrite IH. f_equal.
  destruct c as [[] [] [] [] [] [] [] []]; reflexivity.
Qed.

Lemma like_literal_wf l : like_literal l = true -> like_wf l = true.
Proof.
  induction l as [|c l IH]; [reflexivity|]. cbn [like_literal forallb].
  intros H. apply andb_true_iff in H as [Hc Hl]. apply negb_true_iff in Hc.
  apply orb_false_iff in Hc as [_ Hc]. cbn [like_wf]. rewrite Hc. by apply IH.
Qed.

Lemma chars_inj a b : chars a = chars b -> a = b.
Proof.
  unfold chars. intros H. apply (f_equal string_of_list_ascii) in H.
  by rewrite !string_of_list_ascii_of_string in H.
Qed.

Lemma chars_LOWER s : chars (LOWER s) = lower (chars s).
Proof. unfold LOWER, chars. apply list_ascii_of_string_of_list_ascii. Qed.

Lemma In_order_by_timestamp r rows :
  In r (order_by_timestamp rows) <-> In r rows.
Proof.
  unfold order_by_timestamp.
  by rewrite <- !list_elem_of_In, merge_sort_Permutation.
Qed.


Lemma pushRecord_row uuid now name type ttl value db row db' :
  pushRecord uuid now name type ttl value db = (Ok row, db') ->
  rec_id row = uuid /\ rec_name row = LOWER name /\
  db' = set_records (records db ++ [row]) db /\
  forallb (fun r => negb (String.eqb (rec_id r) uuid)) (records db) = true.
Proof.
  unfold pushRecord. destruct (int4_in ttl); [|done].
  destruct (varchar20 type); [|done].
  destruct (existsb _ _) eqn:E; [done|]. inversion 1; subst.
  repeat split. clear -E. induction (records db) as [|r l IH]; [done|].
  simpl in *. apply orb_false_iff in E as [-> E]. by rewrite IH.
Qed.

(** X1. A record stored by [pushRecord] under a name that is not empty and
    holds no backslash is returned by [getRecords] for that name, in any
    letter case, provided the names already stored are valid patterns. *)
Theorem pushed_record_is_resolved uuid now name type ttl value db row db' Q :
  pushRecord uuid now name type ttl value db = (Ok row, db') ->
  name <> "" ->
  no_backslash (chars name) = true ->
  LOWER Q = LOWER name ->
  Forall (fun r => like_wf (star_to_percent (chars (rec_name r))) = true)
         (records db) ->
  exists rows, getRecords Q db' = Ok rows /\ In row rows.
Proof.
  intros Hpush Hne Hnb HQ Hwf.
  apply pushRecord_row in Hpush as (_ & Hname & -> & _).
  assert (no_backslash (lower (chars name)) = true) as Hnb'
    by by rewrite lower_no_backslash.
  assert (like_wf (star_to_percent (chars (rec_name row))) = true) as Hrow.
  { apply no_backslash_like_wf.
    by rewrite star_to_percent_no_backslash, Hname, chars_LOWER. }
  assert (getRecords_where Q row = Ok true) as Hmatch.
  { rewrite WildcardFacts.getRecords_where_value by done.
    assert (chars (rec_name row) = lower (chars name)) as ->
      by by rewrite Hname, chars_LOWER.
    assert (lower (chars Q) = lower (chars name)) as HQl
      by by rewrite <- !chars_LOWER, HQ.
    rewrite HQl, like_match_self by done.
    assert (chars name <> []) as Hcn by by rewrite WildcardFacts.chars_empty.
    assert (lower (chars name) <> []) as Hln by by destruct (chars name).
    assert (chars Q <> []) as HcQ.
    { intros E. rewrite E in HQl. by destruct (chars name). }
    rewrite !WildcardFacts.array_length_labels by done.
    cbn [andb sql_eq]. f_equal. apply Nat.eqb_eq.
    rewrite <- HQl, WildcardFacts.split_on_lower. by rewrite length_map. }
  destruct (ResolutionFacts.select_where_total (getRecords_where Q)
              (records db ++ [row])) as [l Hl].
  { apply Forall_app. split.
    - eapply Forall_impl; [exact Hwf|]. intros r Hr. cbv beta in Hr.
      by rewrite WildcardFacts.getRecords_where_value.
    - constructor; [by rewrite Hmatch|constructor]. }
  exists (order_by_timestamp l). split.
  - unfold getRecords. cbn [records set_records]. by rewrite Hl.
  - apply In_order_by_timestamp.
    apply ResolutionFacts.select_where_filter in Hl. subst l.
    apply filter_In. split; [apply in_or_app; right; by left|].
    by rewrite Hmatch.
Qed.

(** X2. [deleteRecordByName] compares the name as given, while names are
    stored in lower case: after [pushRecord] under a name, deleting by
    that same name removes the new record exactly when the name was in
    lower case already. *)
Theorem deleteRecordByName_needs_lower_case uuid now name type ttl value db row db' :
  pushRecord uuid now name type ttl value db = (Ok row, db') ->
  (In row (records (snd (deleteRecordByName name db'))) <-> LOWER name <> name) /\
  (LOWER name <> name ->
   Forall (fun r => LOWER (rec_name r) = rec_name r) (records db) ->
   deleteRecordByName name db' = (Ok tt, db')).
Proof.
  intros Hpush. apply pushRecord_row in Hpush as (_ & Hname & -> & _).
  unfold deleteRecordByName. cbn [snd records set_records]. split.
  - rewrite filter_In, negb_true_iff, String.eqb_neq, Hname. split; [by intros [_ H]|].
    intros H. split; [apply in_or_app; right; by left|exact H].
  - intros Hnl Hlow. f_equal.
    rewrite IssuanceFacts.filter_all; [by destruct db|].
    intros r Hr. apply negb_true_iff, String.eqb_neq. intros E.
    apply in_app_or in Hr as [Hr|[<-|[]]].
    + rewrite Forall_forall in Hlow. apply list_elem_of_In in Hr.
      specialize (Hlow r Hr). congruence.
    + congruence.
Qed.

(** X3. The record pushed under a drawn id is the one [getRecordByID]
    returns for any spelling of that id PostgreSQL reads, and deleting by
    the id brings the table back to what it was. *)
Theorem pushed_record_found_by_id uuid now name type ttl value db row db' id :
  pushRecord uuid now name type ttl value db = (Ok row, db') ->
  uuid_in id = Ok uuid ->
  getRecordByID id db' = Ok (Some row) /\
  deleteRecordByID id db' = (Ok tt, db) /\
  getRecordByID id db = Ok None.
Proof.
  intros Hpush Hid. apply pushRecord_row in Hpush as (Hrid & _ & -> & Hfresh).
  rewrite forallb_forall in Hfresh.
  assert (List.filter (fun r => String.eqb (rec_id r) uuid) (records db) = []) as Hnone.
  { induction (records db) as [|r l IH]; [done|]. simpl.
    pose proof (Hfresh r (or_introl eq_refl)) as Hr. apply negb_true_iff in Hr.
    rewrite Hr. apply IH. intros x Hx. apply Hfresh. by right. }
  unfold getRecordByID, deleteRecordByID. rewrite Hid.
  unfold mbind, Result_bind, mret, Result_ret. cbn [records set_records].
  split; [|split].
  - rewrite List.filter_app, Hnone. simpl. by rewrite Hrid, String.eqb_refl.
  - f_equal. rewrite List.filter_app. simpl. rewrite Hrid, String.eqb_refl. simpl.
    rewrite app_nil_r, IssuanceFacts.filter_all; [by destruct db|].
    exact Hfresh.
  - by rewrite Hnone.
Qed.

Lemma same_id_same_record rs a b :
  NoDup (map rec_id rs) -> In a rs -> In b rs -> rec_id a = rec_id b -> a = b.
Proof.
  induction rs as [|c rs IH]; [done|]. simpl. intros Hnd Ha Hb Hid.
  apply NoDup_cons in Hnd as [Hc Hnd].
  assert (forall x, In x rs -> rec_id x <> rec_id c) as Hne.
  { intros x Hx Hxc. apply Hc. rewrite <- Hxc.
    apply list_elem_of_In, in_map, Hx. }
  destruct Ha as [->|Ha], Hb as [->|Hb]; [done| | |by apply IH].
  - exfalso. by apply (Hne b Hb).
  - exfalso. by apply (Hne a Ha).
Qed.

(** X4. [updateRecord] rewrites the one row that has the id: it keeps the
    id and the timestamp, stores the name in lower case, leaves every
    other row and the number of rows as they were, and returns the new
    version, which [getRecordByID] then finds; with no such row it returns
    nothing and changes nothing. *)
Theorem updateRecord_rewrites_one_row id u name type type' ttl value db :
  uuid_in id = Ok u ->
  int4_in ttl = Ok ttl ->
  varchar20 type = Ok type' ->
  NoDup (map rec_id (records db)) ->
  ((forall r, In r (records db) -> rec_id r <> u) ->
   updateRecord id name type ttl value db = (Ok None, db)) /\
  (forall old, In old (records db) -> rec_id old = u ->
     exists db',
       updateRecord id name type ttl value db
       = (Ok (Some (mkRecord u (LOWER name) type' ttl value (rec_timestamp old))),
          db') /\
       (forall r, In r (records db') <->
                  r = mkRecord u (LOWER name) type' ttl value (rec_timestamp old)
                  \/ (In r (records db) /\ rec_id r <> u)) /\
       length (records db') = length (records db) /\
       getRecordByID id db'
       = Ok (Some (mkRecord u (LOWER name) type' ttl value (rec_timestamp old)))).
Proof.
  intros Hid Httl Hty Hpk. unfold updateRecord. rewrite Hid, Httl. split.
  - intros Hnone.
    assert (existsb (fun r => String.eqb (rec_id r) u) (records db) = false) as ->;
      [|reflexivity].
    apply not_true_is_false. intros E. apply existsb_exists in E as (r & Hr & E).
    apply String.eqb_eq in E. by apply (Hnone r).
  - intros old Hold Hu.
    assert (existsb (fun r => String.eqb (rec_id r) u) (records db) = true) as ->.
    { apply existsb_exists. exists old. split; [done|]. by apply String.eqb_eq. }
    rewrite Hty.
    set (new := mkRecord u (LOWER name) type' ttl value (rec_timestamp old)).
    set (upd := fun r : DnsRecord =>
                  if String.eqb (rec_id r) u
                  then mkRecord (rec_id r) (LOWER name) type' ttl value (rec_timestamp r)
                  else r).
    assert (forall r, In r (records db) -> rec_id r = u -> upd r = new) as Hupd.
    { intros r Hr Hru. unfold upd. rewrite (proj2 (String.eqb_eq _ _) Hru).
      assert (r = old) as -> by (apply (same_id_same_record (records db)); congruence).
      unfold new. by rewrite Hu. }
    assert (forall r, rec_id (upd r) = rec_id r) as Hsame.
    { intros r. unfold upd. by destruct (String.eqb (rec_id r) u). }
    assert (forall r, In r (map upd (records db)) <->
                      r = new \/ (In r (records db) /\ rec_id r <> u)) as Hin.
    { intros r. rewrite in_map_iff. split.
      - intros (x & <- & Hx). destruct (String.eqb_spec (rec_id x) u) as [E|E].
        + left. by apply Hupd.
        + right. unfold upd. rewrite (proj2 (String.eqb_neq _ _) E). done.
      - intros [->|[Hr Hne]].
        + exists old. split; [by apply Hupd|done].
        + exists r. split; [|done]. unfold upd.
          by rewrite (proj2 (String.eqb_neq _ _) Hne). }
    assert (head (List.filter (fun r => String.eqb (rec_id r) u) (map upd (records db)))
            = Some new) as Hhead.
    { destruct (List.filter _ (map upd (records db))) as [|x l] eqn:E.
      - exfalso. assert (In new (List.filter (fun r => String.eqb (rec_id r) u)
                                    (map upd (records db)))) as Hn.
        { apply filter_In. split; [apply Hin; by left|]. apply String.eqb_refl. }
        by rewrite E in Hn.
      - assert (In x (List.filter (fun r => String.eqb (rec_id r) u)
                        (map upd (records db)))) as Hx by (rewrite E; by left).
        apply filter_In in Hx as [Hx Hxu]. apply String.eqb_eq in Hxu.
        apply Hin in Hx as [->|[_ Hne]]; [reflexivity|done]. }
    eexists. split; [by rewrite Hhead|]. cbn [records set_records].
    split; [exact Hin|]. split; [apply length_map|].
    unfold getRecordByID. rewrite Hid. unfold mbind, Result_bind, mret, Result_ret.
    cbn [records set_records]. by rewrite Hhead.
Qed.

(** X5. For a base in which [LIKE] reads every character as itself,
    [getRecordsByBase] returns, oldest first, exactly the records named as
    the base in lower case or ending in a dot followed by it; the ownership
    record of the base is among them. *)
Theorem getRecordsByBase_returns_subdomains base db :
  like_literal (chars base) = true ->
  exists rows,
    getRecordsByBase base db = Ok rows /\
    StronglySorted timestamp_le rows /\
    (forall r, In r rows <->
               In r (records db) /\
               (rec_name r = LOWER base \/
                (dot :: lower (chars base)) `suffix_of` chars (rec_name r))) /\
    (forall r, In r (records db) -> rec_name r = "-." ++ LOWER base -> In r rows).
Proof.
  intros Hlit.
  assert (like_literal (dot :: lower (chars base)) = true) as Hlit'.
  { cbn [like_literal forallb]. fold (like_literal (lower (chars base))).
    by rewrite like_literal_lower, Hlit. }
  assert (forall r, getRecordsByBase_where base r
                    = Ok (String.eqb (rec_name r) (LOWER base)
                          || like_match ("%"%char :: dot :: lower (chars base))
                                        (chars (rec_name r)))) as Hwhere.
  { intros r. unfold getRecordsByBase_where, LIKE.
    destruct (String.eqb (rec_name r) (LOWER base)); [reflexivity|].
    change (like_wf ("%"%char :: dot :: lower (chars base)))
      with (like_wf (dot :: lower (chars base))).
    by rewrite like_literal_wf. }
  assert (forall r, In r (order_by_timestamp
                            (List.filter
                               (fun r => String.eqb (rec_name r) (LOWER base)
                                         || like_match ("%"%char :: dot :: lower (chars base))
                                                       (chars (rec_name r)))
                               (records db))) <->
                    In r (records db) /\
                    (rec_name r = LOWER base \/
                     (dot :: lower (chars base)) `suffix_of` chars (rec_name r))) as Hin.
  { intros r. rewrite In_order_by_timestamp, filter_In, orb_true_iff,
      String.eqb_eq, like_match_suffix by done. reflexivity. }
  eexists. split; [|split; [|split]].
  - unfold getRecordsByBase. rewrite (IssuanceFacts.select_where_pure _ _ _ Hwhere).
    reflexivity.
  - apply StronglySorted_merge_sort; apply _.
  - exact Hin.
  - intros r Hr Hname. apply Hin. split; [done|]. right.
    exists ["-"%char]. rewrite Hname.
    change (chars ("-." ++ LOWER base)) with ("-"%char :: dot :: chars (LOWER base)).
    by rewrite chars_LOWER.
Qed.

(** X6. For such a base [getCertsByBase] returns exactly the pairs whose
    domain is the base, compared as written, or ends in a dot followed by
    it, except the pairs of the domain ["-." ++ base]. *)
Theorem getCertsByBase_skips_ownership_domain base db :
  like_literal (chars base) = true ->
  exists rows,
    getCertsByBase base db = Ok rows /\
    (forall c, In c rows <->
               In c (certs db) /\
               (cert_domain c = base \/
                (dot :: chars base) `suffix_of` chars (cert_domain c)) /\
               cert_domain c <> "-." ++ base).
Proof.
  intros Hlit.
  assert (like_literal (dot :: chars base) = true) as Hlit'.
  { cbn [like_literal forallb]. fold (like_literal (chars base)). by rewrite Hlit. }
  assert (forall c, getCertsByBase_where base c
                    = Ok ((String.eqb (cert_domain c) base
                           || like_match ("%"%char :: dot :: chars base)
                                         (chars (cert_domain c)))
                          && negb (String.eqb (cert_domain c) ("-." ++ base)))) as Hwhere.
  { intros c. unfold getCertsByBase_where, LIKE.
    destruct (String.eqb (cert_domain c) base); [reflexivity|].
    change (like_wf ("%"%char :: dot :: chars base)) with (like_wf (dot :: chars base)).
    by rewrite like_literal_wf. }
  eexists. split.
  - unfold getCertsByBase. apply (IssuanceFacts.select_where_pure _ _ _ Hwhere).
  - intros c. rewrite filter_In, andb_true_iff, orb_true_iff, negb_true_iff,
      String.eqb_eq, String.eqb_neq, like_match_suffix by done. reflexivity.
Qed.

(** *** Proxy rules *)

Section WithEngine.
Context {engine : RegExpEngine}.
Import Resolution.

Lemma scan_rules_app rules rules' domain :
  scan_rules (rules ++ rules') domain
  = match scan_rules rules domain with
    | Ok None => scan_rules rules' domain
    | earlier => earlier
    end.
Proof.
  induction rules as [|r rules IH]; [reflexivity|].
  rewrite <- app_comm_cons, !ProxyFacts.scan_rules_cons.
  destruct (rule_test domain r) as [[|]|e]; [reflexivity|exact IH|reflexivity].
Qed.

(** X7. [pushProxyRule] stores the pattern as given, unchecked, among the
    rules already there, which keep their order; where among them, the
    queries do not fix.  Wherever it lands: a lookup for a domain the new
    rule does not match is unchanged; a lookup that found nothing now
    returns the new address if the new rule matches, nothing if it does
    not, and throws if its pattern does not compile; and every lookup is
    either unchanged or decided by the new rule. *)
Theorem pushed_rule_at_any_place uuid ruleRegex addr0 place db r db' domain :
  pushProxyRule uuid ruleRegex addr0 place db = (Ok r, db') ->
  r = mkRule uuid ruleRegex addr0
  /\ (exists pre post,
        proxy_rules db = (pre ++ post)%list
        /\ proxy_rules db' = (pre ++ r :: post)%list)
  /\ (rule_test domain r = Ok false ->
      getProxyDNS domain db' = getProxyDNS domain db)
  /\ (getProxyDNS domain db = Ok None ->
      getProxyDNS domain db'
      = match rule_test domain r with
        | Ok true => Ok (Some addr0)
        | Ok false => Ok None
        | Throw e => Throw e
        end)
  /\ (getProxyDNS domain db' = getProxyDNS domain db
      \/ (rule_test domain r = Ok true /\ getProxyDNS domain db' = Ok (Some addr0))
      \/ (exists e, rule_test domain r = Throw e /\ getProxyDNS domain db' = Throw e)).
Proof.
  unfold pushProxyRule. destruct (existsb _ _); [done|]. inversion 1; subst.
  split; [reflexivity|]. unfold getProxyDNS, getAllProxyRules. cbn [proxy_rules].
  remember (firstn place (proxy_rules db)) as pre eqn:Hpre.
  remember (skipn place (proxy_rules db)) as post eqn:Hpost.
  assert (proxy_rules db = (pre ++ post)%list) as ->
    by (subst; symmetry; apply firstn_skipn).
  split; [by exists pre, post|].
  rewrite !scan_rules_app, ProxyFacts.scan_rules_cons. cbn [addr].
  destruct (scan_rules pre domain) as [[a|]|e];
    destruct (rule_test domain (mkRule uuid ruleRegex addr0)) as [[|]|e'];
    (split; [|split]);
    try (intros; done);
    try (by left);
    try (right; left; done);
    right; right; by eexists.
Qed.

End WithEngine.

Import Resolution Samples MoreSamples.

Lemma pushed_record_is_resolved_witness :
  exists rows, getRecords "MAIL.example.COM" db_mail = Ok rows /\ In rec_mail rows.
Proof.
  apply (pushed_record_is_resolved "3f0c6a52-0000-4000-8000-000000000004"
           1700000003000 "Mail.Example.com" "A" 60 "10.0.0.7" db_records).
  - vm_compute. reflexivity.
  - discriminate.
  - reflexivity.
  - vm_compute. reflexivity.
  - repeat (constructor; [reflexivity|]). constructor.
Defined.

Lemma deleteRecordByName_needs_lower_case_witness :
  In rec_mail (records (snd (deleteRecordByName "Mail.Example.com" db_mail))) /\
  deleteRecordByName "Mail.Example.com" db_mail = (Ok tt, db_mail).
Proof.
  destruct (deleteRecordByName_needs_lower_case
              "3f0c6a52-0000-4000-8000-000000000004"
              1700000003000 "Mail.Example.com" "A" 60 "10.0.0.7" db_records
              rec_mail db_mail) as [Hiff Hsame].
  - vm_compute. reflexivity.
  - split.
    + apply Hiff. intros H. vm_compute in H. discriminate.
    + apply Hsame.
      * intros H. vm_compute in H. discriminate.
      * repeat (constructor; [reflexivity|]). constructor.
Defined.

Lemma pushed_record_found_by_id_witness :
  getRecordByID "{3F0C6A52-0000-4000-8000-000000000004}" db_mail = Ok (Some rec_mail) /\
  deleteRecordByID "{3F0C6A52-0000-4000-8000-000000000004}" db_mail
  = (Ok tt, db_records) /\
  getRecordByID "{3F0C6A52-0000-4000-8000-000000000004}" db_records = Ok None.
Proof.
  apply (pushed_record_found_by_id "3f0c6a52-0000-4000-8000-000000000004"
           1700000003000 "Mail.Example.com" "A" 60 "10.0.0.7").
  - vm_compute. reflexivity.
  - vm_compute. reflexivity.
Defined.

Lemma updateRecord_rewrites_one_row_witness :
  exists db',
    updateRecord "7B1E0000-0000-4000-8000-00000000000A" "B.Example.com" "AAAA" 120
                 "::1" db_records
    = (Ok (Some rec_a_updated), db') /\
    length (records db') = 2%nat /\
    getRecordByID "7B1E0000-0000-4000-8000-00000000000A" db' = Ok (Some rec_a_updated).
Proof.
  destruct (updateRecord_rewrites_one_row "7B1E0000-0000-4000-8000-00000000000A"
              "7b1e0000-0000-4000-8000-00000000000a" "B.Example.com" "AAAA" "AAAA"
              120 "::1" db_records) as [_ Hsome].
  - vm_compute. reflexivity.
  - reflexivity.
  - reflexivity.
  - apply (bool_decide_unpack _). vm_compute. exact I.
  - destruct (Hsome rec_a) as (db' & Hrun & _ & Hlen & Hget).
    + by left.
    + reflexivity.
    + exists db'. split; [exact Hrun|]. split; [exact Hlen|exact Hget].
Defined.

Lemma getRecordsByBase_returns_subdomains_witness :
  exists rows,
    getRecordsByBase "Example.com" db_owned = Ok rows /\
    In rec_a rows /\ In rec_wild rows /\ In rec_owner rows.
Proof.
  destruct (getRecordsByBase_returns_subdomains "Example.com" db_owned eq_refl)
    as (rows & Hrun & _ & Hin & Howner).
  exists rows. split; [exact Hrun|]. split; [|split].
  - apply Hin. split; [by left|]. right. by exists ["a"%char].
  - apply Hin. split; [right; by left|]. right. by exists ["*"%char].
  - apply Howner; [right; right; by left|reflexivity].
Defined.

Lemma getCertsByBase_skips_ownership_domain_witness :
  exists rows,
    getCertsByBase "example.com" db_leaf = Ok rows /\
    In (leaf_pair draw2 "example.com" "priv1") rows /\
    ~ In (ca_pair draw1) rows.
Proof.
  destruct (getCertsByBase_skips_ownership_domain "example.com" db_leaf eq_refl)
    as (rows & Hrun & Hin).
  exists rows. split; [exact Hrun|]. split.
  - apply Hin. split; [right; by left|]. split; [by left|discriminate].
  - intros H. apply Hin in H as (_ & [H|[k H]] & _); [discriminate|].
    destruct k as [|? [|? ?]]; discriminate.
Defined.

Lemma pushed_rule_at_any_place_witness :
  getProxyDNS "host.delegated.test"
    (snd (pushProxyRule "3f0c6a52-0000-4000-8000-000000000005" "example" "8.8.4.4" 0
            db_records))
  = getProxyDNS "host.delegated.test" db_records /\
  getProxyDNS "a.example.com"
    (snd (pushProxyRule "3f0c6a52-0000-4000-8000-000000000005" "example" "8.8.4.4" 0
            db_records))
  = Ok (Some "8.8.4.4") /\
  getProxyDNS "a.example.com"
    (snd (pushProxyRule "3f0c6a52-0000-4000-8000-000000000005" "*" "8.8.4.4" 1
            db_records))
  = Throw (SyntaxError "Nothing to repeat").
Proof.
  split; [|split].
  - destruct (pushed_rule_at_any_place
                "3f0c6a52-0000-4000-8000-000000000005" "example" "8.8.4.4" 0 db_records
                (mkRule "3f0c6a52-0000-4000-8000-000000000005" "example" "8.8.4.4")
                (snd (pushProxyRule "3f0c6a52-0000-4000-8000-000000000005" "example"
                        "8.8.4.4" 0 db_records))
                "host.delegated.test" eq_refl) as (_ & _ & Hsame & _).
    apply Hsame. vm_compute. reflexivity.
  - destruct (pushed_rule_at_any_place
                "3f0c6a52-0000-4000-8000-000000000005" "example" "8.8.4.4" 0 db_records
                (mkRule "3f0c6a52-0000-4000-8000-000000000005" "example" "8.8.4.4")
                (snd (pushProxyRule "3f0c6a52-0000-4000-8000-000000000005" "example"
                        "8.8.4.4" 0 db_records))
                "a.example.com" eq_refl) as (_ & _ & _ & Hnull & _).
    rewrite Hnull; vm_compute; reflexivity.
  - destruct (pushed_rule_at_any_place
                "3f0c6a52-0000-4000-8000-000000000005" "*" "8.8.4.4" 1 db_records
                (mkRule "3f0c6a52-0000-4000-8000-000000000005" "*" "8.8.4.4")
                (snd (pushProxyRule "3f0c6a52-0000-4000-8000-000000000005" "*"
                        "8.8.4.4" 1 db_records))
                "a.example.com" eq_refl) as (_ & _ & _ & Hnull & _).
    rewrite Hnull; vm_compute; reflexivity.
Defined.

(** Which of two matching rules answers depends on where the new one
    landed. *)
Example pushed_rule_priority_not_fixed :
  getProxyDNS "host.delegated.test"
    (snd (pushProxyRule "3f0c6a52-0000-4000-8000-000000000005" "test" "8.8.4.4" 0
            db_records))
  = Ok (Some "8.8.4.4") /\
  getProxyDNS "host.delegated.test"
    (snd (pushProxyRule "3f0c6a52-0000-4000-8000-000000000005" "test" "8.8.4.4" 1
            db_records))
  = Ok (Some "9.9.9.9").
Proof. by vm_compute. Qed.

End CrudFacts.


(** ** Issuance: edge cases and what every call keeps *)

Module IssuanceMore.
Import Text Sql Store Issuance Wording Vocabulary IssuanceFacts.

Section WithForge.
Context {forge : Forge}.

Lemma built_pair_domain w d db p :
  built_pair w d false db = Ok p -> cert_domain p = d.
Proof.
  unfold built_pair. destruct (head (pairs_for "." db)) as [root|]; [|done].
  destruct (privateKeyFromDer (cert_key root)); [|done]. by inversion 1.
Qed.

Lemma generateCert_ok w d ca db p db' :
  generateCert w d ca db = (Ok p, db') ->
  built_pair w d ca db = Ok p /\
  fresh_id (uuid w) (kept d db) = true /\
  db' = set_certs (kept d db ++ [p]) db.
Proof.
  rewrite generateCert_run. destruct (built_pair w d ca db) as [q|e]; [|done].
  destruct (fresh_id (uuid w) (kept d db)); [|done]. by inversion 1.
Qed.

(** X8. After a leaf has been issued for a domain that had at most one
    pair, [getCert] for that domain returns the pair just issued, stored
    under the domain with the id drawn by the call. *)
Theorem issued_leaf_is_found w d db p db' :
  generateCert w d false db = (Ok p, db') ->
  (length (pairs_for d db) <= 1)%nat ->
  getCert d db' = (Ok (Some p), db') /\ cert_domain p = d /\ cert_id p = uuid w.
Proof.
  intros Hrun Hlen. apply generateCert_ok in Hrun as (Hp & _ & ->).
  pose proof (built_pair_domain _ _ _ _ Hp) as Hd.
  split; [|split; [exact Hd|by eapply built_pair_id]].
  unfold getCert. f_equal. f_equal.
  change (head (pairs_for d (set_certs (kept d db ++ [p]) db)) = Some p).
  rewrite pairs_for_snoc, pairs_for_kept_same by done.
  by rewrite Hd, String.eqb_refl.
Qed.

(** X9. The old pair is deleted before the new one is inserted, outside
    any transaction: when the insert is refused because the drawn id is
    already the id of another pair, the call fails and the pair the domain
    had is gone all the same. *)
Theorem failed_insert_drops_old_pair w d ca db old :
  is_ok (built_pair w d ca db) = true ->
  head (pairs_for d db) = Some old ->
  fresh_id (uuid w) (kept d db) = false ->
  exists db',
    generateCert w d ca db = (Throw unique_violation, db') /\
    certs db' = without_id (cert_id old) (certs db) /\
    ~ In old (certs db') /\
    ((length (pairs_for d db) <= 1)%nat -> pairs_for d db' = []).
Proof.
  intros Hok Hold Hclash. rewrite generateCert_run.
  destruct (built_pair w d ca db) as [p|e]; [|done]. rewrite Hclash.
  eexists. split; [reflexivity|]. cbn [certs set_certs].
  assert (kept d db = without_id (cert_id old) (certs db)) as Hk
    by (unfold kept; by rewrite Hold).
  split; [exact Hk|]. split.
  - rewrite Hk. intros Hin. apply filter_In in Hin as [_ Hin].
    by rewrite String.eqb_refl in Hin.
  - intros Hlen. rewrite pairs_for_set_certs. by apply pairs_for_kept_same.
Qed.

(** X10. [generateCert(".", false)] is not refused: with one decodable
    root stored it removes that root and stores under ["."] a leaf signed
    by it, which is no certificate authority; [init] finds a pair for
    ["."] afterwards and does not bring a root back. *)
Theorem leaf_mode_on_sentinel_replaces_root w db root k :
  pairs_for "." db = [root] ->
  privateKeyFromDer (cert_key root) = Ok k ->
  fresh_id (uuid w) (kept "." db) = true ->
  exists db',
    generateCert w "." false db = (Ok (leaf_pair w "." k), db') /\
    pairs_for "." db' = [leaf_pair w "." k] /\
    has_extension_ca (cert_cert (leaf_pair w "." k)) = false /\
    subject (cert_cert (leaf_pair w "." k)) = [("commonName", ".")] /\
    (forall w', init w' db' = (Ok tt, db')).
Proof.
  intros Hroot Hk Hfresh. rewrite generateCert_run. unfold built_pair.
  rewrite Hroot. cbn [head]. rewrite Hk, Hfresh.
  eexists. split; [reflexivity|].
  assert (pairs_for "." (set_certs (kept "." db ++ [leaf_pair w "." k]) db)
          = [leaf_pair w "." k]) as Hp.
  { rewrite pairs_for_snoc, pairs_for_kept_same by (rewrite Hroot; simpl; lia).
    reflexivity. }
  split; [exact Hp|]. split; [reflexivity|]. split; [reflexivity|].
  intros w'. rewrite init_run, Hp. reflexivity.
Qed.

(** X11. Issuing a leaf for a domain other than ["."], whether the call
    succeeds or fails, keeps the primary key, leaves the pairs stored
    under ["."] and under every other domain as they were, and never
    leaves two pairs for one domain if there were none before. *)
Theorem leaf_issuance_keeps_store_shape w d db :
  primary_key db ->
  d <> "." ->
  primary_key (snd (generateCert w d false db)) /\
  pairs_for "." (snd (generateCert w d false db)) = pairs_for "." db /\
  (forall d', d <> d' ->
     pairs_for d' (snd (generateCert w d false db)) = pairs_for d' db) /\
  ((forall d', (length (pairs_for d' db) <= 1)%nat) ->
   forall d', (length (pairs_for d' (snd (generateCert w d false db))) <= 1)%nat).
Proof.
  intros Hpk Hd.
  assert (forall d', d <> d' ->
            pairs_for d' (snd (generateCert w d false db)) = pairs_for d' db) as Hother.
  { intros d' Hdd. rewrite generateCert_run.
    destruct (built_pair w d false db) as [p|e] eqn:Hp; [|reflexivity].
    destruct (fresh_id (uuid w) (kept d db)); cbn [snd].
    - rewrite pairs_for_snoc, pairs_for_kept_other by done.
      rewrite (built_pair_domain _ _ _ _ Hp).
      apply String.eqb_neq in Hdd. by rewrite Hdd, app_nil_r.
    - rewrite pairs_for_set_certs. by apply pairs_for_kept_other. }
  split; [by apply generateCert_keeps_primary_key|].
  split; [by apply Hother|]. split; [exact Hother|].
  intros Hone. by apply leaf_issuance_keeps_one_pair.
Qed.

End WithForge.

Import Samples MoreSamples.

Lemma issued_leaf_is_found_witness :
  getCert "example.com" db_leaf
  = (Ok (Some (leaf_pair draw2 "example.com" "priv1")), db_leaf) /\
  cert_domain (leaf_pair draw2 "example.com" "priv1") = "example.com" /\
  cert_id (leaf_pair draw2 "example.com" "priv1") = uuid draw2.
Proof.
  apply (issued_leaf_is_found draw2 "example.com" db_rooted).
  - vm_compute. reflexivity.
  - vm_compute. lia.
Defined.

Lemma failed_insert_drops_old_pair_witness :
  exists db',
    generateCert draw_clash "example.com" false db_leaf
    = (Throw unique_violation, db') /\
    pairs_for "example.com" db_leaf = [leaf_pair draw2 "example.com" "priv1"] /\
    pairs_for "example.com" db' = [].
Proof.
  destruct (failed_insert_drops_old_pair draw_clash "example.com" false db_leaf
              (leaf_pair draw2 "example.com" "priv1"))
    as (db' & Hrun & _ & _ & Hgone).
  - vm_compute. reflexivity.
  - vm_compute. reflexivity.
  - vm_compute. reflexivity.
  - exists db'. split; [exact Hrun|]. split; [reflexivity|].
    apply Hgone. vm_compute. lia.
Defined.

Lemma leaf_mode_on_sentinel_replaces_root_witness :
  exists db',
    generateCert draw2 "." false db_rooted = (Ok (leaf_pair draw2 "." "priv1"), db') /\
    pairs_for "." db_rooted = [ca_pair draw1] /\
    pairs_for "." db' = [leaf_pair draw2 "." "priv1"] /\
    init draw3 db' = (Ok tt, db').
Proof.
  destruct (leaf_mode_on_sentinel_replaces_root draw2 db_rooted (ca_pair draw1) "priv1")
    as (db' & Hrun & Hp & _ & _ & Hinit).
  - vm_compute. reflexivity.
  - vm_compute. reflexivity.
  - vm_compute. reflexivity.
  - exists db'. split; [exact Hrun|]. split; [reflexivity|]. split; [exact Hp|].
    apply Hinit.
Defined.

Lemma leaf_issuance_keeps_store_shape_witness :
  pairs_for "." (snd (generateCert draw3 "example.org" false db_leaf))
  = [ca_pair draw1] /\
  pairs_for "example.com" (snd (generateCert draw3 "example.org" false db_leaf))
  = [leaf_pair draw2 "example.com" "priv1"].
Proof.
  destruct (leaf_issuance_keeps_store_shape draw3 "example.org" db_leaf)
    as (_ & Hroot & Hother & _).
  - apply (bool_decide_unpack _). vm_compute. exact I.
  - discriminate.
  - split.
    + rewrite Hroot. vm_compute. reflexivity.
    + rewrite Hother; [vm_compute; reflexivity|discriminate].
Defined.

End IssuanceMore.


(** ** The callback: what one run does *)

Module ListenerFacts.
Import Text Sql Store Resolution Wording Vocabulary ResolutionFacts.

Section WithEnvironment.
Context {engine : RegExpEngine} {dns2 : Dns2}.

Lemma handle_records_error db req q qs e tr :
  questions req = q :: qs ->
  getProxyDNS (q_name q) db = Ok None ->
  getRecords (q_name q) db = Throw e ->
  handle db req tr
  = (Throw e, (tr ++ [SelectProxyRules; SelectRecords (q_name q)])%list).
Proof.
  intros Hq Hp Hr. unfold handle. rewrite Hq.
  unfold mbind, IO_bind, emit, lift. rewrite Hp, Hr.
  by rewrite <- app_assoc.
Qed.

Lemma handle_no_question db req tr :
  questions req = [] -> exists e, handle db req tr = (Throw e, tr).
Proof. intros Hq. unfold handle. rewrite Hq. by eexists. Qed.

(** X12. Whatever the store, the upstreams and the request, one run of
    the callback sends exactly one response when it ends well, as its last
    step, and none when it throws; it asks at most one upstream, and it
    never both reads the records and finds some after a rule matched. *)
Theorem handle_sends_once_or_fails db req tr :
  exists evs,
    handle db req tr = (fst (handle db req tr), (tr ++ evs)%list) /\
    length (List.filter is_send evs)
    = (if is_ok (fst (handle db req tr)) then 1 else 0)%nat /\
    (is_ok (fst (handle db req tr)) = true ->
     exists pre res, evs = (pre ++ [Send res])%list) /\
    (length (List.filter is_resolve evs) <= 1)%nat /\
    (forall q qs toAsk,
        questions req = q :: qs ->
        getProxyDNS (q_name q) db = Ok (Some toAsk) ->
        List.filter is_select_records evs = []).
Proof.
  destruct (questions req) as [|q qs] eqn:Hq.
  { destruct (handle_no_question db req tr Hq) as [e He]. exists []. rewrite He.
    cbn [fst is_ok]. rewrite app_nil_r. split; [done|]. split; [done|].
    split; [done|]. split; [simpl; lia|done]. }
  assert (forall evs : list Event,
             (forall toAsk, getProxyDNS (q_name q) db = Ok (Some toAsk) ->
                            List.filter is_select_records evs = []) ->
             forall q0 qs0 toAsk,
               q :: qs = q0 :: qs0 ->
               getProxyDNS (q_name q0) db = Ok (Some toAsk) ->
               List.filter is_select_records evs = []) as Hlast.
  { intros evs H q0 qs0 toAsk E Hp0. inversion E; subst. by eapply H. }
  destruct (getProxyDNS (q_name q) db) as [[toAsk|]|e] eqn:Hp.
  - rewrite (handle_proxy db req q qs toAsk tr Hq Hp). cbn [fst].
    unfold forwarded. destruct (UDPClient toAsk (q_name q)) as [r|e]; cbn [fst snd is_ok].
    + eexists. split; [reflexivity|]. split; [reflexivity|]. split.
      * intros _. by exists [SelectProxyRules; Resolve toAsk (q_name q)],
                    (set_answers (answers r) (createResponseFromRequest req)).
      * split; [simpl; lia|]. by apply Hlast.
    + eexists. split; [reflexivity|]. split; [reflexivity|]. split; [done|].
      split; [simpl; lia|]. by apply Hlast.
  - destruct (getRecords (q_name q) db) as [[|r0 records]|e] eqn:Hr.
    + rewrite (handle_default db req q qs tr Hq Hp Hr). cbn [fst].
      unfold forwarded.
      destruct (UDPClient DEFAULT_SERVER (q_name q)) as [r|e]; cbn [fst snd is_ok].
      * eexists. split; [reflexivity|]. split; [reflexivity|]. split.
        -- intros _. by exists [SelectProxyRules; SelectRecords (q_name q);
                           Resolve DEFAULT_SERVER (q_name q)],
                  (set_answers (answers r) (createResponseFromRequest req)).
        -- split; [simpl; lia|]. by apply Hlast.
      * eexists. split; [reflexivity|]. split; [reflexivity|]. split; [done|].
        split; [simpl; lia|]. by apply Hlast.
    + rewrite (handle_local db req q qs (r0 :: records) tr Hq Hp Hr ltac:(done)).
      cbn [fst is_ok]. eexists. split; [reflexivity|]. split; [reflexivity|]. split.
      * intros _. by eexists [SelectProxyRules; SelectRecords (q_name q)], _.
      * split; [simpl; lia|]. by apply Hlast.
    + rewrite (handle_records_error db req q qs e tr Hq Hp Hr). cbn [fst is_ok].
      eexists. split; [reflexivity|]. split; [reflexivity|]. split; [done|].
      split; [simpl; lia|]. by apply Hlast.
  - rewrite (handle_rule_error db req q qs e tr Hq Hp). cbn [fst is_ok].
    eexists. split; [reflexivity|]. split; [reflexivity|]. split; [done|].
    split; [simpl; lia|]. by apply Hlast.
Qed.

End WithEnvironment.
End ListenerFacts.

(** ** The class [Validator] *)

Module ValidationFacts.
Import Text Store Validation ApiVocabulary.

Lemma split_on_app sep a b :
  split_on sep (a ++ sep :: b) = (split_on sep a ++ split_on sep b)%list.
Proof.
  induction a as [|x a IH]; simpl.
  - rewrite Ascii.eqb_refl. reflexivity.
  - destruct (Ascii.eqb x sep); [by rewrite IH|].
    rewrite IH. destruct (split_on sep a) eqn:E; [|reflexivity].
    by destruct a as [|y a]; simpl in E; [|destruct (Ascii.eqb y sep), (split_on sep a)].
Qed.

Lemma split_on_cons sep s : exists l ls, split_on sep s = l :: ls.
Proof.
  destruct s as [|c s]; simpl; [by eexists _, _|].
  destruct (Ascii.eqb c sep); [by eexists _, _|].
  destruct (split_on sep s); by eexists _, _.
Qed.

Lemma chars_append a b : chars (a ++ b) = (chars a ++ chars b)%list.
Proof. induction a as [|c a IH]; simpl; [reflexivity|]. by rewrite IH. Qed.

Lemma split_path_append path more :
  split_path (path ++ "." ++ more) = (split_path path ++ split_path more)%list.
Proof.
  unfold split_path. rewrite chars_append. simpl.
  change "."%char with dot. rewrite split_on_app, map_app. reflexivity.
Qed.

Lemma split_path_cons path : exists p ps, split_path path = p :: ps.
Proof.
  unfold split_path. destruct (split_on_cons dot (chars path)) as (l & ls & ->).
  by eexists _, _.
Qed.

Section WithRuntime.
Context {runtime : JsRuntime}.

(** A walk that found something other than [null] went through all of
    its parts. *)
Lemma walk_app ps qs v0 v :
  walk ps v0 = Ok v -> v <> VNull -> walk (ps ++ qs) v0 = walk qs v.
Proof.
  revert v0. induction ps as [|p ps IH]; intros v0 Hw Hv; simpl in *.
  - by injection Hw as ->.
  - destruct (has_property p v0) as [[]|e]; simpl in *; try done.
    + destruct (get_property p v0) as [v1|e]; simpl in *; [|done]. by apply IH.
    + by injection Hw as <-.
Qed.

Lemma has_property_scalar key v :
  scalar v = true -> exists msg, has_property key v = Throw (TypeError msg).
Proof. destruct v; try done; intros _; by eexists. Qed.

Context {engine : RegExpEngine}.

(** X13. A path that goes on after a boolean, a number, a string or
    [undefined] makes [getByPath] throw a [TypeError], and with it [str]
    and [int] whatever their options: the validator does not answer
    [false] there. *)
Theorem path_through_scalar_throws body path more v sopts iopts :
  getByPath body path = Ok v ->
  scalar v = true ->
  exists msg,
    getByPath body (path ++ "." ++ more) = Throw (TypeError msg)
    /\ str body (path ++ "." ++ more) sopts = Throw (TypeError msg)
    /\ int body (path ++ "." ++ more) iopts = Throw (TypeError msg).
Proof.
  intros Hg Hs. unfold str, int, getByPath in *.
  rewrite split_path_append.
  rewrite (walk_app _ _ _ _ Hg) by (by destruct v).
  destruct (split_path_cons more) as (q & qs & ->). simpl.
  destruct (has_property_scalar q v Hs) as [msg ->]. by exists msg.
Qed.

End WithRuntime.

Lemma path_through_scalar_throws_witness :
  getByPath (of_json (JObject [("ttl", JNumber (of_Z 60))])) "ttl"
    = Ok (VNumber (of_Z 60))
  /\ exists msg,
       getByPath (of_json (JObject [("ttl", JNumber (of_Z 60))])) ("ttl" ++ "." ++ "unit")
         = Throw (TypeError msg)
       /\ str (engine := Fragment.engine) (of_json (JObject [("ttl", JNumber (of_Z 60))]))
              ("ttl" ++ "." ++ "unit") (mkStrOpts true None None None)
         = Throw (TypeError msg)
       /\ int (of_json (JObject [("ttl", JNumber (of_Z 60))]))
              ("ttl" ++ "." ++ "unit") (mkIntOpts true None None false)
         = Throw (TypeError msg).
Proof.
  split; [reflexivity|].
  apply (path_through_scalar_throws (engine := Fragment.engine)
           _ "ttl" "unit" (VNumber (of_Z 60))); reflexivity.
Defined.

(** A key that is missing gives [null] however the path goes on, a key
    that holds [null] throws. *)
Example getByPath_null_or_missing :
  getByPath (of_json (JObject [("a", JNull)])) "b.c" = Ok VNull
  /\ getByPath (of_json (JObject [("a", JNull)])) "a" = Ok VNull
  /\ is_ok (getByPath (of_json (JObject [("a", JNull)])) "a.c") = false.
Proof. by vm_compute. Qed.

End ValidationFacts.

(** ** The key of the interface *)

Module AuthFacts.
Import Text Store Crud Validation Api ApiVocabulary.

Lemma strip_prefix_Some p s rest : strip_prefix p s = Some rest -> s = p ++ rest.
Proof.
  revert s. induction p as [|a p IH]; intros s H; simpl in *.
  - by injection H as ->.
  - destruct s as [|b s]; [done|].
    destruct (Ascii.eqb a b) eqn:E; [|done].
    apply Ascii.eqb_eq in E as ->. by rewrite (IH _ H).
Qed.

Lemma strip_prefix_app p rest : strip_prefix p (p ++ rest) = Some rest.
Proof. induction p as [|a p IH]; simpl; [done|]. by rewrite Ascii.eqb_refl. Qed.

Lemma drop_spaces_split s :
  exists ws, spaces ws = true /\ s = ws ++ drop_spaces s
             /\ leading_space (drop_spaces s) = false.
Proof.
  induction s as [|c s (ws & Hws & Hs & Hl)]; simpl.
  - by exists "".
  - destruct (is_space c) eqn:E.
    + exists (String c ws). unfold spaces in *. simpl. rewrite E, Hws.
      split; [done|]. split; [|done].
      change (String c s = String c (ws ++ drop_spaces s)). congruence.
    + exists "". simpl. by rewrite E.
Qed.

Lemma drop_spaces_app ws key :
  spaces ws = true -> leading_space key = false -> drop_spaces (ws ++ key) = key.
Proof.
  unfold spaces. induction ws as [|c ws IH]; simpl; intros Hws Hk.
  - destruct key as [|c key]; [done|]. simpl in *. by rewrite Hk.
  - apply andb_true_iff in Hws as [-> Hws]. by apply IH.
Qed.

(** [strip_bearer] gives the key for the key itself, if it does not start
    with [Bearer], and for [Bearer], any white space and the key, if the
    key does not start with white space; for nothing else. *)
Lemma strip_bearer_key header key :
  strip_bearer header = key <->
  (header = key /\ strip_prefix "Bearer" key = None)
  \/ (exists ws, spaces ws = true /\ header = "Bearer" ++ ws ++ key
                 /\ leading_space key = false).
Proof.
  unfold strip_bearer. split.
  - destruct (strip_prefix "Bearer" header) as [rest|] eqn:E; intros <-.
    + right. destruct (drop_spaces_split rest) as (ws & Hws & Hrest & Hl).
      exists ws. split; [done|]. split; [|done].
      rewrite <- Hrest. by apply strip_prefix_Some.
    + by left.
  - intros [[-> ->]|(ws & Hws & -> & Hl)]; [done|].
    rewrite strip_prefix_app. by apply drop_spaces_app.
Qed.

Section WithEnvironment.
Context {runtime : JsRuntime} {engine : RegExpEngine} {env : ApiEnv} {driver : PgDriver}.

(** X14. Which requests pass the key check.  With [ADMIN_KEY] unset, those
    without an [Authorization] header, and no other.  With [ADMIN_KEY]
    set, those whose header is the key itself, the key not starting with
    [Bearer], or is [Bearer], any white space, and the key, the key not
    starting with white space. *)
Theorem authorized_iff req :
  authorized req = true <->
  match authorization req, ADMIN_KEY with
  | None, None => True
  | Some header, Some key =>
      (header = key /\ strip_prefix "Bearer" key = None)
      \/ (exists ws, spaces ws = true /\ header = "Bearer" ++ ws ++ key
                     /\ leading_space key = false)
  | _, _ => False
  end.
Proof.
  unfold authorized.
  destruct (authorization req) as [header|], ADMIN_KEY as [key|]; simpl; try done.
  rewrite <- strip_bearer_key. apply String.eqb_eq.
Qed.

End WithEnvironment.

Import ApiSamples.

(** The key is [secret]: the header may hold it bare, or after [Bearer]
    with or without white space; with the key unset, only a request
    without the header passes. *)
Example authorized_samples :
  authorized (mkRequest (Some "Bearer secret") [] None) = true
  /\ authorized (mkRequest (Some "Bearersecret") [] None) = true
  /\ authorized (mkRequest (Some "secret") [] None) = true
  /\ authorized (mkRequest (Some "bearer secret") [] None) = false
  /\ authorized (mkRequest (Some "Bearer secret ") [] None) = false
  /\ authorized (mkRequest None [] None) = false
  /\ authorized (env := env_unset) (mkRequest None [] None) = true
  /\ authorized (env := env_unset) (mkRequest (Some "Bearer secret") [] None) = false.
Proof. by vm_compute. Qed.

End AuthFacts.

(** ** The routes *)

Module RouteFacts.
Import Text Store Crud Validation Api ApiVocabulary ApiTactics.

(** *** The queries that write *)

Lemma mkDB_eta db : mkDB (records db) (proxy_rules db) (certs db) = db.
Proof. by destruct db. Qed.

Lemma pushRecord_throw uuid now name type ttl value db e d :
  pushRecord uuid now name type ttl value db = (Throw e, d) -> d = db.
Proof. unfold pushRecord. repeat case_scrutinee; congruence. Qed.

Lemma pushProxyRule_throw uuid source addr place db e d :
  pushProxyRule uuid source addr place db = (Throw e, d) -> d = db.
Proof. unfold pushProxyRule. repeat case_scrutinee; congruence. Qed.

Lemma deleteRecordByID_throw id db e d :
  deleteRecordByID id db = (Throw e, d) -> d = db.
Proof. unfold deleteRecordByID. repeat case_scrutinee; congruence. Qed.

Lemma deleteRecordByName_throw name db e d :
  deleteRecordByName name db = (Throw e, d) -> d = db.
Proof. unfold deleteRecordByName. congruence. Qed.

Lemma deleteProxyRule_throw id db e d :
  deleteProxyRule id db = (Throw e, d) -> d = db.
Proof. unfold deleteProxyRule. repeat case_scrutinee; congruence. Qed.

Lemma head_rewritten {A} (hit : A -> bool) (g : A -> A) (l : list A) :
  (forall x, hit x = true -> hit (g x) = true) ->
  existsb hit l = true ->
  head (List.filter hit (map g l)) <> None.
Proof.
  intros Hg. induction l as [|x l IH]; simpl; [done|].
  destruct (hit x) eqn:E; simpl.
  - by rewrite (Hg x E).
  - intros H. destruct (hit (g x)); [done|]. by apply IH.
Qed.

Lemma nothing_rewritten {A} (hit : A -> bool) (g : A -> A) (l : list A) :
  (forall x, hit x = true -> hit (g x) = true) ->
  (forall x, hit x = false -> g x = x) ->
  head (List.filter hit (map g l)) = None ->
  map g l = l.
Proof.
  intros Hg Hf. induction l as [|x l IH]; simpl; [done|].
  destruct (hit x) eqn:E; simpl.
  - by rewrite (Hg x E).
  - rewrite (Hf x E), E. intros H. by rewrite IH.
Qed.

Lemma updateRecord_quiet id name type ttl value db r d :
  updateRecord id name type ttl value db = (r, d) ->
  (forall row, r <> Ok (Some row)) -> d = db.
Proof.
  unfold updateRecord. repeat case_scrutinee; try congruence.
  intros H Hr. injection H as <- <-. exfalso.
  destruct (head _) as [row|] eqn:E in Hr; [by destruct (Hr row)|].
  revert E. apply head_rewritten; [|done].
  intros x Hx. by rewrite Hx.
Qed.

Lemma updateProxyRule_quiet id source address db r d :
  updateProxyRule id source address db = (r, d) ->
  (forall row, r <> Ok (Some row)) -> d = db.
Proof.
  unfold updateProxyRule. repeat case_scrutinee; try congruence.
  intros H Hr. injection H as <- <-.
  destruct (head _) as [row|] eqn:E in Hr; [by destruct (Hr row)|].
  apply nothing_rewritten in E as ->; [apply mkDB_eta| |].
  - intros x Hx. by rewrite Hx.
  - intros x Hx. by rewrite Hx.
Qed.

Section WithEnvironment.
Context {runtime : JsRuntime} {engine : RegExpEngine} {env : ApiEnv} {driver : PgDriver}.

(** The handlers answer with 200, 201, 400 or 404. *)
Lemma route_status r uuid now place req db resp db' :
  route r uuid now place req db = (Ok resp, db') ->
  status resp = 200 \/ status resp = 201 \/ status resp = 400 \/ status resp = 404.
Proof.
  destruct r; run_io; repeat case_scrutinee;
    intros H; try discriminate H; injection H as <- _; simpl; tauto.
Qed.

(** X15. A request is answered with 401 and [errors.unauthorized], the
    store left as it was, exactly when it does not pass the key check: no
    route is reached without the key, and no handler answers that way
    itself. *)
Theorem refused_iff_unauthorized r uuid now place req db :
  app r uuid now place req db = (Ok (mkResponse 401 errors_unauthorized), db)
  <-> authorized req = false.
Proof.
  unfold app, auth. destruct (authorized req); simpl; split; try done.
  intros H. apply route_status in H. simpl in H. lia.
Qed.

(** X16. A request changes the store only if it is answered with 200 or
    201: a request that is refused, that fails a validation, that names a
    row that is not there, or whose query throws, leaves every table as it
    was. *)
Theorem store_changes_only_when_done r uuid now place req db :
  snd (app r uuid now place req db) = db \/ done_status (fst (app r uuid now place req db)).
Proof.
  unfold app, auth, done_status. destruct (authorized req); simpl; [|by left].
  destruct r; run_io;
    repeat (cbv beta iota; case_scrutinee);
    try solve [ by left | right; eexists; split; [reflexivity|simpl; tauto] ];
    left; simpl;
    repeat match goal with
           | H : (_, _) = (_, _) |- _ => injection H as ? ?; subst
           end;
    eauto using pushRecord_throw, pushProxyRule_throw, deleteRecordByID_throw,
      deleteRecordByName_throw, deleteProxyRule_throw;
    solve [ eapply updateRecord_quiet; [eassumption|done]
          | eapply updateProxyRule_quiet; [eassumption|done] ].
Qed.

(** X21. What the interface never touches: no request, on any route and
    whatever it is answered, changes the table [certs]; only the four
    routes that write records change [records], and only the three that
    write rules change [proxy_rules]. *)
Theorem routes_keep_other_tables r uuid now place req db :
  certs (snd (app r uuid now place req db)) = certs db
  /\ (if writes_records r then True
      else records (snd (app r uuid now place req db)) = records db)
  /\ (if writes_rules r then True
      else proxy_rules (snd (app r uuid now place req db)) = proxy_rules db).
Proof.
  unfold app, auth. destruct (authorized req); cbn [negb];
    [|by destruct r].
  destruct r; cbn [writes_records writes_rules]; run_io; run_store;
    repeat (cbv beta iota; case_scrutinee);
    cbn [snd certs records proxy_rules set_records]; done.
Qed.

End WithEnvironment.
End RouteFacts.

(** ** What the validations let through *)

Module BodyFacts.
Import Text Store Crud Validation Api ApiVocabulary ApiTactics.

(** *** Numbers *)

Lemma num_lt_of_Z a b : num_lt (of_Z a) (of_Z b) = (a <? b).
Proof.
  unfold num_lt, of_Z, Qle_bool. simpl.
  destruct (Z.leb_spec (b * 1) (a * 1)), (Z.ltb_spec a b); simpl; lia.
Qed.

Lemma short_iff_empty s : num_lt (of_nat (String.length s)) (of_Z 1) = String.eqb s "".
Proof.
  unfold of_nat. rewrite num_lt_of_Z. destruct s; simpl; [reflexivity|].
  apply Z.ltb_ge. lia.
Qed.

Lemma long_iff s : num_lt (of_Z 20) (of_nat (String.length s)) = Nat.ltb 20 (String.length s).
Proof.
  unfold of_nat. rewrite num_lt_of_Z.
  destruct (Z.ltb_spec 20 (Z.of_nat (String.length s))), (Nat.ltb_spec 20 (String.length s));
    try reflexivity; lia.
Qed.

(** A number [Math.floor] leaves as it is, not below 1, and that the
    server reads as [z], is [z] and [z] is from 1 to [2^31 - 1]. *)
Lemma pg_int4_whole n z :
  whole n = true -> num_lt n (of_Z 1) = false -> pg_int4 n = Ok z ->
  num_eq n (of_Z z) = true /\ 1 <= z <= 2147483647.
Proof.
  unfold whole, pg_int4, int4_in. destruct n as [q| | |]; simpl; try done.
  intros Hw Hlt H.
  destruct (Qeq_bool (inject_Z (Qfloor q)) q && _) eqn:E1; [|done].
  destruct ((-2147483648 <=? Qfloor q) && (Qfloor q <=? 2147483647)) eqn:E2; [|done].
  injection H as <-.
  apply andb_true_iff in E2 as [_ E2]. apply Z.leb_le in E2.
  apply Qeq_bool_iff in Hw.
  split; [apply Qeq_bool_iff; by symmetry|]. split; [|done].
  apply negb_false_iff, Qle_bool_iff in Hlt.
  rewrite <- Hw in Hlt. by rewrite Zle_Qle.
Qed.

(** A whole number above [2^31 - 1] is refused by the server. *)
Lemma pg_int4_oversized n :
  whole n = true -> num_lt (of_Z 2147483647) n = true ->
  exists msg, pg_int4 n = Throw (DatabaseError msg).
Proof.
  unfold whole, pg_int4, int4_in. destruct n as [q| | |]; simpl; try done;
    [|by eexists].
  intros Hw Hlt. destruct (_ && _) eqn:E1; [|by eexists].
  destruct ((-2147483648 <=? Qfloor q) && (Qfloor q <=? 2147483647)) eqn:E2;
    [|by eexists].
  exfalso. apply andb_true_iff in E2 as [_ E2]. apply Z.leb_le in E2.
  apply Qeq_bool_iff in Hw. apply negb_true_iff in Hlt.
  assert (Qle_bool q (inject_Z 2147483647) = true) as Hle; [|congruence].
  apply Qle_bool_iff. rewrite <- Hw. by rewrite <- Zle_Qle.
Qed.

(** *** Properties of parsed values *)

Lemma lookup_prop_of_json key props :
  lookup_prop key (List.map (fun kv => (fst kv, of_json (snd kv))) props)
  = option_map of_json (lookup_prop key props).
Proof.
  induction props as [|[k j] props IH]; simpl; [reflexivity|].
  by destruct (String.eqb k key).
Qed.

Lemma lookup_prop_combine {A} key ks (vs : list A) :
  Forall (fun k => k <> key) ks -> lookup_prop key (combine ks vs) = None.
Proof.
  intros H. revert vs. induction H as [|k ks Hk _ IH]; intros vs; [reflexivity|].
  destruct vs as [|v vs]; [reflexivity|]. simpl.
  destruct (String.eqb_spec k key); [done|apply IH].
Qed.


Lemma index_key_not_word i key : word key = true -> index_key i <> key.
Proof.
  unfold index_key. intros Hw <-.
  by destruct (Nat.to_uint i).
Qed.

Lemma lookup_prop_index {A} key (items : list A) :
  word key = true -> lookup_prop key (index_props items) = None.
Proof.
  intros Hw. apply lookup_prop_combine, List.Forall_forall.
  intros k Hk. apply in_map_iff in Hk as (i & <- & _). by apply index_key_not_word.
Qed.

Lemma request_key_word key : In key request_keys -> word key = true.
Proof. simpl. intros H. by repeat destruct H as [<-|H]. Qed.

Lemma request_key_path key : In key request_keys -> split_path key = [key].
Proof. simpl. intros H. by repeat destruct H as [<-|H]. Qed.

Section WithRuntime.
Context {runtime : JsRuntime}.
Hypothesis clean : clean_prototype.

(** The value [getByPath] finds under one of the keys of the routes: the
    own property of the body, if the body is an object and has one. *)
Lemma getByPath_field parsed key :
  In key request_keys ->
  getByPath (of_parsed parsed) key
  = Ok (match field_of parsed key with
        | Some j => of_json j
        | None => VNull
        end).
Proof.
  intros Hk. unfold getByPath. rewrite (request_key_path key Hk).
  pose proof (clean key Hk) as Hc. pose proof (request_key_word key Hk) as Hw.
  destruct parsed as [[]|]; simpl;
    rewrite ?lookup_prop_index, ?lookup_prop_of_json, ?Hc by done; simpl; try done.
  unfold own_or_inherited. rewrite lookup_prop_of_json.
  by destruct (lookup_prop key props).
Qed.

Lemma get_property_field req key j :
  field req key = Some j -> get_property key (req_body req) = Ok (of_json j).
Proof.
  unfold field, field_of, req_body. destruct (body req) as [[]|]; try done.
  simpl. intros H. unfold own_or_inherited. by rewrite lookup_prop_of_json, H.
Qed.

Context {engine : RegExpEngine}.

Lemma str_min1_field parsed key :
  In key request_keys ->
  str (of_parsed parsed) key min1
  = Ok (match field_of parsed key with
        | Some (JString s) => negb (String.eqb s "")
        | _ => false
        end).
Proof.
  intros Hk. unfold str. rewrite (getByPath_field _ _ Hk).
  unfold mbind, Result_bind, min1.
  cbn [str_optional str_min str_max str_regex andb].
  destruct (field_of parsed key) as [[]|]; cbn [of_json]; try done.
  rewrite short_iff_empty. by destruct (String.eqb s "").
Qed.

Lemma str_type_field parsed :
  str (of_parsed parsed) "type" (mkStrOpts false (Some (of_Z 1)) (Some (of_Z 20)) None)
  = Ok (match field_of parsed "type" with
        | Some (JString s) => negb (String.eqb s "") && negb (Nat.ltb 20 (String.length s))
        | _ => false
        end).
Proof.
  unfold str. rewrite getByPath_field by (simpl; tauto).
  unfold mbind, Result_bind.
  cbn [str_optional str_min str_max str_regex andb].
  destruct (field_of parsed "type") as [[]|]; cbn [of_json]; try done.
  rewrite short_iff_empty, long_iff.
  by destruct (String.eqb s ""), (Nat.ltb 20 (String.length s)).
Qed.

Lemma int_ttl_field parsed :
  int (of_parsed parsed) "ttl" (mkIntOpts false (Some (of_Z 1)) None false)
  = Ok (match field_of parsed "ttl" with
        | Some (JNumber n) => whole n && negb (num_lt n (of_Z 1))
        | _ => false
        end).
Proof.
  unfold int. rewrite getByPath_field by (simpl; tauto).
  unfold mbind, Result_bind.
  cbn [int_optional int_min int_max int_float andb negb].
  destruct (field_of parsed "ttl") as [[]|]; cbn [of_json]; try done.
  unfold whole. by destruct (num_eq (Math_floor n) n), (num_lt n (of_Z 1)).
Qed.

Context {env : ApiEnv} {driver : PgDriver}.

Lemma recordType_fits type :
  In type recordTypes ->
  String.eqb type "" = false /\ Nat.ltb 20 (String.length type) = false
  /\ existsb (String.eqb type) recordTypes = true /\ varchar20 type = Ok type.
Proof. simpl. intros H. by repeat destruct H as [<-|H]. Qed.

(** [validateRecordBase] goes on with a body as it wants it. *)
Lemma validateRecordBase_pass req next db name type ttl value :
  record_fields req name type ttl value ->
  validateRecordBase req next db = next db.
Proof.
  intros (Hn & Hne & Ht & Hin & Hl & Hw & Hlt & Hv & Hve).
  unfold validateRecordBase.
  rewrite (get_property_field req "type" _ Ht). unfold req_body.
  rewrite !str_min1_field, str_type_field, int_ttl_field by (simpl; tauto).
  unfold field in *. rewrite Hn, Ht, Hl, Hv, Hw, Hlt.
  destruct (recordType_fits type Hin) as (-> & -> & Hex & _).
  apply String.eqb_neq in Hne as ->. apply String.eqb_neq in Hve as ->.
  unfold or_else, not_, lift, mbind, IO_bind, Result_bind, mret, Result_ret.
  cbn [negb andb of_json includes]. by rewrite Hex.
Qed.

(** [validateRecordBase] either answers 400, or found a body as it wants
    it. *)
Lemma validateRecordBase_cases req next db :
  (exists name type ttl value, record_fields req name type ttl value)
  \/ (exists e, validateRecordBase req next db = (Ok (mkResponse 400 e), db)).
Proof.
  unfold validateRecordBase, record_fields, req_body.
  rewrite !str_min1_field, str_type_field, int_ttl_field by (simpl; tauto).
  pose proof (get_property_field req "type") as Hget. unfold req_body in Hget.
  unfold field in *.
  unfold or_else, not_, lift, mbind, IO_bind, Result_bind, mret, Result_ret.
  destruct (field_of (body req) "name") as [[| | |name| |]|]; try bad_request.
  destruct (String.eqb_spec name ""); cbn [negb]; [bad_request|].
  destruct (field_of (body req) "type") as [[| | |type| |]|]; try bad_request.
  destruct (String.eqb_spec type ""); cbn [negb andb]; [bad_request|].
  destruct (Nat.ltb 20 (String.length type)); cbn [negb]; [bad_request|].
  destruct (field_of (body req) "ttl") as [[| |ttl| | |]|]; try bad_request.
  destruct (whole ttl) eqn:Hw; cbn [negb andb]; [|bad_request].
  destruct (num_lt ttl (of_Z 1)) eqn:Hlt; cbn [negb]; [bad_request|].
  destruct (field_of (body req) "value") as [[| | |value| |]|]; try bad_request.
  destruct (String.eqb_spec value ""); cbn [negb]; [bad_request|].
  rewrite (Hget _ eq_refl). cbn [of_json includes].
  destruct (existsb (String.eqb type) recordTypes) eqn:Hin; cbn [negb];
    [|bad_request].
  left. exists name, type, ttl, value. repeat split; try done.
  apply existsb_exists in Hin as (t & Ht & Heq). by apply String.eqb_eq in Heq as ->.
Qed.

(** [validateProxyRule] goes on with a body as it wants it. *)
Lemma validateProxyRule_pass req next db source address :
  rule_fields req source address ->
  validateProxyRule req next db = next db.
Proof.
  intros (Hr & Hre & Ha & Hae & Hc).
  unfold validateProxyRule.
  rewrite (get_property_field req "rule" _ Hr). unfold req_body.
  rewrite !str_min1_field by (simpl; tauto).
  unfold field in *. rewrite Hr, Ha.
  apply String.eqb_neq in Hre as ->. apply String.eqb_neq in Hae as ->.
  unfold or_else, not_, lift, mbind, IO_bind, Result_bind, mret, Result_ret.
  cbn [negb of_json]. rewrite pattern_text_string.
  by destruct (new_RegExp source "").
Qed.

(** [validateProxyRule] either answers 400, or found a body as it wants
    it. *)
Lemma validateProxyRule_cases req next db :
  (exists source address, rule_fields req source address)
  \/ (exists e, validateProxyRule req next db = (Ok (mkResponse 400 e), db)).
Proof.
  unfold validateProxyRule, rule_fields, req_body.
  rewrite !str_min1_field by (simpl; tauto).
  pose proof (get_property_field req "rule") as Hget. unfold req_body in Hget.
  unfold field in *.
  unfold or_else, not_, lift, mbind, IO_bind, Result_bind, mret, Result_ret.
  destruct (field_of (body req) "addr") as [[| | |address| |]|]; try bad_request.
  destruct (String.eqb_spec address ""); cbn [negb]; [bad_request|].
  destruct (field_of (body req) "rule") as [[| | |source| |]|]; try bad_request.
  destruct (String.eqb_spec source ""); cbn [negb]; [bad_request|].
  rewrite (Hget _ eq_refl). cbn [of_json]. rewrite pattern_text_string.
  destruct (new_RegExp source "") as [re|e] eqn:Hre; [|bad_request].
  left. exists source, address. rewrite Hre. by repeat split.
Qed.

End WithRuntime.
End BodyFacts.

(** ** What the routes store *)

Module ApiFacts.
Import Text Store Crud Resolution Validation Api ApiVocabulary.
Import ApiTactics RouteFacts BodyFacts.

Lemma pg_int4_int4 n z : pg_int4 n = Ok z -> int4_in z = Ok z.
Proof.
  unfold pg_int4. destruct n as [q| | |]; try done.
  destruct (_ && _); [|done]. unfold int4_in.
  destruct (_ && _) eqn:E; [|done]. intros H. injection H as <-. by rewrite E.
Qed.

Lemma LOWER_not_empty name : name <> "" -> LOWER name <> "".
Proof. by destruct name. Qed.

Lemma num_lt_above n :
  num_lt (of_Z 2147483647) n = true -> num_lt n (of_Z 1) = false.
Proof.
  destruct n as [q| | |]; simpl; try done.
  intros H. apply negb_true_iff in H. apply negb_false_iff, Qle_bool_iff.
  destruct (Qlt_le_dec (inject_Z 2147483647) q) as [Hlt|Hle].
  - apply Qlt_le_weak in Hlt. eapply Qle_trans; [|exact Hlt]. by rewrite <- Zle_Qle.
  - apply Qle_bool_iff in Hle. congruence.
Qed.

Section WithEnvironment.
Context {runtime : JsRuntime} {engine : RegExpEngine} {env : ApiEnv} {driver : PgDriver}.
Hypothesis clean : clean_prototype.

(** *** Records *)

Lemma records_route_cases r uuid now place req db :
  r = POST_records \/ (exists id, r = PUT_records_id id) ->
  (exists name type ttl value, record_fields req name type ttl value)
  \/ (exists e, route r uuid now place req db = (Ok (mkResponse 400 e), db)).
Proof.
  intros [->|[id ->]]; unfold route; by apply validateRecordBase_cases.
Qed.

(** [POST /records] with a body that passes. *)
Lemma post_records_run uuid now place req db name type ttl value :
  record_fields req name type ttl value ->
  route POST_records uuid now place req db
  = match pg_int4 ttl with
    | Throw e => (Throw e, db)
    | Ok z =>
        let row := mkRecord uuid (LOWER name) type z value now in
        if existsb (fun r => String.eqb (rec_id r) uuid) (records db)
        then (Throw unique_violation, db)
        else (Ok (mkResponse 201 (OneRecord row)), set_records (records db ++ [row]) db)
    end.
Proof.
  intros Hf. unfold route. rewrite (validateRecordBase_pass clean _ _ _ _ _ _ _ Hf).
  destruct Hf as (Hn & _ & Ht & Hin & Hl & _ & _ & Hv & _).
  unfold body_field, call_pushRecord.
  rewrite (get_property_field _ _ _ Hn), (get_property_field _ _ _ Ht),
    (get_property_field _ _ _ Hl), (get_property_field _ _ _ Hv).
  unfold lift, send, mbind, mret, IO_bind, IO_ret. cbn [of_json].
  repeat (cbv beta iota; rewrite ?text_param_string, ?integer_param_number).
  destruct (pg_int4 ttl) as [z|e] eqn:E; [|reflexivity].
  unfold pushRecord. rewrite (pg_int4_int4 _ _ E).
  destruct (recordType_fits type Hin) as (_ & _ & _ & ->).
  by destruct (existsb _ (records db)).
Qed.

(** [PUT /records/:id] with a body that passes. *)
Lemma put_records_run id uuid now place req db name type ttl value :
  record_fields req name type ttl value ->
  route (PUT_records_id id) uuid now place req db
  = if negb (String_match id REGEX_UUID)
    then (Ok (mkResponse 400 errors_invalidID), db)
    else match pg_int4 ttl with
         | Throw e => (Throw e, db)
         | Ok z =>
             match updateRecord id name type z value db with
             | (Ok (Some row), db') => (Ok (mkResponse 200 (OneRecord row)), db')
             | (Ok None, db') => (Ok (mkResponse 404 errors_recordNotFound), db')
             | (Throw e, db') => (Throw e, db')
             end
         end.
Proof.
  intros Hf. unfold route. rewrite (validateRecordBase_pass clean _ _ _ _ _ _ _ Hf).
  destruct Hf as (Hn & _ & Ht & Hin & Hl & _ & _ & Hv & _).
  unfold validateID, body_field, call_updateRecord.
  rewrite (get_property_field _ _ _ Hn), (get_property_field _ _ _ Ht),
    (get_property_field _ _ _ Hl), (get_property_field _ _ _ Hv).
  unfold lift, send, mbind, mret, IO_bind, IO_ret. cbn [of_json].
  destruct (negb _); [reflexivity|].
  repeat (cbv beta iota; rewrite ?text_param_string, ?integer_param_number).
  destruct (pg_int4 ttl) as [z|e] eqn:E; [|reflexivity].
  by destruct (updateRecord id name type z value db) as [[[row|]|e] d].
Qed.

Lemma wellformed_row id name type ttl z value now :
  name <> "" -> In type recordTypes -> whole ttl = true ->
  num_lt ttl (of_Z 1) = false -> value <> "" -> pg_int4 ttl = Ok z ->
  wellformed (mkRecord id (LOWER name) type z value now).
Proof.
  intros Hne Hin Hw Hlt Hve Hz. unfold wellformed. simpl.
  destruct (pg_int4_whole _ _ Hw Hlt Hz) as [_ Hr].
  split; [done|]. split; [done|].
  split; [by rewrite WildcardFacts.LOWER_idem|].
  split; [by apply LOWER_not_empty|done].
Qed.

(** X17. What 201 means.  A [POST /records] answered with 201 passed the
    key check, had as body an object with a name and a value that are
    strings and not empty, a type that is one of [recordTypes] and a ttl
    that is a whole number from 1 to [2^31 - 1]; the row sent back holds
    these, the name in lower case, under a fresh id, and is the one row
    added to [records]; the other tables are as they were. *)
Theorem created_record_is_wellformed uuid now place req db resp db' :
  app POST_records uuid now place req db = (Ok resp, db') ->
  status resp = 201 ->
  authorized req = true
  /\ exists name type ttl value,
       field req "name" = Some (JString name)
       /\ field req "type" = Some (JString type)
       /\ (exists n, field req "ttl" = Some (JNumber n) /\ num_eq n (of_Z ttl) = true)
       /\ field req "value" = Some (JString value)
       /\ sent resp = OneRecord (mkRecord uuid (LOWER name) type ttl value now)
       /\ wellformed (mkRecord uuid (LOWER name) type ttl value now)
       /\ Forall (fun r => rec_id r <> uuid) (records db)
       /\ records db' = (records db ++ [mkRecord uuid (LOWER name) type ttl value now])%list
       /\ proxy_rules db' = proxy_rules db
       /\ certs db' = certs db.
Proof.
  unfold app, auth. destruct (authorized req); cbn [negb];
    [|intros H; injection H as <- _; done].
  intros H Hs. split; [done|].
  destruct (records_route_cases POST_records uuid now place req db)
    as [(name & type & ttl & value & Hf)|[e He]]; [by left| |].
  - rewrite (post_records_run _ _ _ _ _ _ _ _ _ Hf) in H.
    destruct Hf as (Hn & Hne & Ht & Hin & Hl & Hw & Hlt & Hv & Hve).
    destruct (pg_int4 ttl) as [z|e] eqn:E; [|done]. simpl in H.
    destruct (existsb _ (records db)) eqn:Hex; [done|].
    injection H as <- <-.
    exists name, type, z, value.
    split; [done|]. split; [done|].
    split; [exists ttl; split; [done|]; by apply (pg_int4_whole _ _ Hw Hlt E)|].
    split; [done|]. split; [done|].
    split; [by apply wellformed_row with ttl|].
    split; [|done].
    apply List.Forall_forall. intros r Hr Heq.
    assert (existsb (fun r => String.eqb (rec_id r) uuid) (records db) = true)
      as Hex'; [|congruence].
    apply existsb_exists. exists r. split; [done|]. by apply String.eqb_eq.
  - rewrite He in H. injection H as <- _. done.
Qed.

(** X18. A ttl above [2^31 - 1] passes the validation, which sets no upper
    bound, and so does [Infinity], that the body can hold written as
    [1e999]: the query is sent, the server refuses the ttl, the handler
    throws instead of answering 400, and nothing is stored.  So for
    [POST /records], and for [PUT /records/:id] when the id matches
    [REGEX_UUID]. *)
Theorem oversized_ttl_is_not_refused id uuid now place req db name type ttl value :
  authorized req = true ->
  record_fields req name type ttl value ->
  num_lt (of_Z 2147483647) ttl = true ->
  String_match id REGEX_UUID = true ->
  (exists msg, app POST_records uuid now place req db = (Throw (DatabaseError msg), db))
  /\ (exists msg,
        app (PUT_records_id id) uuid now place req db = (Throw (DatabaseError msg), db)).
Proof.
  intros Ha Hf Hbig Hid. unfold app, auth. rewrite Ha. cbn [negb].
  rewrite (post_records_run _ _ _ _ _ _ _ _ _ Hf),
    (put_records_run _ _ _ _ _ _ _ _ _ _ Hf), Hid. cbn [negb].
  destruct Hf as (_ & _ & _ & _ & _ & Hw & _).
  destruct (pg_int4_oversized ttl Hw Hbig) as [msg ->].
  split; by exists msg.
Qed.

Lemma updateRecord_keeps_wellformed id name type z value db :
  In type recordTypes ->
  (forall i now, wellformed (mkRecord i (LOWER name) type z value now)) ->
  Forall wellformed (records db) ->
  Forall wellformed (records (snd (updateRecord id name type z value db))).
Proof.
  intros Hin Hrow Hdb. unfold updateRecord.
  destruct (recordType_fits type Hin) as (_ & _ & _ & ->).
  destruct (uuid_in id) as [u|e]; [|done].
  destruct (int4_in z) as [z'|e] eqn:Hz; [|done].
  assert (z' = z) as ->.
  { unfold int4_in in Hz. destruct (_ && _); [|done]. by injection Hz. }
  destruct (existsb _ _); [|done]. cbn [snd set_records records].
  apply List.Forall_map. eapply List.Forall_impl; [|exact Hdb].
  intros r Hr. by destruct (String.eqb (rec_id r) u).
Qed.

Lemma Forall_filter_keeps {A} (P : A -> Prop) f l :
  Forall P l -> Forall P (List.filter f l).
Proof.
  intros H. apply List.Forall_forall. intros x Hx.
  apply List.filter_In in Hx as [Hx _]. by apply (proj1 (List.Forall_forall P l) H).
Qed.

(** Each request keeps the records well formed. *)
Lemma app_keeps_wellformed r uuid now place req db :
  Forall wellformed (records db) ->
  Forall wellformed (records (snd (app r uuid now place req db))).
Proof.
  intros Hdb. unfold app, auth. destruct (authorized req); cbn [negb]; [|done].
  destruct r;
    try solve [ run_io; run_store;
                repeat (cbv beta iota; case_scrutinee);
                cbn [snd records set_records]; try done;
                by apply Forall_filter_keeps ].
  - destruct (records_route_cases POST_records uuid now place req db)
      as [(name & type & ttl & value & Hf)|[e ->]]; [by left| |done].
    rewrite (post_records_run _ _ _ _ _ _ _ _ _ Hf).
    destruct Hf as (Hn & Hne & Ht & Hin & Hl & Hw & Hlt & Hv & Hve).
    destruct (pg_int4 ttl) as [z|e] eqn:E; [|done]. cbv zeta.
    destruct (existsb _ (records db)); [done|]. cbn [snd records set_records].
    apply List.Forall_app. split; [done|].
    constructor; [|done]. by apply wellformed_row with ttl.
  - destruct (records_route_cases (PUT_records_id id) uuid now place req db)
      as [(name & type & ttl & value & Hf)|[e ->]]; [right; by exists id| |done].
    rewrite (put_records_run _ _ _ _ _ _ _ _ _ _ Hf).
    destruct Hf as (Hn & Hne & Ht & Hin & Hl & Hw & Hlt & Hv & Hve).
    destruct (negb _); [done|].
    destruct (pg_int4 ttl) as [z|e] eqn:E; [|done].
    pose proof (updateRecord_keeps_wellformed id name type z value db Hin
                  (fun i now => wellformed_row i name type ttl z value now
                                  Hne Hin Hw Hlt Hve E) Hdb) as Hup.
    by destruct (updateRecord id name type z value db) as [[[row|]|e] d].
Qed.

(** X19. Whatever requests are served one after the other, the records
    stay well formed: each has a type of [recordTypes], a ttl from 1 to
    [2^31 - 1], a name in lower case and not empty, and a value that is
    not empty. *)
Theorem served_records_stay_wellformed calls db :
  Forall wellformed (records db) ->
  Forall wellformed (records (serve_all calls db)).
Proof.
  unfold serve_all. revert db. induction calls as [|c calls IH]; intros db Hdb;
    [done|].
  simpl. apply IH. unfold serve. by apply app_keeps_wellformed.
Qed.

(** *** Proxy rules *)

Lemma rules_route_cases r uuid now place req db :
  r = POST_rules \/ (exists id, r = PUT_rules_id id) ->
  (exists source address, rule_fields req source address)
  \/ (exists e, route r uuid now place req db = (Ok (mkResponse 400 e), db)).
Proof.
  intros [->|[id ->]]; unfold route; by apply validateProxyRule_cases.
Qed.

(** [POST /rules] with a body that passes. *)
Lemma post_rules_run uuid now place req db source address :
  rule_fields req source address ->
  route POST_rules uuid now place req db
  = match pushProxyRule uuid source address place db with
    | (Ok row, db') => (Ok (mkResponse 200 (OneRule row)), db')
    | (Throw e, db') => (Throw e, db')
    end.
Proof.
  intros Hf. unfold route. rewrite (validateProxyRule_pass clean _ _ _ _ _ Hf).
  destruct Hf as (Hr & _ & Ha & _ & _).
  unfold body_field, call_pushProxyRule.
  rewrite (get_property_field _ _ _ Hr), (get_property_field _ _ _ Ha).
  unfold lift, send, mbind, mret, IO_bind, IO_ret. cbn [of_json].
  repeat (cbv beta iota; rewrite ?text_param_string).
  by destruct (pushProxyRule uuid source address place db) as [[row|e] d].
Qed.

(** [PUT /rules/:id] with a body that passes. *)
Lemma put_rules_run id uuid now place req db source address :
  rule_fields req source address ->
  route (PUT_rules_id id) uuid now place req db
  = if negb (String_match id REGEX_UUID)
    then (Ok (mkResponse 400 errors_invalidID), db)
    else match updateProxyRule id source address db with
         | (Ok (Some row), db') => (Ok (mkResponse 200 (OneRule row)), db')
         | (Ok None, db') => (Ok (mkResponse 404 errors_ruleNotFound), db')
         | (Throw e, db') => (Throw e, db')
         end.
Proof.
  intros Hf. unfold route. rewrite (validateProxyRule_pass clean _ _ _ _ _ Hf).
  destruct Hf as (Hr & _ & Ha & _ & _).
  unfold validateID, body_field, call_updateProxyRule.
  rewrite (get_property_field _ _ _ Hr), (get_property_field _ _ _ Ha).
  unfold lift, send, mbind, mret, IO_bind, IO_ret. cbn [of_json].
  destruct (negb _); [reflexivity|].
  repeat (cbv beta iota; rewrite ?text_param_string).
  by destruct (updateProxyRule id source address db) as [[[row|]|e] d].
Qed.

(** Each request keeps the rules compilable. *)
Lemma app_keeps_compilable r uuid now place req db :
  Forall compilable (proxy_rules db) ->
  Forall compilable (proxy_rules (snd (app r uuid now place req db))).
Proof.
  intros Hdb. unfold app, auth. destruct (authorized req); cbn [negb]; [|done].
  destruct r;
    try solve [ run_io; run_store;
                repeat (cbv beta iota; case_scrutinee);
                cbn [snd proxy_rules set_records]; try done;
                by apply Forall_filter_keeps ].
  - destruct (rules_route_cases POST_rules uuid now place req db)
      as [(source & address & Hf)|[e ->]]; [by left| |done].
    rewrite (post_rules_run _ _ _ _ _ _ _ Hf).
    destruct Hf as (_ & _ & _ & _ & Hc).
    unfold pushProxyRule. destruct (existsb _ _); [done|].
    cbn [snd proxy_rules].
    rewrite <- (firstn_skipn place (proxy_rules db)) in Hdb.
    apply List.Forall_app in Hdb as [Hpre Hpost].
    apply List.Forall_app. split; [done|]. by constructor.
  - destruct (rules_route_cases (PUT_rules_id id) uuid now place req db)
      as [(source & address & Hf)|[e ->]]; [right; by exists id| |done].
    rewrite (put_rules_run _ _ _ _ _ _ _ _ Hf).
    destruct Hf as (_ & _ & _ & _ & Hc).
    destruct (negb _); [done|].
    unfold updateProxyRule. destruct (uuid_in id) as [u|e]; [|done].
    assert (Forall compilable
              (map (fun r => if String.eqb (rule_id r) u
                             then mkRule (rule_id r) source address else r)
                   (proxy_rules db))) as Hmap.
    { apply List.Forall_map. eapply List.Forall_impl; [|exact Hdb].
      intros r Hr. by destruct (String.eqb (rule_id r) u). }
    by destruct (head _).
Qed.

Lemma scan_rules_compilable rules domain :
  flag_i_compiles -> Forall compilable rules ->
  is_ok (scan_rules rules domain) = true.
Proof.
  intros Hflag. induction 1 as [|r rules Hr _ IH]; [done|].
  simpl. apply Hflag in Hr. destruct (new_RegExp (rule r) "i"); [|done].
  simpl. by destruct (String_match domain _).
Qed.

(** X20. Whatever requests are served one after the other, the rules stay
    compilable, [validateProxyRule] having compiled each of them; and if a
    source that compiles without flags compiles with the flag [i], as
    [getProxyDNS] compiles it, [getProxyDNS] returns for every domain. *)
Theorem served_rules_never_fail calls db domain :
  flag_i_compiles ->
  Forall compilable (proxy_rules db) ->
  Forall compilable (proxy_rules (serve_all calls db))
  /\ is_ok (getProxyDNS domain (serve_all calls db)) = true.
Proof.
  intros Hflag Hdb.
  assert (Forall compilable (proxy_rules (serve_all calls db))) as H.
  { unfold serve_all. revert db Hdb.
    induction calls as [|c calls IH]; intros db Hdb; [done|].
    simpl. apply IH. unfold serve. by apply app_keeps_compilable. }
  split; [done|]. by apply scan_rules_compilable.
Qed.

End WithEnvironment.

(** *** On the sample environment *)

Import Samples MoreSamples ApiSamples.

Lemma plain_runtime_clean : clean_prototype (runtime := plain_runtime).
Proof. intros key H. simpl in H. by repeat destruct H as [<-|H]. Qed.

Lemma fragment_flag_i_compiles : flag_i_compiles (engine := Fragment.engine).
Proof.
  intros source.
  change (is_ok (Fragment.new_RegExp source "") = true ->
          is_ok (Fragment.new_RegExp source "i") = true).
  unfold Fragment.new_RegExp, Fragment.compile.
  change (String.eqb "" "" || String.eqb "" "i") with true.
  change (String.eqb "i" "" || String.eqb "i" "i") with true.
  by destruct (Fragment.parse _ _ _).
Qed.

Lemma created_record_is_wellformed_witness :
  app POST_records (call_uuid post_a) (call_now post_a) (call_place post_a) (call_req post_a) db_empty
    = (Ok (mkResponse 201 (OneRecord rec_posted)), mkDB [rec_posted] [] [])
  /\ authorized (call_req post_a) = true
  /\ field (call_req post_a) "name" = Some (JString "WWW.Example.com")
  /\ wellformed rec_posted.
Proof.
  split; [vm_compute; reflexivity|].
  destruct (created_record_is_wellformed plain_runtime_clean
              (call_uuid post_a) (call_now post_a) (call_place post_a) (call_req post_a) db_empty
              (mkResponse 201 (OneRecord rec_posted)) (mkDB [rec_posted] [] []))
    as (Ha & name & type & ttl & value & Hn & _ & _ & _ & Hsent & Hw & _).
  - vm_compute. reflexivity.
  - reflexivity.
  - split; [exact Ha|]. injection Hsent as Hname <- <- <-.
    split; [reflexivity|]. unfold rec_posted. rewrite Hname. exact Hw.
Defined.

Lemma oversized_ttl_is_not_refused_witness :
  (exists msg,
     app POST_records "7b1e0000-0000-4000-8000-0000000000ff" 1700000005000 0
         (with_key (Some (record_body PosInfinity))) db_records
     = (Throw (DatabaseError msg), db_records))
  /\ (exists msg,
        app (PUT_records_id id_a) "7b1e0000-0000-4000-8000-0000000000ff" 1700000005000 0
            (with_key (Some (record_body PosInfinity))) db_records
        = (Throw (DatabaseError msg), db_records)).
Proof.
  apply (oversized_ttl_is_not_refused plain_runtime_clean id_a
           "7b1e0000-0000-4000-8000-0000000000ff" 1700000005000 0
           (with_key (Some (record_body PosInfinity))) db_records
           "WWW.Example.com" "A" PosInfinity "10.0.0.1").
  - reflexivity.
  - unfold record_fields. repeat split; try done. by left.
  - reflexivity.
  - vm_compute. reflexivity.
Defined.

(** The same with the least ttl that is too large. *)
Example oversized_ttl_least :
  fst (app POST_records "7b1e0000-0000-4000-8000-0000000000ff" 1700000005000 0
         (with_key (Some (record_body (of_Z 2147483648)))) db_records)
  = Throw (DatabaseError "value out of range for type integer")
  /\ is_ok (fst (app POST_records "7b1e0000-0000-4000-8000-0000000000ff"
                   1700000005000 0
                   (with_key (Some (record_body (of_Z 2147483647)))) db_records))
     = true.
Proof. by vm_compute. Qed.

Lemma served_records_stay_wellformed_witness :
  Forall wellformed (records db_mail)
  /\ Forall wellformed
       (records (serve_all [post_a; put_a; unauthorized_delete; delete_a] db_mail)).
Proof.
  assert (Forall wellformed (records db_mail)) as H.
  { repeat (constructor;
            [unfold wellformed; simpl; repeat split; (tauto || lia || done)|]).
    constructor. }
  split; [exact H|].
  exact (served_records_stay_wellformed plain_runtime_clean
           [post_a; put_a; unauthorized_delete; delete_a] db_mail H).
Defined.

Lemma served_rules_never_fail_witness :
  Forall compilable (proxy_rules db_records)
  /\ Forall compilable
       (proxy_rules (serve_all [post_rule; post_broken_rule] db_records))
  /\ is_ok (getProxyDNS "printer.lan"
              (serve_all [post_rule; post_broken_rule] db_records)) = true.
Proof.
  assert (Forall compilable (proxy_rules db_records)) as H.
  { repeat (constructor; [vm_compute; reflexivity|]). constructor. }
  split; [exact H|].
  exact (served_rules_never_fail plain_runtime_clean
           [post_rule; post_broken_rule] db_records "printer.lan"
           fragment_flag_i_compiles H).
Defined.

(** The rule that does not compile is answered with [invalidRegex] and
    not stored; the one that compiles is, and then forwards. *)
Example rules_sample :
  fst (app POST_rules (call_uuid post_broken_rule) (call_now post_broken_rule)
           (call_place post_broken_rule)
           (call_req post_broken_rule) db_records)
  = Ok (mkResponse 400 errors_invalidRegex)
  /\ length (proxy_rules (serve_all [post_rule; post_broken_rule] db_records)) = 2%nat
  /\ getProxyDNS "printer.lan" (serve_all [post_rule; post_broken_rule] db_records)
     = Ok (Some "9.9.9.9").
Proof. by vm_compute. Qed.

End ApiFacts.
